(** * Flippin server: the room state machine of [server.js]

    A shallow embedding of the latest revision of the Socket.IO server
    (the one with [gameOver] and [checkGameOver]) and the properties of
    its room state machine: deck creation, flips, the question/answer
    gate, the timer, the end-of-game evaluator, rematch and disconnect.

    JavaScript values are modelled as follows.
    - numbers that count (matches, asked, extra, remaining seconds,
      [currentPlayer]) are [Z]; array indices are [nat]; the [idx] of a
      flip request, which the client chooses, is a [Key];
    - socket ids, names and texts are [string];
    - objects are records; arrays are lists, read with [!!] and written
      with [<[i:=x]>];
    - every room object ever allocated lives in a heap of rooms, because
      the [setInterval] and [setTimeout] closures keep a reference to the
      room they were created for, also after [rooms[ROOM_ID]] has been
      replaced (rematch) or deleted (last disconnect);
    - an uncaught [TypeError] ends the process: a handler returns
      [Crash] with what it had emitted so far. *)

From Stdlib Require Import ZArith NArith Lia.
From stdpp Require Import base tactics option list strings.

Open Scope string_scope.
Open Scope list_scope.
Open Scope Z_scope.

(** ** Data model *)

Record Card := mkCard {
  pairId : nat;
  animal : string;
  emoji : string;
  revealed : bool;
  matched : bool
}.

Record Player := mkPlayer {
  id : string;
  name : string;
  matches : Z;
  asked : Z;
  extra : Z;
  prevMatches : Z
}.

(** [intervalId] is not a field of the model: the interval of a room is
    live exactly while [running] is true (set together in [startTimer],
    cleared together in [pauseTimer] and at expiry). *)
Record Timer := mkTimer {
  remaining : Z;
  running : bool
}.

(** The [idx] of a flip request, by the property of [room.cards] that
    it names. [idx] arrives as any JSON value and is used as a property
    key ([room.cards[idx]]).
    - [KIndex i] is the array index [i] (the number 3, the string ['3']);
      past the end of the deck nothing is there.
    - [KName name] is another property name at which the handler finds
      a value that it takes for a card that is face down: a truthy value
      whose [revealed] and [matched] read falsy. ['length'] is always
      one (the number 20); an inherited method such as ['push'] is one
      until a flip has set a flag on the function object. Such a value
      has no [pairId] and no [animal] (both read [undefined]), and an
      assignment to its [revealed] or [matched] does not reach the room:
      the source is not in strict mode, so on a number the assignment is
      dropped, and on a function it changes an object that all arrays
      of the process share.
    The flags of those shared objects are not part of the model: whether
    a name is a [KName] at a given moment is part of the request, as the
    value of [Math.random()] is part of a connection. A request with any
    other [idx] (a name where nothing is, or where a flag is set) is
    dropped by the same guard and in the same way as an index past the
    end of the deck, and is a [KIndex] of that kind here. *)
Inductive Key :=
| KIndex (i : nat)
| KName (name : string).
Coercion KIndex : nat >-> Key.
Bind Scope nat_scope with Key.

#[global] Instance Key_eq_dec : EqDecision Key.
Proof. solve_decision. Defined.

(** What [room.cards[idx]] evaluates to when it is taken for a card: a
    card of the deck, or another value. *)
Inductive Value :=
| VCard (c : Card)
| VOther.
Coercion VCard : Card >-> Value.

Inductive LogEntry :=
| LogInfo (text : string)
| LogQ (by_ text : string)
| LogA (by_ text : string).

Record Room := mkRoom {
  roomId : string;
  cards : list Card;
  players : list Player;
  flipped : list Key;
  currentPlayer : Z;
  timer : Timer;
  log : list LogEntry;
  gameOver : bool
}.

(** Field updates, as the assignments of the source. *)
Definition set_revealed (b : bool) (c : Card) : Card :=
  mkCard (pairId c) (animal c) (emoji c) b (matched c).
Definition set_matched (b : bool) (c : Card) : Card :=
  mkCard (pairId c) (animal c) (emoji c) (revealed c) b.

Definition set_matches (m : Z) (p : Player) : Player :=
  mkPlayer (id p) (name p) m (asked p) (extra p) (prevMatches p).
Definition set_asked (a : Z) (p : Player) : Player :=
  mkPlayer (id p) (name p) (matches p) a (extra p) (prevMatches p).

Definition set_cards (cs : list Card) (r : Room) : Room :=
  mkRoom (roomId r) cs (players r) (flipped r) (currentPlayer r) (timer r) (log r) (gameOver r).
Definition set_players (ps : list Player) (r : Room) : Room :=
  mkRoom (roomId r) (cards r) ps (flipped r) (currentPlayer r) (timer r) (log r) (gameOver r).
Definition set_flipped (f : list Key) (r : Room) : Room :=
  mkRoom (roomId r) (cards r) (players r) f (currentPlayer r) (timer r) (log r) (gameOver r).
Definition set_currentPlayer (c : Z) (r : Room) : Room :=
  mkRoom (roomId r) (cards r) (players r) (flipped r) c (timer r) (log r) (gameOver r).
Definition set_timer (t : Timer) (r : Room) : Room :=
  mkRoom (roomId r) (cards r) (players r) (flipped r) (currentPlayer r) t (log r) (gameOver r).
Definition set_gameOver (g : bool) (r : Room) : Room :=
  mkRoom (roomId r) (cards r) (players r) (flipped r) (currentPlayer r) (timer r) (log r) g.
(** [room.log.unshift(e)] *)
Definition log_unshift (e : LogEntry) (r : Room) : Room :=
  mkRoom (roomId r) (cards r) (players r) (flipped r) (currentPlayer r) (timer r) (e :: log r) (gameOver r).

(** ** Deck generator *)

Definition ANIMALS : list (string * string) :=
  [ ("lion", "🦁"); ("elephant", "🐘"); ("fox", "🦊"); ("frog", "🐸");
    ("cat", "🐱"); ("dog", "🐶"); ("panda", "🐼"); ("rabbit", "🐰");
    ("tiger", "🐯"); ("bear", "🐻") ].

(** A value of [Math.random()]: the double [mant / 2^53], in [0, 1). *)
Record Float01 := mkFloat01 {
  mant : N;
  mant_lt : (mant <? 2 ^ 53)%N = true
}.

(** The source of randomness: the k-th call of [Math.random()]. *)
Definition Random := nat -> Float01.

(** The double nearest to [p / 2^53], as a multiple of [2^-53]: a
    numerator of more than 53 bits is rounded to its 53 leading bits,
    to nearest, ties to even. *)
Definition round53 (p : N) : N :=
  if (p <? 2 ^ 53)%N then p else
  let e := (N.log2 p - 52)%N in
  let q := (p / 2 ^ e)%N in
  let r := (p mod 2 ^ e)%N in
  let h := (2 ^ (e - 1))%N in
  if (h <? r)%N || ((r =? h)%N && N.odd q)
  then ((q + 1) * 2 ^ e)%N else (q * 2 ^ e)%N.

(** [Math.floor(u * n)] for an integer [n] below [2^53]: the floor of
    the double product, which is the exact product [mant * n / 2^53]
    rounded to a double. *)
Definition floor_mul (u : Float01) (n : nat) : nat :=
  N.to_nat (round53 (mant u * N.of_nat n) / 2 ^ 53).

(** [[arr[i], arr[j]] = [arr[j], arr[i]]] for indices inside the array
    (the loop of [shuffle] only produces [0 <= j <= i < arr.length]). *)
Definition swap {A} (i j : nat) (arr : list A) : list A :=
  match arr !! i, arr !! j with
  | Some x, Some y => <[j:=x]> (<[i:=y]> arr)
  | _, _ => arr
  end.

(** The loop of [shuffle]: [i] runs from [arr.length - 1] down to 1, and
    [k] counts the calls of [Math.random()]. *)
Fixpoint shuffle_loop {A} (rnd : Random) (k i : nat) (arr : list A) : list A :=
  match i with
  | O => arr
  | S i' =>
      let j := floor_mul (rnd k) (i + 1) in
      shuffle_loop rnd (S k) i' (swap i j arr)
  end.

Definition shuffle {A} (rnd : Random) (arr : list A) : list A :=
  shuffle_loop rnd 0 (length arr - 1) arr.
Arguments shuffle : simpl never.

Definition new_card (i : nat) (a : string * string) : Card :=
  mkCard i (a.1) (a.2) false false.

(** The loop of [createNewGameState]: two pushes per animal. *)
Fixpoint push_pairs (i : nat) (animals : list (string * string)) : list Card :=
  match animals with
  | [] => []
  | a :: rest => new_card i a :: new_card i a :: push_pairs (S i) rest
  end.

Definition createNewGameState (rnd : Random) : Room :=
  let cards := shuffle rnd (push_pairs 0 ANIMALS) in
  mkRoom "default" cards [] [] 0 (mkTimer 180 false) [] false.

(** How often pair [p] occurs in a deck. *)
Definition count_pair (p : nat) (deck : list Card) : nat :=
  length (filter (λ c, pairId c = p) deck).

(** The deck invariant of the data model. *)
Definition deck_ok (deck : list Card) : Prop :=
  length deck = 20%nat ∧
  (∀ p, (p < 10)%nat → count_pair p deck = 2%nat) ∧
  (∀ c, c ∈ deck → (pairId c < 10)%nat ∧ revealed c = false ∧ matched c = false).

(** ** What the server sends *)

Record PlayerView := mkPlayerView {
  pv_name : string;
  pv_matches : Z;
  pv_asked : Z;
  pv_extra : Z
}.

(** The payload of the ['state'] event. *)
Record StateView := mkStateView {
  sv_cards : list Card;
  sv_players : list PlayerView;
  sv_currentPlayer : Z;
  sv_timer : Timer;
  sv_chatLog : list LogEntry
}.

Inductive Event :=
| EvState (s : StateView)
| EvGameOver (winnerName : string)
| EvTimer (remaining : Z)
| EvTimeUp
| EvTimerPaused
| EvAskQuestion (remaining : Z)
| EvQuestionForAnswer (from text : string)
| EvQuestionAnswered (by_ text : string)
| EvGameReset
| EvRoomAssigned (roomId : string).

Inductive AckPayload :=
| AckOk
| AckError (error : string).

(** [ToRoom e] is [io.to(ROOM_ID).emit], [ToSocket sid e] is
    [io.to(sid).emit] or [socket.emit], [Ack sid a] is the callback [cb]
    of the request of socket [sid]. *)
Inductive Out :=
| ToRoom (e : Event)
| ToSocket (sid : string) (e : Event)
| Ack (sid : string) (a : AckPayload).

(** [cb && cb(a)] *)
Definition ack (cb : bool) (sid : string) (a : AckPayload) : list Out :=
  if cb then [Ack sid a] else [].

(** A handler either returns, or dies of an uncaught [TypeError]; both
    ways [out] is what it has emitted. *)
Inductive Result (A : Type) :=
| Done (a : A) (out : list Out)
| Crash (out : list Out).
Arguments Done {A} a out.
Arguments Crash {A} out.

(** ** Helper functions of the source

    The helpers of the source take a room id and start with
    [const r = rooms[roomId]; if (!r) return]. Here they take the room
    itself; the guard is [on_registered] below. *)

(** [5 + (player.extra || 0) - (player.asked || 0)]; the two counters
    are numbers from the moment the player is created, so [|| 0] leaves
    them as they are. *)
Definition questionsLeft (player : Player) : Z :=
  5 + extra player - asked player.

Definition is_chat (e : LogEntry) : bool :=
  match e with
  | LogInfo _ => false
  | LogQ _ _ | LogA _ _ => true
  end.

Definition player_view (p : Player) : PlayerView :=
  mkPlayerView (name p) (matches p) (asked p) (extra p).

Definition snapshot (r : Room) : StateView :=
  mkStateView (cards r) (player_view <$> players r) (currentPlayer r)
    (timer r) (List.filter is_chat (log r)).

Definition broadcastState (r : Room) : list Out :=
  [ToRoom (EvState (snapshot r))].

Definition pauseTimer (r : Room) : Room * list Out :=
  if running (timer r)
  then (set_timer (mkTimer (remaining (timer r)) false) r, [ToRoom EvTimerPaused])
  else (r, []).

Definition startTimer (r : Room) : Room :=
  if running (timer r) then r
  else set_timer (mkTimer (remaining (timer r)) true) r.

Definition resumeTimer (r : Room) : Room :=
  if running (timer r) then r else startTimer r.

(** [room.players[i]?.matches || 0] *)
Definition matches_or0 (p : option Player) : Z :=
  from_option matches 0 p.

Definition tie_name : string := "It's a tie!".

(** Both branches read [room.players[0].matches] and
    [room.players[1].matches] without [?.]: with a player missing that is
    a [TypeError], after [gameOver] has been set. *)
Definition checkGameOver (room : Room) : Result Room :=
  if gameOver room then Done room [] else
  let totalMatches :=
    matches_or0 (players room !! 0%nat) + matches_or0 (players room !! 1%nat) in
  if totalMatches =? 10 then
    let '(room1, out1) := pauseTimer room in
    let room2 := set_gameOver true room1 in
    match players room !! 0%nat, players room !! 1%nat with
    | Some p0, Some p1 =>
        let winner := if matches p0 >? matches p1 then name p0 else name p1 in
        let winner := if matches p0 =? matches p1 then tie_name else winner in
        Done room2 (out1 ++ [ToRoom (EvGameOver winner)])
    | _, _ => Crash out1
    end
  else if remaining (timer room) <=? 0 then
    let room2 := set_gameOver true room in
    match players room !! 0%nat, players room !! 1%nat with
    | Some p0, Some p1 =>
        let winner :=
          if matches p0 >? matches p1 then Some (name p0)
          else if matches p1 >? matches p0 then Some (name p1) else None in
        let winner := if matches p0 =? matches p1 then Some tie_name else winner in
        match winner with
        | Some w => Done room2 [ToRoom (EvGameOver w)]
        | None => Done room2 []
        end
    | _, _ => Crash []
    end
  else Done room [].

(** The timer with the interval cleared, and with the interval set. *)
Definition stopped (r : Room) : Room := set_timer (mkTimer (remaining (timer r)) false) r.
Definition started (r : Room) : Room := set_timer (mkTimer (remaining (timer r)) true) r.

(** ** Socket handlers, on the room [rooms[ROOM_ID]] *)

(** [room.players.findIndex(p => p.id === socket.id)] *)
Definition findIndex (sid : string) (ps : list Player) : option nat :=
  fst <$> list_find (λ p, id p = sid) ps.

(** [room.players.find(p => p.id === socket.id)] *)
Definition find_player (sid : string) (ps : list Player) : option Player :=
  snd <$> list_find (λ p, id p = sid) ps.

(** [room.players.find(p => p.id !== socket.id)] *)
Definition find_opponent (sid : string) (ps : list Player) : option Player :=
  snd <$> list_find (λ p, id p ≠ sid) ps.

(** [arr[z]] for a number [z] that need not be an index. *)
Definition lookupZ {A} (l : list A) (z : Z) : option A :=
  if z <? 0 then None else l !! Z.to_nat z.

(** The connection handler, once the room exists. *)
Definition connection (room : Room) (sid playerName : string) : Room * list Out :=
  let room1 :=
    if bool_decide (length (players room) < 2)%nat
       && bool_decide (find_player sid (players room) = None)
    then log_unshift (LogInfo (playerName +:+ " has joined."))
           (set_players (players room ++ [mkPlayer sid playerName 0 0 0 0]) room)
    else room in
  let room2 :=
    if bool_decide (length (players room1) = 2%nat)
       && negb (running (timer room1)) && negb (gameOver room1)
    then startTimer room1 else room1 in
  (room2, [ToSocket sid (EvRoomAssigned "default")] ++ broadcastState room2).

Definition reset_player (p : Player) : Player :=
  mkPlayer (id p) (name p) 0 0 0 0.

(** The rematch handler: [None] when the request is refused, the new
    room otherwise. *)
Definition rematch (room : Room) (sid : string) (cb : bool) (rnd : Random)
    : option Room * list Out :=
  if bool_decide (length (players room) ≠ 2%nat)
  then (None, ack cb sid (AckError "Waiting for opponent."))
  else
    let newGame := set_players (reset_player <$> players room) (createNewGameState rnd) in
    let newGame := startTimer newGame in
    (Some newGame, broadcastState newGame ++ [ToRoom EvGameReset] ++ ack cb sid AckOk).

(** [room.cards[idx]]; [None] is [undefined]. *)
Definition card_at (cs : list Card) (idx : Key) : option Value :=
  match idx with
  | KIndex i => VCard <$> cs !! i
  | KName _ => Some VOther
  end.

(** [card.revealed], [card.matched], [card.pairId] and, inside a
    template string, [card.animal], for what [card_at] found. The
    [pairId] is [None] where the source reads [undefined]. *)
Definition v_revealed (v : Value) : bool :=
  match v with VCard c => revealed c | VOther => false end.
Definition v_matched (v : Value) : bool :=
  match v with VCard c => matched c | VOther => false end.
Definition v_pairId (v : Value) : option nat :=
  match v with VCard c => Some (pairId c) | VOther => None end.
Definition v_animal (v : Value) : string :=
  match v with VCard c => animal c | VOther => "undefined" end.

(** An assignment to a flag of [room.cards[idx]]: it changes the deck
    where [idx] is the index of a card. *)
Definition alter_at (f : Card → Card) (idx : Key) (cs : list Card) : list Card :=
  match idx with
  | KIndex i => alter f i cs
  | KName _ => cs
  end.

(** What [setTimeout(..., 900)] is given in the flip handler: the keys
    of the two cards to turn back. Time is not part of the model: the
    closure is pending from the flip on, until the step at which it runs. *)
Definition Scheduled := option (Key * Key).

Definition flip (room : Room) (sid : string) (idx : Key) (cb : bool)
    : Result (Room * Scheduled) :=
  if gameOver room then Done (room, None) [] else
  match findIndex sid (players room) with
  | None => Done (room, None) (ack cb sid (AckError "Not your turn."))
  | Some playerIndex =>
  if negb (currentPlayer room =? Z.of_nat playerIndex)
  then Done (room, None) (ack cb sid (AckError "Not your turn.")) else
  match card_at (cards room) idx with
  | None => Done (room, None) []
  | Some card =>
  if v_revealed card || v_matched card || (2 <=? length (flipped room))%nat
  then Done (room, None) [] else
  let room1 :=
    set_flipped (flipped room ++ [idx])
      (set_cards (alter_at (set_revealed true) idx (cards room)) room) in
  let out1 := broadcastState room1 in
  match flipped room1 with
  | [idxA; idxB] =>
      match card_at (cards room1) idxA, card_at (cards room1) idxB with
      | Some cardA, Some cardB =>
          if bool_decide (v_pairId cardA = v_pairId cardB) then
            let cards2 :=
              alter_at (set_matched true) idxA
                (alter_at (set_matched true) idxB (cards room1)) in
            match players room1 !! playerIndex with
            | None => Crash out1
            | Some player0 =>
                let player := set_matches (matches player0 + 1) player0 in
                let room2 :=
                  set_flipped []
                    (log_unshift
                       (LogInfo (name player +:+ " found a pair (" +:+ v_animal cardA +:+ ")."))
                       (set_players (<[playerIndex:=player]> (players room1))
                          (set_cards cards2 room1))) in
                let '(room3, out3) := pauseTimer room2 in
                let out4 :=
                  out1 ++ out3 ++ broadcastState room3
                    ++ [ToSocket (id player) (EvAskQuestion (questionsLeft player))] in
                match checkGameOver room3 with
                | Done room5 out5 =>
                    Done (room5, None) (out4 ++ out5 ++ ack cb sid AckOk)
                | Crash out5 => Crash (out4 ++ out5)
                end
            end
          else Done (room1, Some (idxA, idxB)) (out1 ++ ack cb sid AckOk)
      | _, _ => Crash out1
      end
  | _ => Done (room1, None) (out1 ++ ack cb sid AckOk)
  end
  end
  end.

(** [room.players[room.currentPlayer]?.name] inside a template string. *)
Definition name_or_undefined (p : option Player) : string :=
  from_option name "undefined" p.

(** The body of the [setTimeout] callback of the flip handler, on the
    room object it closed over. *)
Definition flipBack (room : Room) (idxA idxB : Key) : Room :=
  let room1 :=
    set_cards (alter_at (set_revealed false) idxA
                 (alter_at (set_revealed false) idxB (cards room))) room in
  let room2 := set_flipped [] room1 in
  let room3 := set_currentPlayer (1 - currentPlayer room2) room2 in
  log_unshift
    (LogInfo ("No match. It's now "
                +:+ name_or_undefined (lookupZ (players room3) (currentPlayer room3))
                +:+ "'s turn."))
    room3.

Definition askQuestion (room : Room) (sid text : string) (cb : bool)
    : Room * list Out :=
  match list_find (λ p, id p = sid) (players room) with
  | None => (room, [])
  | Some (i, asker0) =>
      let asker := set_asked (asked asker0 + 1) asker0 in
      let room1 :=
        log_unshift (LogQ (name asker) text)
          (set_players (<[i:=asker]> (players room)) room) in
      let out1 :=
        match find_opponent sid (players room1) with
        | Some opponent =>
            [ToSocket (id opponent) (EvQuestionForAnswer (name asker) text)]
        | None => []
        end in
      (room1, out1 ++ broadcastState room1 ++ ack cb sid AckOk)
  end.

Definition answerQuestion (room : Room) (sid text : string) (cb : bool)
    : Room * list Out :=
  let answerer_name := from_option name "Unknown" (find_player sid (players room)) in
  let room1 := log_unshift (LogA answerer_name text) room in
  let out1 := [ToRoom (EvQuestionAnswered answerer_name text)] in
  let room2 := if negb (gameOver room1) then resumeTimer room1 else room1 in
  (room2, out1 ++ broadcastState room2 ++ ack cb sid AckOk).

(** The disconnect handler; the boolean says whether the handler ended
    with [delete rooms[ROOM_ID]]. *)
Definition disconnect (room : Room) (sid : string) : Room * bool * list Out :=
  match list_find (λ p, id p = sid) (players room) with
  | None => (room, false, [])
  | Some (idx, p) =>
      let room1 :=
        log_unshift (LogInfo (name p +:+ " has disconnected."))
          (set_players (delete idx (players room)) room) in
      let '(room2, out2) := pauseTimer room1 in
      let room3 :=
        if bool_decide (length (players room2) < 2)%nat
        then set_gameOver true room2 else room2 in
      (room3, bool_decide (length (players room3) = 0%nat), out2 ++ broadcastState room3)
  end.

(** ** The server as a transition system

    [heap] holds every room object ever created, at the address it was
    allocated; [registry] is [rooms[ROOM_ID]] (the only key in use is
    ['default']); [timeouts] are the pending [setTimeout] closures of the
    flip handler. A room whose [running] flag is set has a live
    [setInterval] closure. *)

Record Pending := mkPending {
  pd_room : nat;
  pd_idxA : Key;
  pd_idxB : Key
}.

Record World := mkWorld {
  heap : list Room;
  registry : option nat;
  timeouts : list Pending
}.

Definition initial : World := mkWorld [] None [].

(** [rooms[ROOM_ID]], with its address. *)
Definition registered (w : World) : option (nat * Room) :=
  match registry w with
  | Some a =>
      match heap w !! a with
      | Some r => Some (a, r)
      | None => None
      end
  | None => None
  end.

Definition store (a : nat) (r : Room) (w : World) : World :=
  mkWorld (<[a:=r]> (heap w)) (registry w) (timeouts w).

(** [const room = rooms[ROOM_ID]; if (!room) return; ...] *)
Definition on_registered (w : World) (f : nat → Room → Result World) : Result World :=
  match registered w with
  | Some (a, r) => f a r
  | None => Done w []
  end.

(** [broadcastState(roomId)] and [checkGameOver(roomId)], guard included. *)
Definition broadcastState_id (w : World) : list Out :=
  match registered w with
  | Some (_, r) => broadcastState r
  | None => []
  end.

Definition checkGameOver_id (w : World) : Result World :=
  on_registered w (λ a r,
    match checkGameOver r with
    | Done r' out => Done (store a r' w) out
    | Crash out => Crash out
    end).

(** One run of the [setInterval] callback of the room object at [a]. *)
Definition tick (w : World) (a : nat) : Result World :=
  match heap w !! a with
  | None => Done w []
  | Some r =>
      if negb (running (timer r)) then Done w [] else
      let t1 := remaining (timer r) - 1 in
      let out1 := [ToRoom (EvTimer t1)] in
      if t1 <=? 0 then
        let r1 := log_unshift (LogInfo "Time is up.") (set_timer (mkTimer t1 false) r) in
        let w1 := store a r1 w in
        let out2 := out1 ++ [ToRoom EvTimeUp] ++ broadcastState_id w1 in
        match checkGameOver_id w1 with
        | Done w2 out3 => Done w2 (out2 ++ out3)
        | Crash out3 => Crash (out2 ++ out3)
        end
      else Done (store a (set_timer (mkTimer t1 true) r) w) out1
  end.

(** The [k]-th pending [setTimeout] closure runs. *)
Definition fire (w : World) (k : nat) : Result World :=
  match timeouts w !! k with
  | None => Done w []
  | Some p =>
      match heap w !! pd_room p with
      | None => Done w []
      | Some r =>
          let w1 :=
            mkWorld (<[pd_room p := flipBack r (pd_idxA p) (pd_idxB p)]> (heap w))
              (registry w) (delete k (timeouts w)) in
          Done w1 (broadcastState_id w1)
      end
  end.

Definition schedule (a : nat) (s : Scheduled) : list Pending :=
  match s with
  | Some (idxA, idxB) => [mkPending a idxA idxB]
  | None => []
  end.

(** What can happen to the server: the six socket events, a timer tick
    of a room object, a flip-back timeout. An event that is not enabled
    (no live interval, no such timeout) leaves the world as it is.
    Any socket id may send any event: a socket that connected while the
    room was full has the handlers without being a player. The [idx] of a
    flip is a [Key]: the client chooses it. [cb] says whether the client
    passed a callback. Texts and names are strings and a callback is a
    function, as the client of the game sends them.
    The flip, askQuestion and answerQuestion handlers take their payload
    apart in the parameter list ([({ idx }, cb) => ...]): when such an
    event arrives with [undefined] or [null] for a payload
    ([InNoPayload]), that throws before the body of the handler runs. *)
Inductive PayloadEvent :=
| OnFlip
| OnAskQuestion
| OnAnswerQuestion.

Inductive Input :=
| InConnection (sid playerName : string) (rnd : Random)
| InRematch (sid : string) (cb : bool) (rnd : Random)
| InFlip (sid : string) (idx : Key) (cb : bool)
| InAskQuestion (sid text : string) (cb : bool)
| InAnswerQuestion (sid text : string) (cb : bool)
| InDisconnect (sid : string)
| InTick (a : nat)
| InTimeout (k : nat)
| InNoPayload (sid : string) (event : PayloadEvent).

Definition step (w : World) (i : Input) : Result World :=
  match i with
  | InConnection sid playerName rnd =>
      match registered w with
      | Some (a, r) =>
          let '(r', out) := connection r sid playerName in
          Done (store a r' w) out
      | None =>
          let '(r', out) := connection (createNewGameState rnd) sid playerName in
          Done (mkWorld (heap w ++ [r']) (Some (length (heap w))) (timeouts w)) out
      end
  | InRematch sid cb rnd =>
      match registered w with
      | Some (a, r) =>
          match rematch r sid cb rnd with
          | (Some newGame, out) =>
              Done (mkWorld (heap w ++ [newGame]) (Some (length (heap w))) (timeouts w)) out
          | (None, out) => Done w out
          end
      | None => Done w (ack cb sid (AckError "No game found."))
      end
  | InFlip sid idx cb =>
      on_registered w (λ a r,
        match flip r sid idx cb with
        | Done (r', s) out =>
            Done (mkWorld (<[a:=r']> (heap w)) (registry w) (timeouts w ++ schedule a s)) out
        | Crash out => Crash out
        end)
  | InAskQuestion sid text cb =>
      on_registered w (λ a r,
        let '(r', out) := askQuestion r sid text cb in Done (store a r' w) out)
  | InAnswerQuestion sid text cb =>
      on_registered w (λ a r,
        let '(r', out) := answerQuestion r sid text cb in Done (store a r' w) out)
  | InDisconnect sid =>
      on_registered w (λ a r,
        let '(r', deleted, out) := disconnect r sid in
        Done (mkWorld (<[a:=r']> (heap w))
                (if deleted then None else registry w) (timeouts w)) out)
  | InTick a => tick w a
  | InTimeout k => fire w k
  | InNoPayload _ _ => Crash []
  end.

Inductive reachable : World → Prop :=
| reachable_initial : reachable initial
| reachable_step w i w' out :
    reachable w → step w i = Done w' out → reachable w'.

(** Runs of several inputs, for examples. *)
Fixpoint run (w : World) (inputs : list Input) : option World :=
  match inputs with
  | [] => Some w
  | i :: rest =>
      match step w i with
      | Done w' _ => run w' rest
      | Crash _ => None
      end
  end.

(** ** Invariants of the reachable worlds *)

(** The indices in [flipped] are indices of cards that are not
    matched. *)
Definition flipped_ok (r : Room) : Prop :=
  ∀ i : nat, KIndex i ∈ flipped r → ∃ c, cards r !! i = Some c ∧ matched c = false.

Definition room_ok (r : Room) : Prop :=
  (running (timer r) = true → 0 < remaining (timer r)) ∧
  (gameOver r = true → running (timer r) = false) ∧
  flipped_ok r.

(** A pending flip-back belongs to a room whose [flipped] is exactly
    its two keys. *)
Definition pending_ok (w : World) (p : Pending) : Prop :=
  ∃ r, heap w !! pd_room p = Some r ∧ flipped r = [pd_idxA p; pd_idxB p].

(** The registered room is over once its time is up. *)
Definition reg_ok (r : Room) : Prop :=
  remaining (timer r) ≤ 0 → gameOver r = true.

Record heap_ok (w : World) : Prop := mkHeapOk {
  ho_rooms : ∀ a r, heap w !! a = Some r → room_ok r;
  ho_registry : ∀ a, registry w = Some a → is_Some (heap w !! a);
  ho_pending : ∀ p, p ∈ timeouts w → pending_ok w p;
  ho_nodup : NoDup (pd_room <$> timeouts w)
}.

Definition registry_ok (w : World) : Prop :=
  ∀ a r, registered w = Some (a, r) → reg_ok r.

Definition world_ok (w : World) : Prop := heap_ok w ∧ registry_ok w.

(** ** What one step of the server does to one room object

    [room_trans r r']: a step of the server can turn the room object [r]
    into [r']. The world-level plumbing (which object is registered,
    which closure runs) is in [step_sound] below. *)

(** The room after a tick that leaves time, and after the last tick. *)
Definition ticked (r : Room) : Room :=
  set_timer (mkTimer (remaining (timer r) - 1) true) r.

Definition expired (r : Room) : Room :=
  log_unshift (LogInfo "Time is up.")
    (set_timer (mkTimer (remaining (timer r) - 1) false) r).

Inductive room_trans : Room → Room → Prop :=
| rt_same r : room_trans r r
| rt_connection r sid playerName :
    reg_ok r → room_trans r (connection r sid playerName).1
| rt_flip r sid idx cb r' s out :
    reg_ok r → flip r sid idx cb = Done (r', s) out → room_trans r r'
| rt_ask r sid text cb : room_trans r (askQuestion r sid text cb).1
| rt_answer r sid text cb :
    reg_ok r → room_trans r (answerQuestion r sid text cb).1
| rt_disconnect r sid : reg_ok r → room_trans r (disconnect r sid).1.1
| rt_tick r :
    running (timer r) = true → 0 < remaining (timer r) - 1 →
    room_trans r (ticked r)
| rt_expire r :
    running (timer r) = true → remaining (timer r) - 1 ≤ 0 →
    room_trans r (expired r)
| rt_expire_check r r' out :
    running (timer r) = true → remaining (timer r) - 1 ≤ 0 →
    checkGameOver (expired r) = Done r' out → room_trans r r'
| rt_check r r' out : checkGameOver r = Done r' out → room_trans r r'
| rt_flipBack r idxA idxB :
    flipped r = [idxA; idxB] → room_trans r (flipBack r idxA idxB).

(** The step emits a game-over signal. *)
Definition declares (out : list Out) : Prop :=
  ∃ winnerName, ToRoom (EvGameOver winnerName) ∈ out.

(** Every room object of [w] is still there in [w'], after one
    [room_trans]. *)
Definition rooms_trans (w w' : World) : Prop :=
  ∀ a r, heap w !! a = Some r → ∃ r', heap w' !! a = Some r' ∧ room_trans r r'.

(** ** The previous revision of the askQuestion handler

    The revision before the latest one (the one with the bonus-question
    rule) has the same handler with a guard on [questionsLeft]. Its
    ['state'] payload carries the whole log. *)
Module PreviousRevision.

Definition snapshot (r : Room) : StateView :=
  mkStateView (cards r) (player_view <$> players r) (currentPlayer r)
    (timer r) (log r).

Definition broadcastState (r : Room) : list Out :=
  [ToRoom (EvState (snapshot r))].

Definition askQuestion (room : Room) (sid text : string) (cb : bool)
    : Room * list Out :=
  match list_find (λ p, id p = sid) (players room) with
  | None => (room, ack cb sid (AckError "No questions left or invalid player."))
  | Some (i, asker0) =>
      if questionsLeft asker0 <=? 0
      then (room, ack cb sid (AckError "No questions left or invalid player."))
      else
        let asker := set_asked (asked asker0 + 1) asker0 in
        let room1 :=
          log_unshift (LogQ (name asker) text)
            (set_players (<[i:=asker]> (players room)) room) in
        let out1 :=
          match find_opponent sid (players room1) with
          | Some opponent =>
              [ToSocket (id opponent) (EvQuestionForAnswer (name asker) text)]
          | None => []
          end in
        (room1, out1 ++ broadcastState room1 ++ ack cb sid AckOk)
  end.

End PreviousRevision.

(** ** The stages of an accepted flip, for the statements below *)

(** [card.revealed = true; room.flipped.push(idx)] *)
Definition reveal (idx : Key) (room : Room) : Room :=
  set_flipped (flipped room ++ [idx])
    (set_cards (alter_at (set_revealed true) idx (cards room)) room).

(** The match branch up to [room.flipped = []], for the player at
    [playerIndex], who was [player0] before the flip. *)
Definition award (playerIndex : nat) (idxA idxB : Key) (player0 : Player)
    (cardA : Value) (room1 : Room) : Room :=
  let player := set_matches (matches player0 + 1) player0 in
  set_flipped []
    (log_unshift
       (LogInfo (name player +:+ " found a pair (" +:+ v_animal cardA +:+ ")."))
       (set_players (<[playerIndex:=player]> (players room1))
          (set_cards (alter_at (set_matched true) idxA
                        (alter_at (set_matched true) idxB (cards room1))) room1))).

(** ** Sample runs, for the examples *)

(** [Math.random()] returning 0 every time: the shuffle then swaps
    [arr[i]] with [arr[0]] for i = 19 .. 1, and the pair ids of the deck
    are 0 1 1 2 2 3 3 ... 9 9 0. *)
Definition rnd0 : Random := λ _, mkFloat01 0 eq_refl.

(** Ann and Bob connect. *)
Definition two_join : list Input :=
  [InConnection "A" "Ann" rnd0; InConnection "B" "Bob" rnd0].

Definition run_from_initial (inputs : list Input) : World :=
  default initial (run initial inputs).

Definition world_two : World := Eval vm_compute in run_from_initial two_join.

Definition room_two : Room := Eval vm_compute in default (createNewGameState rnd0) (heap world_two !! 0%nat).

(** Ann has turned card 1 (an elephant). *)
Definition world_one_up : World :=
  Eval vm_compute in run_from_initial (two_join ++ [InFlip "A" 1 true]).

Definition room_one_up : Room :=
  Eval vm_compute in default (createNewGameState rnd0) (heap world_one_up !! 0%nat).

(** Ann has turned cards 1 and 2 (the two elephants). *)
Definition world_pair : World :=
  Eval vm_compute in run_from_initial (two_join ++ [InFlip "A" 1 true; InFlip "A" 2 true]).

Definition room_pair : Room :=
  Eval vm_compute in default (createNewGameState rnd0) (heap world_pair !! 0%nat).

(** Ann has turned cards 1 and 3 (an elephant and a fox). *)
Definition world_miss : World :=
  Eval vm_compute in run_from_initial (two_join ++ [InFlip "A" 1 true; InFlip "A" 3 true]).

(** Bob has left. *)
Definition world_left : World :=
  Eval vm_compute in run_from_initial (two_join ++ [InDisconnect "B"]).

Definition room_left : Room :=
  Eval vm_compute in default (createNewGameState rnd0) (heap world_left !! 0%nat).

(** Ann has asked five questions. *)
Definition five_questions : list Input :=
  [InAskQuestion "A" "q1" true; InAskQuestion "A" "q2" true;
   InAskQuestion "A" "q3" true; InAskQuestion "A" "q4" true;
   InAskQuestion "A" "q5" true].

Definition world_asked5 : World :=
  Eval vm_compute in run_from_initial (two_join ++ five_questions).

Definition room_asked5 : Room :=
  Eval vm_compute in default (createNewGameState rnd0) (heap world_asked5 !! 0%nat).

(** ** The verdict of the end-of-game evaluator, for the statements *)

(** Whose name the game-over signal carries, for two players. *)
Definition winner_name (p0 p1 : Player) : string :=
  if matches p0 >? matches p1 then name p0
  else if matches p1 >? matches p0 then name p1
  else tie_name.

(** All pairs found, or no time left. *)
Definition game_is_over (room : Room) (p0 p1 : Player) : Prop :=
  matches p0 + matches p1 = 10 ∨ remaining (timer room) ≤ 0.

(** The ['askQuestion'] prompts among what a handler sent. *)
Definition is_prompt (o : Out) : bool :=
  match o with
  | ToRoom (EvAskQuestion _) | ToSocket _ (EvAskQuestion _) => true
  | _ => false
  end.

(** One second before the time is up: Ann and Bob have joined and the
    timer has ticked 179 times. *)
Definition world_last_second : World :=
  Eval vm_compute in run_from_initial (two_join ++ replicate 179 (InTick 0)).

Definition room_last_second : Room :=
  Eval vm_compute in
    default (createNewGameState rnd0) (heap world_last_second !! 0%nat).

(** Turning the cards 0, 19, 1, 2, ..., 17 of the deck under [rnd0]
    finds nine pairs and leaves card 17, a bear, face up. *)
Definition nineteen_flips (sid : string) : list Input :=
  (λ i : nat, InFlip sid i true)
    <$> [0; 19; 1; 2; 3; 4; 5; 6; 7; 8; 9; 10; 11; 12; 13; 14; 15; 16; 17]%nat.

(** Ann and Bob have joined, and Ann has turned 19 cards without a
    miss. *)
Definition world_nineteen : World :=
  Eval vm_compute in run_from_initial (two_join ++ nineteen_flips "A").

Definition room_nineteen : Room :=
  Eval vm_compute in
    default (createNewGameState rnd0) (heap world_nineteen !! 0%nat).

(** Ann is alone and has turned 19 cards without a miss. *)
Definition lone_nineteen : list Input :=
  InConnection "A" "Ann" rnd0 :: nineteen_flips "A".

Definition world_lone : World := Eval vm_compute in run_from_initial lone_nineteen.

Definition room_lone : Room :=
  Eval vm_compute in default (createNewGameState rnd0) (heap world_lone !! 0%nat).

(** Ann is alone, has answered a question, and the timer that this
    started has ticked 179 times. *)
Definition lone_clock : list Input :=
  InConnection "A" "Ann" rnd0 :: InAnswerQuestion "A" "yes" true
    :: replicate 179 (InTick 0).

Definition world_lone_clock : World :=
  Eval vm_compute in run_from_initial lone_clock.

Definition room_lone_clock : Room :=
  Eval vm_compute in
    default (createNewGameState rnd0) (heap world_lone_clock !! 0%nat).

(** ** Further invariants of the room objects *)

(** A card without its two flags. *)
Definition face_down (c : Card) : Card :=
  mkCard (pairId c) (animal c) (emoji c) false false.

Record room_wf (r : Room) : Prop := mkRoomWf {
  wf_players : (length (players r) ≤ 2)%nat ∧ NoDup (id <$> players r);
  wf_turn : currentPlayer r = 0 ∨ currentPlayer r = 1;
  wf_flipped :
    (length (flipped r) ≤ 2)%nat ∧ NoDup (flipped r) ∧
    ∀ i : nat, KIndex i ∈ flipped r →
      ∃ c, cards r !! i = Some c ∧ revealed c = true ∧ matched c = false;
  wf_matched : ∀ i c, cards r !! i = Some c → matched c = true → revealed c = true;
  wf_deck : face_down <$> cards r ≡ₚ push_pairs 0 ANIMALS;
  wf_timer : 0 ≤ remaining (timer r) ≤ 180
}.

(** Two keys wait in [flipped] after a miss only: what is at the two
    keys has different pair ids. *)
Definition miss_ok (r : Room) : Prop :=
  ∀ kA kB vA vB,
    flipped r = [kA; kB] →
    card_at (cards r) kA = Some vA → card_at (cards r) kB = Some vB →
    v_pairId vA ≠ v_pairId vB.

(** The room objects a step can allocate: the room of a first
    connection, and the new game of a rematch. *)
Definition fresh_room (w : World) (g : Room) : Prop :=
  (∃ rnd sid playerName,
     g = (connection (createNewGameState rnd) sid playerName).1) ∨
  (∃ a r sid cb rnd out,
     heap w !! a = Some r ∧ rematch r sid cb rnd = (Some g, out)).

(** What a player is to the others: everything but the match count. *)
Definition allowance (p : Player) : string * string * Z * Z :=
  (id p, name p, asked p, extra p).

(** What no step does to a room object: the deck keeps its cards at
    their places, the log keeps its entries, the clock does not go up. *)
Definition room_grows (r r' : Room) : Prop :=
  face_down <$> cards r' = face_down <$> cards r ∧
  log r `suffix_of` log r' ∧
  remaining (timer r') ≤ remaining (timer r).

(** Ann's miss (cards 1 and 3) followed by a rematch before the
    flip-back has run. *)
Definition world_miss_rematch : World :=
  Eval vm_compute in
    default initial (run world_miss [InRematch "B" true rnd0]).

Definition room_miss_rematch : Room :=
  Eval vm_compute in default room_two (heap world_miss_rematch !! 1%nat).

(** ** The score and the table *)

(** [totalMatches] of the evaluator, and the number of matched cards. *)
Definition totalMatches (r : Room) : Z :=
  matches_or0 (players r !! 0%nat) + matches_or0 (players r !! 1%nat).

Definition matched_count (cs : list Card) : Z :=
  Z.of_nat (length (List.filter matched cs)).

Record room_score (r : Room) : Prop := mkRoomScore {
  sc_nonneg : ∀ p, p ∈ players r → 0 ≤ matches p;
  sc_le : totalMatches r ≤ 10;
  sc_play :
    gameOver r = false →
    matched_count (cards r) ≤ 2 * totalMatches r ∧ totalMatches r < 10
}.

(** The last ['state'] payload among what a handler sent. *)
Definition is_state (o : Out) : option StateView :=
  match o with
  | ToRoom (EvState s) => Some s
  | _ => None
  end.

Definition last_state (out : list Out) : option StateView :=
  last (omap is_state out).

(** ** The counters of a player *)

(** What a step can do to a player who stays: the counters go up or
    stay, the rest stays. *)
Definition player_step (p p' : Player) : Prop :=
  id p' = id p ∧ name p' = name p ∧
  extra p' = extra p ∧ prevMatches p' = prevMatches p ∧
  asked p ≤ asked p' ∧ matches p ≤ matches p'.

Definition player_ok (p : Player) : Prop :=
  extra p = 0 ∧ prevMatches p = 0 ∧ 0 ≤ asked p.
(** ** Deck generator: proofs *)

(** Rounding does not reach [n]: the product is at least [n] units of
    [2^-53] below [n], and half the distance between two doubles of its
    size is less than that. *)
Lemma round53_lt (m n : N) :
  (m < 2 ^ 53)%N → (0 < n)%N → (round53 (m * n) < n * 2 ^ 53)%N.
Proof.
  intros Hm Hn. unfold round53.
  set (p := (m * n)%N).
  assert (Hp : (p + n ≤ n * 2 ^ 53)%N) by (subst p; nia).
  destruct (p <? 2 ^ 53)%N eqn:Hlt.
  { apply N.ltb_lt in Hlt. lia. }
  apply N.ltb_ge in Hlt.
  destruct (N.log2_spec p) as [Hlo Hhi]; [lia|].
  assert (H53 : (53 ≤ N.log2 p)%N).
  { rewrite <- (N.log2_pow2 53) by lia. by apply N.log2_le_mono. }
  set (e := (N.log2 p - 52)%N).
  assert (He : (N.log2 p = 53 + (e - 1))%N) by lia.
  assert (He1 : (e = N.succ (e - 1))%N) by lia.
  assert (Hpow : (2 ^ e = 2 * 2 ^ (e - 1))%N).
  { rewrite He1 at 1. by rewrite N.pow_succ_r'. }
  rewrite He, N.pow_add_r in Hlo.
  pose proof (N.div_mod p (2 ^ e)) as Hdm.
  pose proof (N.mod_lt p (2 ^ e)) as Hmod.
  assert (Hpos : (0 < 2 ^ (e - 1))%N) by (apply N.neq_0_lt_0, N.pow_nonzero; lia).
  set (q := (p / 2 ^ e)%N) in *. set (r := (p mod 2 ^ e)%N) in *.
  set (h := (2 ^ (e - 1))%N) in *.
  assert (Hh : (h < n)%N) by nia.
  specialize (Hdm ltac:(lia)). specialize (Hmod ltac:(lia)).
  destruct ((h <? r)%N || ((r =? h)%N && N.odd q)) eqn:Hup.
  - assert (Hr : (h ≤ r)%N).
    { apply orb_true_iff in Hup as [Hup|Hup].
      - apply N.ltb_lt in Hup. lia.
      - apply andb_true_iff in Hup as [Hup _]. apply N.eqb_eq in Hup. lia. }
    nia.
  - nia.
Qed.

Lemma floor_mul_lt u n : (0 < n)%nat → (floor_mul u n < n)%nat.
Proof.
  intros Hn. unfold floor_mul.
  pose proof (mant_lt u) as Hu. apply N.ltb_lt in Hu.
  assert (round53 (mant u * N.of_nat n) / 2 ^ 53 < N.of_nat n)%N; [|lia].
  apply N.Div0.div_lt_upper_bound.
  rewrite (N.mul_comm (2 ^ 53)). apply round53_lt; lia.
Qed.

Lemma swap_Permutation {A} (i j : nat) (arr : list A) : swap i j arr ≡ₚ arr.
Proof.
  unfold swap.
  destruct (arr !! i) as [x|] eqn:Hi; [|done].
  destruct (arr !! j) as [y|] eqn:Hj; [|done].
  destruct (decide (i = j)) as [->|Hne].
  - assert (x = y) by congruence. subst y.
    rewrite list_insert_insert_eq. by rewrite list_insert_id.
  - symmetry. apply Permutation_inj.
    rewrite !length_insert. split; [done|].
    exists (λ n, if decide (n = i) then j else if decide (n = j) then i else n).
    split.
    + intros a b. repeat case_decide; congruence.
    + intros n. repeat case_decide; subst.
      * rewrite list_lookup_insert_eq; [done|].
        rewrite length_insert. by eapply lookup_lt_Some.
      * rewrite list_lookup_insert_ne by done.
        rewrite list_lookup_insert_eq; [done|]. by eapply lookup_lt_Some.
      * by rewrite !list_lookup_insert_ne.
Qed.

Lemma shuffle_loop_Permutation {A} rnd k i (arr : list A) :
  shuffle_loop rnd k i arr ≡ₚ arr.
Proof.
  revert k arr. induction i as [|i IH]; intros k arr; simpl; [done|].
  rewrite IH. apply swap_Permutation.
Qed.

Lemma shuffle_Permutation {A} rnd (arr : list A) : shuffle rnd arr ≡ₚ arr.
Proof. apply shuffle_loop_Permutation. Qed.

(** The loop of [shuffle] only swaps inside the array: [swap] never
    takes its second branch there. *)
Lemma swap_in_range {A} (u : Float01) (i : nat) (arr : list A) :
  (i < length arr)%nat →
  ∃ x y, arr !! i = Some x ∧ arr !! floor_mul u (i + 1) = Some y ∧
    swap i (floor_mul u (i + 1)) arr = <[floor_mul u (i + 1):=x]> (<[i:=y]> arr).
Proof.
  intros Hi. pose proof (floor_mul_lt u (i + 1) ltac:(lia)) as Hj.
  destruct (lookup_lt_is_Some_2 arr i Hi) as [x Hx].
  destruct (lookup_lt_is_Some_2 arr (floor_mul u (i + 1)) ltac:(lia)) as [y Hy].
  exists x, y. unfold swap. by rewrite Hx, Hy.
Qed.

Lemma deck_ok_Permutation (d d' : list Card) : d ≡ₚ d' → deck_ok d → deck_ok d'.
Proof.
  intros Hp (Hlen & Hcnt & Hall). split; [|split].
  - by rewrite <- Hp.
  - intros p Hlt. unfold count_pair. rewrite <- Hp. by apply Hcnt.
  - intros c Hc. apply Hall. by rewrite Hp.
Qed.

Lemma fresh_deck_ok : deck_ok (push_pairs 0 ANIMALS).
Proof.
  split; [reflexivity|split].
  - intros p Hlt.
    do 10 (destruct p as [|p]; [reflexivity|]). lia.
  - apply Forall_forall.
    apply (bool_decide_unpack _). vm_compute. exact I.
Qed.

Lemma new_deck_ok rnd : deck_ok (cards (createNewGameState rnd)).
Proof.
  unfold createNewGameState. cbn [cards].
  eapply deck_ok_Permutation; [|apply fresh_deck_ok].
  symmetry. apply shuffle_Permutation.
Qed.

(** C8. Deck creation yields 20 cards, every pair id of 0..9 twice, all
    face down and unmatched; [shuffle] returns a permutation of the array
    it is given, so the shuffled deck of a new room (at room creation and
    at rematch) has the same property. *)
Theorem deck_creation_invariant (rnd : Random) :
  deck_ok (push_pairs 0 ANIMALS) ∧
  (∀ arr : list Card, shuffle rnd arr ≡ₚ arr) ∧
  deck_ok (cards (createNewGameState rnd)) ∧
  (∀ room sid cb,
     match rematch room sid cb rnd with
     | (Some newGame, _) => deck_ok (cards newGame)
     | (None, _) => True
     end).
Proof.
  split; [apply fresh_deck_ok|]. split; [apply shuffle_Permutation|].
  split; [apply new_deck_ok|].
  intros room sid cb. unfold rematch. case_bool_decide; [done|].
  apply new_deck_ok.
Qed.

(** ** The helper functions *)

Lemma pauseTimer_fst r : (pauseTimer r).1 = stopped r.
Proof.
  unfold pauseTimer, stopped.
  destruct r as [? ? ? ? ? [rem run] ? ?]; by destruct run.
Qed.

Lemma startTimer_eq r : startTimer r = started r.
Proof.
  unfold startTimer, started.
  destruct r as [? ? ? ? ? [rem run] ? ?]; by destruct run.
Qed.

Lemma resumeTimer_eq r : resumeTimer r = started r.
Proof.
  unfold resumeTimer. rewrite startTimer_eq. unfold started.
  destruct r as [? ? ? ? ? [rem run] ? ?]; by destruct run.
Qed.

Lemma pauseTimer_out r :
  (pauseTimer r).2 = if running (timer r) then [ToRoom EvTimerPaused] else [].
Proof. unfold pauseTimer. by destruct (running (timer r)). Qed.

(** What [checkGameOver] can do to a room. *)
Lemma checkGameOver_Done r r' out :
  checkGameOver r = Done r' out →
  (r' = r ∧ out = [] ∧
     (gameOver r = true ∨
      (matches_or0 (players r !! 0%nat) + matches_or0 (players r !! 1%nat) ≠ 10
       ∧ 0 < remaining (timer r))))
  ∨ (gameOver r = false ∧
     ∃ p0 p1, players r !! 0%nat = Some p0 ∧ players r !! 1%nat = Some p1 ∧
       ((matches p0 + matches p1 = 10 ∧ r' = set_gameOver true (stopped r) ∧
         ∃ w, out = (pauseTimer r).2 ++ [ToRoom (EvGameOver w)])
        ∨ (matches p0 + matches p1 ≠ 10 ∧ remaining (timer r) ≤ 0 ∧
           r' = set_gameOver true r ∧ ∃ w, out = [ToRoom (EvGameOver w)]))).
Proof.
  unfold checkGameOver. intros H.
  destruct (gameOver r) eqn:Hg; [left; naive_solver|].
  destruct (_ =? 10) eqn:Ht.
  - apply Z.eqb_eq in Ht.
    destruct (pauseTimer r) as [r1 o1] eqn:Hp.
    pose proof (pauseTimer_fst r) as Hf. rewrite Hp in Hf. simpl in Hf. subst r1.
    destruct (players r !! 0%nat) as [p0|] eqn:H0; [|done].
    destruct (players r !! 1%nat) as [p1|] eqn:H1; [|done].
    simpl in Ht. simplify_eq. right. split; [done|]. exists p0, p1.
    split; [done|]. split; [done|]. left. eauto.
  - apply Z.eqb_neq in Ht.
    destruct (remaining (timer r) <=? 0) eqn:Hr.
    + apply Z.leb_le in Hr.
      destruct (players r !! 0%nat) as [p0|] eqn:H0; [|done].
      destruct (players r !! 1%nat) as [p1|] eqn:H1; [|done].
      simpl in Ht. right. split; [done|]. exists p0, p1.
      split; [done|]. split; [done|]. right.
      destruct (matches p0 =? matches p1) eqn:He.
      * simplify_eq. eauto.
      * apply Z.eqb_neq in He.
        destruct (matches p0 >? matches p1) eqn:Hgt; [simplify_eq; eauto|].
        destruct (matches p1 >? matches p0) eqn:Hgt'; [simplify_eq; eauto|].
        lia.
    + apply Z.leb_gt in Hr. simplify_eq. left. eauto.
Qed.

Lemma room_ok_stopped r : room_ok r → room_ok (stopped r).
Proof. intros (H1 & H2 & H3). split; [|split]; simpl; done. Qed.

Lemma checkGameOver_room_ok r r' out :
  checkGameOver r = Done r' out → room_ok r →
  room_ok r' ∧ (remaining (timer r') ≤ 0 → gameOver r' = true) ∧
  flipped r' = flipped r ∧ cards r' = cards r.
Proof.
  intros H Hok. apply checkGameOver_Done in H.
  destruct H as [(-> & _ & Hc)|(Hg & p0 & p1 & _ & _ & Hc)].
  - split; [done|]. split; [|done]. destruct Hc as [?|[_ ?]]; [done|lia].
  - destruct Hc as [(_ & -> & _)|(_ & Hr & -> & _)].
    + split; [|done]. apply room_ok_stopped in Hok.
      destruct Hok as (H1 & H2 & H3). split; [|split]; simpl in *; done.
    + split; [|done]. destruct Hok as (H1 & H2 & H3).
      split; [|split]; simpl in *; try done.
      intros _. destruct (running (timer r)); [|done]. lia.
Qed.

(** ** The handlers keep the room invariants *)

Lemma connection_ok r sid playerName :
  room_ok r → reg_ok r →
  let r' := (connection r sid playerName).1 in
  room_ok r' ∧ reg_ok r' ∧ flipped r' = flipped r ∧ cards r' = cards r.
Proof.
  intros (H1 & H2 & H3) Hreg. unfold connection. cbn [fst].
  set (r1 := if _ && _ then _ else r).
  assert (Hr1 : timer r1 = timer r ∧ gameOver r1 = gameOver r ∧
                flipped r1 = flipped r ∧ cards r1 = cards r).
  { subst r1. by destruct (_ && _). }
  destruct Hr1 as (Ht & Hg & Hf & Hc).
  assert (Hok1 : room_ok r1).
  { unfold room_ok, flipped_ok. by rewrite Ht, Hg, Hf, Hc. }
  destruct (bool_decide (length (players r1) = 2%nat)
            && negb (running (timer r1)) && negb (gameOver r1)) eqn:Hcond.
  - rewrite startTimer_eq.
    apply andb_prop in Hcond as [_ Hng]. apply negb_true_iff in Hng.
    unfold reg_ok in Hreg. rewrite <- Ht, <- Hg in Hreg.
    destruct Hok1 as (_ & _ & Hf1).
    split; [|split; [|by rewrite <- Hf, <- Hc]].
    + split; [|split]; simpl; [|congruence|done].
      intros _. destruct (decide (remaining (timer r1) ≤ 0)) as [Hle|]; [|lia].
      apply Hreg in Hle. congruence.
    + unfold reg_ok. simpl. done.
  - split; [done|]. split; [|done]. unfold reg_ok. by rewrite Ht, Hg.
Qed.

Lemma rematch_ok r sid cb rnd newGame out :
  rematch r sid cb rnd = (Some newGame, out) →
  room_ok newGame ∧ reg_ok newGame ∧ flipped newGame = [] ∧
  gameOver newGame = false.
Proof.
  unfold rematch. case_bool_decide; [done|]. intros [= <- _].
  rewrite startTimer_eq. unfold room_ok, reg_ok, flipped_ok. cbn.
  split_and!; try done; try lia. intros i Hi. by apply elem_of_nil in Hi.
Qed.

Lemma askQuestion_ok r sid text cb :
  let r' := (askQuestion r sid text cb).1 in
  flipped r' = flipped r ∧ cards r' = cards r ∧ timer r' = timer r ∧
  gameOver r' = gameOver r ∧ currentPlayer r' = currentPlayer r.
Proof. unfold askQuestion. by destruct (list_find _ _) as [[i p]|]. Qed.

Lemma answerQuestion_ok r sid text cb :
  room_ok r → reg_ok r →
  let r' := (answerQuestion r sid text cb).1 in
  room_ok r' ∧ reg_ok r' ∧ flipped r' = flipped r ∧ cards r' = cards r ∧
  gameOver r' = gameOver r.
Proof.
  intros (H1 & H2 & H3) Hreg. unfold answerQuestion. cbn [fst].
  cbn [gameOver log_unshift]. destruct (gameOver r) eqn:Hg; cbn [negb].
  - unfold room_ok, reg_ok, flipped_ok. cbn. rewrite Hg. done.
  - rewrite resumeTimer_eq. unfold room_ok, reg_ok, flipped_ok in *. cbn.
    rewrite Hg in *. split_and!; try done.
    intros _. destruct (decide (remaining (timer r) ≤ 0)) as [Hle|]; [|lia].
    by apply Hreg in Hle.
Qed.

Lemma disconnect_ok r sid r' deleted out :
  disconnect r sid = (r', deleted, out) → room_ok r → reg_ok r →
  room_ok r' ∧ reg_ok r' ∧ flipped r' = flipped r ∧ cards r' = cards r ∧
  remaining (timer r') = remaining (timer r) ∧
  (gameOver r = true → gameOver r' = true).
Proof.
  unfold disconnect. intros H (H1 & H2 & H3) Hreg.
  destruct (list_find _ _) as [[i p]|]; [|by simplify_eq].
  destruct (pauseTimer _) as [r2 o2] eqn:Hp.
  pose proof (pauseTimer_fst (log_unshift (LogInfo (name p +:+ " has disconnected."))
    (set_players (delete i (players r)) r))) as Hf.
  rewrite Hp in Hf. cbn [fst] in Hf. subst r2. simplify_eq.
  unfold room_ok, reg_ok, flipped_ok in *.
  case_bool_decide; cbn; split_and!; try done.
Qed.

(** ** Reading and writing [room.cards[idx]] *)

Lemma alter_at_lookup_eq f (i : nat) cs :
  alter_at f i cs !! i = f <$> cs !! i.
Proof. cbn. apply list_lookup_alter_eq. Qed.

Lemma alter_at_lookup_ne f (k : Key) cs (i : nat) :
  k ≠ KIndex i → alter_at f k cs !! i = cs !! i.
Proof.
  intros Hne. destruct k as [j|n]; cbn; [|done].
  apply list_lookup_alter_ne. congruence.
Qed.

Lemma length_alter_at f k cs : length (alter_at f k cs) = length cs.
Proof. destruct k; cbn; [apply length_alter|done]. Qed.

(** A write to [revealed] keeps what else is on a card. *)
Lemma alter_at_revealed b k cs (i : nat) c :
  cs !! i = Some c →
  ∃ c', alter_at (set_revealed b) k cs !! i = Some c' ∧
    pairId c' = pairId c ∧ animal c' = animal c ∧ emoji c' = emoji c ∧
    matched c' = matched c ∧
    (k = KIndex i → revealed c' = b) ∧ (k ≠ KIndex i → c' = c).
Proof.
  intros Hc. destruct (decide (k = KIndex i)) as [->|Hne].
  - exists (set_revealed b c). rewrite alter_at_lookup_eq, Hc. by split_and!.
  - exists c. rewrite alter_at_lookup_ne, Hc by done. by split_and!.
Qed.

Lemma card_at_index cs (i : nat) v :
  card_at cs i = Some v ↔ ∃ c, cs !! i = Some c ∧ v = VCard c.
Proof.
  cbn. destruct (cs !! i) as [c|]; cbn; split.
  - intros [= <-]. by exists c.
  - by intros (c' & [= <-] & ->).
  - done.
  - by intros (c' & [=] & _).
Qed.

Lemma card_at_name cs n v : card_at cs (KName n) = Some v ↔ v = VOther.
Proof. cbn. split; [by intros [= <-]|by intros ->]. Qed.

(** A write to a flag keeps the [pairId] and the [animal] that are
    read at any key. *)
Lemma card_at_alter_at f k cs k' v :
  (∀ c, pairId (f c) = pairId c ∧ animal (f c) = animal c) →
  card_at cs k' = Some v →
  ∃ v', card_at (alter_at f k cs) k' = Some v' ∧
    v_pairId v' = v_pairId v ∧ v_animal v' = v_animal v.
Proof.
  intros Hf Hv. destruct k' as [i|n].
  - apply card_at_index in Hv as (c & Hc & ->).
    destruct (decide (k = KIndex i)) as [->|Hne].
    + exists (VCard (f c)). cbn. rewrite list_lookup_alter_eq, Hc. cbn.
      destruct (Hf c) as [-> ->]. done.
    + exists (VCard c). cbn [card_at]. by rewrite alter_at_lookup_ne, Hc.
  - apply card_at_name in Hv as ->. by exists VOther.
Qed.

Lemma flipped_ok_alter r f k :
  (∀ c, matched (f c) = matched c) →
  flipped_ok r → flipped_ok (set_cards (alter_at f k (cards r)) r).
Proof.
  intros Hf Hok j Hj. destruct (Hok j Hj) as (c & Hc & Hm). cbn.
  destruct (decide (k = KIndex j)) as [->|Hne].
  - exists (f c). rewrite alter_at_lookup_eq, Hc. by rewrite Hf.
  - exists c. by rewrite alter_at_lookup_ne.
Qed.

Lemma flipBack_ok r idxA idxB :
  room_ok r →
  let r' := flipBack r idxA idxB in
  room_ok r' ∧ flipped r' = [] ∧ timer r' = timer r ∧ gameOver r' = gameOver r.
Proof.
  intros (H1 & H2 & H3). unfold flipBack, room_ok, flipped_ok.
  cbn [flipped timer gameOver log_unshift set_currentPlayer set_flipped set_cards].
  split_and!; try done. intros i Hi. by apply elem_of_nil in Hi.
Qed.

(** ** The flip handler, case by case *)

(** A flip that returns was refused, or revealed a first card, or
    revealed a second card that does not match (and scheduled the
    flip-back), or revealed a second card that matches. *)
Lemma flip_Done r sid idx cb r' s out :
  flip r sid idx cb = Done (r', s) out →
  (r' = r ∧ s = None ∧
     (out = [] ∨ out = ack cb sid (AckError "Not your turn."))) ∨
  (gameOver r = false ∧
   ∃ playerIndex card,
     findIndex sid (players r) = Some playerIndex ∧
     currentPlayer r = Z.of_nat playerIndex ∧
     card_at (cards r) idx = Some card ∧
     v_revealed card = false ∧ v_matched card = false ∧
     ((flipped r = [] ∧ r' = reveal idx r ∧ s = None ∧
       out = broadcastState (reveal idx r) ++ ack cb sid AckOk)
      ∨ (∃ idxA cardA cardB,
           flipped r = [idxA] ∧
           card_at (cards (reveal idx r)) idxA = Some cardA ∧
           card_at (cards (reveal idx r)) idx = Some cardB ∧
           ((v_pairId cardA ≠ v_pairId cardB ∧ r' = reveal idx r ∧
             s = Some (idxA, idx) ∧
             out = broadcastState (reveal idx r) ++ ack cb sid AckOk)
            ∨ (v_pairId cardA = v_pairId cardB ∧
               ∃ player0 out5,
                 players r !! playerIndex = Some player0 ∧
                 let room3 := stopped (award playerIndex idxA idx player0 cardA (reveal idx r)) in
                 checkGameOver room3 = Done r' out5 ∧ s = None ∧
                 out = (broadcastState (reveal idx r)
                        ++ (pauseTimer (award playerIndex idxA idx player0 cardA (reveal idx r))).2
                        ++ broadcastState room3
                        ++ [ToSocket (id player0) (EvAskQuestion (questionsLeft player0))])
                       ++ out5 ++ ack cb sid AckOk))))).
Proof.
  unfold flip. intros H.
  destruct (gameOver r) eqn:Hg; [simplify_eq; left; eauto|].
  destruct (findIndex sid (players r)) as [playerIndex|] eqn:Hfi;
    [|simplify_eq; left; eauto].
  destruct (currentPlayer r =? Z.of_nat playerIndex) eqn:Hcp; cbn [negb] in H;
    [|simplify_eq; left; eauto].
  apply Z.eqb_eq in Hcp.
  destruct (card_at (cards r) idx) as [card|] eqn:Hcard; [|simplify_eq; left; eauto].
  destruct (v_revealed card || v_matched card || (2 <=? length (flipped r))%nat) eqn:Hguard;
    [simplify_eq; left; eauto|].
  apply orb_false_elim in Hguard as [Hguard Hlen].
  apply orb_false_elim in Hguard as [Hrev Hmat].
  apply Nat.leb_gt in Hlen.
  fold (reveal idx r) in H.
  right. split; [done|]. exists playerIndex, card. split_and!; try done.
  destruct (flipped r) as [|idxA [|? ?]] eqn:Hfl; [| |simpl in Hlen; lia].
  - left. change (flipped (reveal idx r)) with (flipped r ++ [idx]) in H.
    rewrite Hfl in H. cbn [app] in H. by simplify_eq.
  - right. change (flipped (reveal idx r)) with (flipped r ++ [idx]) in H.
    rewrite Hfl in H. cbn [app] in H.
    destruct (card_at (cards (reveal idx r)) idxA) as [cardA|] eqn:HA; [|done].
    destruct (card_at (cards (reveal idx r)) idx) as [cardB|] eqn:HB; [|done].
    exists idxA, cardA, cardB. split_and!; try done.
    case_bool_decide as Hpair.
    + right. split; [done|].
      change (players (reveal idx r)) with (players r) in H.
      destruct (players r !! playerIndex) as [player0|] eqn:Hpl; [|done].
      match type of H with context [pauseTimer ?X] =>
        change X with (award playerIndex idxA idx player0 cardA (reveal idx r)) in H
      end.
      pose proof (pauseTimer_fst (award playerIndex idxA idx player0 cardA (reveal idx r))) as Hf.
      destruct (pauseTimer _) as [room3 out3] eqn:Hp.
      cbn [fst] in Hf. subst room3.
      destruct (checkGameOver _) as [room5 out5|out5] eqn:Hck; [|done].
      exists player0, out5. cbn [snd]. simplify_eq.
      split_and!; try done. by rewrite Hp.
    + left. by simplify_eq.
Qed.

(** The two keys of a second flip: they are different when the values
    do not match, and one of them is a card of the deck. *)
Lemma flip_second_keys r (idx idxA : Key) cardA cardB :
  card_at (cards (reveal idx r)) idxA = Some cardA →
  card_at (cards (reveal idx r)) idx = Some cardB →
  v_pairId cardA ≠ v_pairId cardB →
  idxA ≠ idx ∧ ((∃ i : nat, idxA = i) ∨ (∃ i : nat, idx = i)).
Proof.
  intros HA HB Hne. split; [intros ->; congruence|].
  destruct idxA as [i|n]; [left; by exists i|].
  destruct idx as [j|m]; [right; by exists j|].
  cbn in HA, HB. by simplify_eq.
Qed.

Lemma set_matched_id c : matched c = true → set_matched true c = c.
Proof. destruct c; simpl; by intros ->. Qed.

Lemma room_ok_reveal r idx card :
  card_at (cards r) idx = Some card → v_matched card = false →
  room_ok r → room_ok (reveal idx r).
Proof.
  intros Hc Hm (H1 & H2 & H3). split; [done|]. split; [done|].
  intros i Hi. cbn [reveal flipped set_flipped set_cards] in Hi.
  cbn [reveal cards set_flipped set_cards].
  assert (Hi' : ∃ c, cards r !! i = Some c ∧ matched c = false).
  { apply elem_of_app in Hi as [Hi|Hi]; [by apply H3|].
    apply list_elem_of_singleton in Hi as <-.
    apply card_at_index in Hc as (c & Hc & ->). by exists c. }
  destruct Hi' as (c & Hci & Hmi).
  destruct (alter_at_revealed true idx (cards r) i c Hci)
    as (c' & Hc' & _ & _ & _ & Hm' & _).
  exists c'. split; [done|congruence].
Qed.

Lemma room_ok_award playerIndex idxA idxB player0 cardA r :
  room_ok r → room_ok (award playerIndex idxA idxB player0 cardA r).
Proof.
  intros (H1 & H2 & H3). split; [done|]. split; [done|].
  intros i Hi. by apply elem_of_nil in Hi.
Qed.

Lemma flip_ok r sid idx cb r' s out :
  flip r sid idx cb = Done (r', s) out → room_ok r → reg_ok r →
  room_ok r' ∧ reg_ok r' ∧
  ((2 ≤ length (flipped r))%nat → r' = r ∧ s = None) ∧
  (∀ x y, s = Some (x, y) → flipped r' = [x; y] ∧ length (flipped r) = 1%nat).
Proof.
  intros H Hok Hreg. apply flip_Done in H.
  destruct H as [(-> & -> & _)|(Hg & pi & card & _ & _ & Hc & _ & Hm & Hcase)];
    [done|].
  assert (Hok1 : room_ok (reveal idx r)) by by eapply room_ok_reveal.
  assert (Hreg1 : reg_ok (reveal idx r)) by done.
  destruct Hcase as [(Hf & -> & -> & _)|(idxA & cardA & cardB & Hf & _ & _ & Hcase)].
  - split_and!; try done. rewrite Hf. simpl. lia.
  - destruct Hcase as [(_ & -> & -> & _)|(_ & p0 & out5 & _ & Hck & -> & _)].
    + split_and!; try done.
      * rewrite Hf. simpl. lia.
      * intros x y [= <- <-]. cbn. by rewrite Hf.
    + cbn zeta in Hck. apply checkGameOver_room_ok in Hck
        as (Hok' & Hreg' & _); [|by apply room_ok_stopped, room_ok_award].
      split_and!; try done. rewrite Hf. simpl. lia.
Qed.

Lemma flip_keeps_matched r sid idx cb r' s out (i : nat) c :
  flip r sid idx cb = Done (r', s) out →
  cards r !! i = Some c → matched c = true → cards r' !! i = Some c.
Proof.
  intros H Hi Hmc. apply flip_Done in H.
  destruct H as [(-> & _)|(Hg & pi & card & _ & _ & Hc & _ & Hm & Hcase)];
    [done|].
  assert (Hne : idx ≠ KIndex i).
  { intros ->. apply card_at_index in Hc as (c0 & Hc0 & ->). cbn in Hm. congruence. }
  assert (Hi1 : cards (reveal idx r) !! i = Some c).
  { cbn [reveal cards set_flipped set_cards]. by rewrite alter_at_lookup_ne. }
  destruct Hcase as [(_ & -> & _)|(idxA & cardA & cardB & _ & _ & _ & Hcase)];
    [done|].
  destruct Hcase as [(_ & -> & _)|(_ & p0 & out5 & _ & Hck & _)]; [done|].
  cbn zeta in Hck. apply checkGameOver_Done in Hck.
  assert (Hi2 : cards (stopped (award pi idxA idx p0 cardA (reveal idx r))) !! i = Some c).
  { cbn [stopped award reveal cards set_timer set_flipped log_unshift set_players
           set_cards].
    destruct (decide (idxA = KIndex i)) as [->|HneA].
    - rewrite alter_at_lookup_eq, !(alter_at_lookup_ne _ idx), Hi by done.
      cbn. by rewrite set_matched_id.
    - rewrite (alter_at_lookup_ne _ idxA) by done.
      by rewrite !(alter_at_lookup_ne _ idx), Hi by done. }
  destruct Hck as [(-> & _)|(_ & q0 & q1 & _ & _ & [(_ & -> & _)|(_ & _ & -> & _)])];
    done.
Qed.

(** ** The invariants hold in every reachable world *)

Lemma registered_Some w a r :
  registered w = Some (a, r) ↔ registry w = Some a ∧ heap w !! a = Some r.
Proof.
  unfold registered. destruct (registry w) as [a0|]; [|by split; [|intros []]].
  destruct (heap w !! a0) as [r0|] eqn:Hl.
  - split; [by intros [= <- <-]|]. intros [[= <-] ?]. congruence.
  - split; [done|]. intros [[= <-] ?]. congruence.
Qed.

Lemma registered_None w :
  heap_ok w → registered w = None → registry w = None.
Proof.
  intros Hok. unfold registered. destruct (registry w) as [a|] eqn:Hr; [|done].
  destruct (ho_registry w Hok a Hr) as [r ->]. done.
Qed.

(** Writing a room object that keeps its [flipped], or that no pending
    flip-back refers to. *)
Lemma update_heap_ok w a r r' reg' :
  heap_ok w → heap w !! a = Some r →
  room_ok r' →
  flipped r' = flipped r ∨ (∀ p, p ∈ timeouts w → pd_room p ≠ a) →
  reg' = None ∨ reg' = registry w →
  heap_ok (mkWorld (<[a:=r']> (heap w)) reg' (timeouts w)).
Proof.
  intros [H1 H2 H3 H4] Ha Hok Hf Hreg. split; cbn.
  - intros a0 r0 [(-> & <- & _)|(_ & ?)]%list_lookup_insert_Some; eauto.
  - intros a0 ->. destruct Hreg as [?|Hreg]; [done|]. symmetry in Hreg.
    destruct (H2 a0 Hreg) as [r0 Hr0].
    destruct (decide (a = a0)) as [->|Hne].
    + exists r'. rewrite list_lookup_insert_eq; [done|]. by eapply lookup_lt_Some.
    + exists r0. by rewrite list_lookup_insert_ne.
  - intros p Hp. destruct (H3 p Hp) as (r0 & Hr0 & Hfl). unfold pending_ok. cbn.
    destruct (decide (a = pd_room p)) as [->|Hne].
    + destruct Hf as [Hf|Hf]; [|by destruct (Hf p Hp)].
      exists r'. rewrite list_lookup_insert_eq by by eapply lookup_lt_Some.
      split; [done|]. congruence.
    + exists r0. by rewrite list_lookup_insert_ne.
  - done.
Qed.

Lemma update_world_ok w a r r' reg' :
  world_ok w → heap w !! a = Some r →
  room_ok r' →
  flipped r' = flipped r ∨ (∀ p, p ∈ timeouts w → pd_room p ≠ a) →
  reg' = None ∨ (reg' = registry w ∧ (registry w = Some a → reg_ok r')) →
  world_ok (mkWorld (<[a:=r']> (heap w)) reg' (timeouts w)).
Proof.
  intros [Hh Hr] Ha Hok Hf Hreg. split.
  - eapply update_heap_ok; [done..|]. destruct Hreg as [?|[? _]]; eauto.
  - intros a0 r0 [Hreg0 Hl]%registered_Some. cbn in *.
    destruct Hreg as [->|[-> Hreg]]; [done|].
    apply list_lookup_insert_Some in Hl as [(-> & <- & _)|(Hne & Hl)]; [eauto|].
    apply (Hr a0 r0). by apply registered_Some.
Qed.

Lemma alloc_world_ok w r' :
  world_ok w → room_ok r' → reg_ok r' →
  world_ok (mkWorld (heap w ++ [r']) (Some (length (heap w))) (timeouts w)).
Proof.
  intros [[H1 H2 H3 H4] Hr] Hok Hreg. split; [split|]; cbn.
  - intros a r [?|(_ & Hl)]%lookup_app_Some; [eauto|].
    apply list_lookup_singleton_Some in Hl as [_ <-]. done.
  - intros a [= <-]. exists r'. rewrite lookup_app_r by lia.
    by rewrite Nat.sub_diag.
  - intros p Hp. destruct (H3 p Hp) as (r0 & Hr0 & Hfl). exists r0. cbn.
    split; [|done]. by apply lookup_app_l_Some.
  - done.
  - intros a r [Ha Hl]%registered_Some. cbn in Ha, Hl. simplify_eq.
    rewrite lookup_app_r, Nat.sub_diag in Hl by lia. cbn in Hl. by simplify_eq.
Qed.

Lemma initial_ok : world_ok initial.
Proof.
  split; [split|]; cbn; try done.
  - intros p Hp. by apply elem_of_nil in Hp.
  - constructor.
Qed.

Lemma room_trans_ok r r' : room_trans r r' → room_ok r → room_ok r'.
Proof.
  intros Ht Hok.
  destruct Ht as [r|r sid n Hreg|r sid idx cb r' s out Hreg Hfl|r sid text cb
    |r sid text cb Hreg|r sid Hreg|r Hrun Hrem|r Hrun Hrem
    |r r' out Hrun Hrem Hck|r r' out Hck|r x y Hfl].
  - done.
  - by apply connection_ok.
  - by eapply flip_ok.
  - pose proof (askQuestion_ok r sid text cb) as (Hf & Hc & Htm & Hg & _).
    cbn zeta in *. destruct Hok as (H1 & H2 & H3).
    unfold room_ok, flipped_ok. by rewrite Hf, Hc, Htm, Hg.
  - by apply answerQuestion_ok.
  - destruct (disconnect r sid) as [[r' d] o] eqn:Hd.
    by eapply disconnect_ok.
  - destruct Hok as (H1 & H2 & H3). split; [|split]; cbn; try done.
    intros Hg. apply H2 in Hg. congruence.
  - destruct Hok as (H1 & H2 & H3). split; [|split]; cbn; done.
  - eapply checkGameOver_room_ok; [done|].
    destruct Hok as (H1 & H2 & H3). split; [|split]; cbn; done.
  - by eapply checkGameOver_room_ok.
  - by apply flipBack_ok.
Qed.

Lemma createNewGameState_ok rnd :
  room_ok (createNewGameState rnd) ∧ reg_ok (createNewGameState rnd).
Proof.
  unfold createNewGameState, room_ok, reg_ok, flipped_ok. cbn.
  split_and!; try done; try lia. intros i Hi. by apply elem_of_nil in Hi.
Qed.

Lemma rooms_trans_refl w : rooms_trans w w.
Proof. intros a r Ha. exists r. split; [done|constructor]. Qed.

Lemma rooms_trans_insert w a r r' reg' tm' :
  heap w !! a = Some r → room_trans r r' →
  rooms_trans w (mkWorld (<[a:=r']> (heap w)) reg' tm').
Proof.
  intros Ha Ht a0 r0 Ha0. cbn. destruct (decide (a = a0)) as [->|Hne].
  - exists r'. rewrite list_lookup_insert_eq by by eapply lookup_lt_Some.
    by simplify_eq.
  - exists r0. rewrite list_lookup_insert_ne by done. split; [done|constructor].
Qed.

Lemma rooms_trans_alloc w r' reg' tm' :
  rooms_trans w (mkWorld (heap w ++ [r']) reg' tm').
Proof.
  intros a r Ha. exists r. cbn. split; [|constructor].
  by apply lookup_app_l_Some.
Qed.

Lemma pending_room_flipped w p r :
  heap_ok w → p ∈ timeouts w → heap w !! pd_room p = Some r →
  flipped r = [pd_idxA p; pd_idxB p].
Proof.
  intros Hok Hp Hr. destruct (ho_pending w Hok p Hp) as (r0 & Hr0 & Hf).
  congruence.
Qed.

Lemma checkGameOver_id_sound w w' out :
  heap_ok w → checkGameOver_id w = Done w' out →
  world_ok w' ∧ timeouts w' = timeouts w ∧ registry w' = registry w ∧
  ((w' = w ∧ out = [] ∧ registry w = None) ∨
   ∃ a r r', registry w = Some a ∧ heap w !! a = Some r ∧
     checkGameOver r = Done r' out ∧ w' = store a r' w).
Proof.
  intros Hok. unfold checkGameOver_id, on_registered.
  destruct (registered w) as [[a r]|] eqn:Hreg.
  - apply registered_Some in Hreg as [Hra Hl].
    destruct (checkGameOver r) as [r' o|o] eqn:Hck; [|done].
    intros [= <- <-].
    pose proof (checkGameOver_room_ok _ _ _ Hck (ho_rooms w Hok a r Hl))
      as (Hok' & Hreg' & Hf & _).
    split_and!; try done.
    + split.
      * eapply update_heap_ok; eauto.
      * intros a0 r0 [Ha0 Hl0]%registered_Some. cbn in *.
        assert (a0 = a) as -> by congruence.
        rewrite list_lookup_insert_eq in Hl0 by by eapply lookup_lt_Some.
        by simplify_eq.
    + right. by exists a, r, r'.
  - intros [= <- <-]. pose proof (registered_None w Hok Hreg) as Hnone.
    split_and!; try done; [|by left].
    split; [done|]. intros a r Hr. congruence.
Qed.

Lemma NoDup_fmap_delete {A B} (f : A → B) (l : list A) k x :
  NoDup (f <$> l) → l !! k = Some x →
  NoDup (f <$> delete k l) ∧ ∀ y, y ∈ delete k l → y ∈ l ∧ f y ≠ f x.
Proof.
  intros Hnd Hk.
  rewrite <- (take_drop_middle l k x Hk) in Hnd.
  rewrite delete_take_drop.
  rewrite fmap_app, fmap_cons in Hnd.
  apply NoDup_app in Hnd as (Hn1 & Hn2 & Hn3).
  apply NoDup_cons in Hn3 as [Hx Hn3].
  split.
  - rewrite fmap_app. apply NoDup_app. split_and!; try done.
    intros b Hb Hb'. apply (Hn2 b Hb). by right.
  - intros y Hy. split.
    + rewrite <- (take_drop_middle l k x Hk).
      apply elem_of_app in Hy as [?|?]; apply elem_of_app; [by left|].
      right. by right.
    + intros Heq. apply elem_of_app in Hy as [Hy|Hy].
      * apply (Hn2 (f y)); [by apply list_elem_of_fmap_2|]. rewrite Heq. by left.
      * apply Hx. rewrite <- Heq. by apply list_elem_of_fmap_2.
Qed.

Lemma fire_sound w k w' out :
  world_ok w → fire w k = Done w' out → world_ok w' ∧ rooms_trans w w'.
Proof.
  intros [Hok Hreg]. unfold fire.
  destruct (timeouts w !! k) as [p|] eqn:Hk;
    [|intros [= <- <-]; split; [done|apply rooms_trans_refl]].
  destruct (heap w !! pd_room p) as [r|] eqn:Hr;
    [|intros [= <- <-]; split; [done|apply rooms_trans_refl]].
  intros [= <- <-].
  assert (Hp : p ∈ timeouts w) by by eapply list_elem_of_lookup_2.
  pose proof (pending_room_flipped w p r Hok Hp Hr) as Hfl.
  pose proof (flipBack_ok r (pd_idxA p) (pd_idxB p) (ho_rooms w Hok _ _ Hr))
    as (Hok' & Hf' & Ht' & Hg').
  destruct (NoDup_fmap_delete pd_room _ k p (ho_nodup w Hok) Hk) as [Hnd Hdel].
  split; [|by eapply rooms_trans_insert; [|apply rt_flipBack]].
  destruct Hok as [H1 H2 H3 H4].
  split; [split|]; cbn.
  - intros a0 r0 [(_ & <- & _)|(_ & ?)]%list_lookup_insert_Some; eauto.
  - intros a0 Ha0. destruct (H2 a0 Ha0) as [r0 Hr0].
    destruct (decide (pd_room p = a0)) as [<-|Hne].
    + eexists. rewrite list_lookup_insert_eq; [done|]. by eapply lookup_lt_Some.
    + exists r0. by rewrite list_lookup_insert_ne.
  - intros q Hq. destruct (Hdel q Hq) as [Hq' Hne].
    destruct (H3 q Hq') as (r0 & Hr0 & Hfl0). exists r0. cbn.
    by rewrite list_lookup_insert_ne.
  - done.
  - intros a0 r0 [Ha0 Hl0]%registered_Some. cbn in *.
    apply list_lookup_insert_Some in Hl0 as [(Heq & <- & _)|(Hne & Hl0)].
    + assert (Hr0 : reg_ok r).
      { apply (Hreg (pd_room p) r), registered_Some. split; [congruence|done]. }
      exact Hr0.
    + apply (Hreg a0 r0). by apply registered_Some.
Qed.

Lemma tick_sound w a w' out :
  world_ok w → tick w a = Done w' out →
  world_ok w' ∧ rooms_trans w w' ∧
  timeouts w' = timeouts w ∧ registry w' = registry w.
Proof.
  intros [Hok Hreg]. unfold tick.
  destruct (heap w !! a) as [r|] eqn:Hr;
    [|intros [= <- <-]; split_and!; try done; apply rooms_trans_refl].
  destruct (running (timer r)) eqn:Hrun; cbn [negb];
    [|intros [= <- <-]; split_and!; try done; apply rooms_trans_refl].
  pose proof (ho_rooms w Hok a r Hr) as Hrok.
  destruct (remaining (timer r) - 1 <=? 0) eqn:Hle.
  - apply Z.leb_le in Hle. fold (expired r).
    assert (Hok1 : heap_ok (store a (expired r) w)).
    { eapply update_heap_ok; eauto.
      eapply room_trans_ok; [by apply rt_expire|done]. }
    destruct (checkGameOver_id (store a (expired r) w)) as [w2 out3|] eqn:Hck;
      [|done].
    intros [= <- <-].
    destruct (checkGameOver_id_sound _ w2 out3 Hok1 Hck) as (Hok2 & Htm & Hrg & Hcase).
    split; [done|]. split; [|done].
    destruct Hcase as [(-> & _ & _)|(a1 & r1 & r1' & Ha1 & Hl1 & Hck1 & ->)].
    + eapply rooms_trans_insert; [done|by apply rt_expire].
    + intros a0 r0 Ha0. cbn in *.
      destruct (decide (a1 = a)) as [->|Hne].
      * rewrite list_lookup_insert_eq in Hl1 by by eapply lookup_lt_Some.
        simplify_eq. rewrite list_insert_insert_eq.
        destruct (decide (a = a0)) as [->|Hne0].
        -- exists r1'. rewrite list_lookup_insert_eq by by eapply lookup_lt_Some.
           simplify_eq. split; [done|]. by eapply rt_expire_check.
        -- exists r0. rewrite list_lookup_insert_ne by done.
           split; [done|constructor].
      * rewrite list_lookup_insert_ne in Hl1 by done.
        destruct (decide (a1 = a0)) as [->|Hne1].
        -- exists r1'. rewrite list_lookup_insert_eq
             by (rewrite length_insert; by eapply lookup_lt_Some).
           simplify_eq. split; [done|]. by eapply rt_check.
        -- rewrite list_lookup_insert_ne by done.
           destruct (decide (a = a0)) as [->|Hne0].
           ++ exists (expired r). rewrite list_lookup_insert_eq by by eapply lookup_lt_Some.
              simplify_eq. split; [done|]. by apply rt_expire.
           ++ exists r0. rewrite list_lookup_insert_ne by done.
              split; [done|constructor].
  - apply Z.leb_gt in Hle. fold (ticked r). intros [= <- <-].
    assert (Htr : room_trans r (ticked r)) by by apply rt_tick.
    split_and!; try done; [|by eapply rooms_trans_insert].
    eapply update_world_ok; eauto using room_trans_ok; [done|].
    right. split; [done|]. intros _. unfold reg_ok. cbn. lia.
Qed.

Lemma flip_sound w sid idx cb w' out :
  world_ok w → step w (InFlip sid idx cb) = Done w' out →
  world_ok w' ∧ rooms_trans w w'.
Proof.
  intros Hw. pose proof Hw as [Hok Hreg]. cbn. unfold on_registered.
  destruct (registered w) as [[a r]|] eqn:Hr;
    [|intros [= <- <-]; split; [done|apply rooms_trans_refl]].
  destruct (flip r sid idx cb) as [[r' s] o|o] eqn:Hfl; [|done].
  intros [= <- <-].
  pose proof Hr as Hr'. apply registered_Some in Hr' as [Hra Hl].
  pose proof (ho_rooms w Hok a r Hl) as Hrok.
  pose proof (Hreg a r Hr) as Hrreg.
  destruct (flip_ok _ _ _ _ _ _ _ Hfl Hrok Hrreg) as (Hok' & Hreg' & Hfull & Hsched).
  split; [|eapply rooms_trans_insert; [done|by eapply rt_flip]].
  destruct (decide (2 ≤ length (flipped r))%nat) as [Hlen|Hlen].
  - destruct (Hfull Hlen) as [-> ->]. cbn. rewrite app_nil_r.
    eapply update_world_ok; eauto.
  - assert (Hfree : ∀ p, p ∈ timeouts w → pd_room p ≠ a).
    { intros p Hp Heq. apply Hlen. rewrite <- Heq in Hl.
      rewrite (pending_room_flipped w p r Hok Hp Hl). simpl. lia. }
    assert (Hw1 : world_ok (mkWorld (<[a:=r']> (heap w)) (registry w) (timeouts w))).
    { eapply update_world_ok; eauto. }
    destruct s as [[x y]|]; cbn; [|by rewrite app_nil_r].
    destruct (Hsched x y eq_refl) as [Hf' _].
    destruct Hw1 as [[H1 H2 H3 H4] Hreg1]. split; [split|]; cbn in *; try done.
    + intros p [Hp|Hp]%elem_of_app; [by apply H3|].
      apply list_elem_of_singleton in Hp as ->. exists r'. cbn.
      rewrite list_lookup_insert_eq by by eapply lookup_lt_Some. done.
    + rewrite fmap_app. apply NoDup_app. split_and!; try done.
      * intros b (p & -> & Hp)%list_elem_of_fmap Hb.
        apply list_elem_of_singleton in Hb. by apply (Hfree p).
      * apply NoDup_singleton.
Qed.

(** One step keeps the invariants, and moves every room object by one
    [room_trans]. *)
Lemma step_sound w i w' out :
  world_ok w → step w i = Done w' out → world_ok w' ∧ rooms_trans w w'.
Proof.
  intros Hw. pose proof Hw as [Hok Hreg].
  destruct i as [sid pn rnd|sid cb rnd|sid idx cb|sid text cb|sid text cb|sid|a|k|sid ev].
  - cbn [step]. destruct (registered w) as [[a r]|] eqn:Hr.
    + pose proof Hr as [Hra Hl]%registered_Some.
      pose proof (connection_ok r sid pn (ho_rooms w Hok a r Hl) (Hreg a r Hr))
        as (H1 & H2 & H3 & H4).
      pose proof (rt_connection r sid pn (Hreg a r Hr)) as Htr.
      destruct (connection r sid pn) as [r' o]. intros [= <- <-]. cbn in *. unfold store.
      split; [|by eapply rooms_trans_insert].
      eapply update_world_ok; eauto.
    + destruct (createNewGameState_ok rnd) as [Hn1 Hn2].
      pose proof (connection_ok _ sid pn Hn1 Hn2) as (H1 & H2 & H3 & H4).
      destruct (connection (createNewGameState rnd) sid pn) as [r' o].
      intros [= <- <-]. split; [|apply rooms_trans_alloc].
      by apply alloc_world_ok.
  - cbn [step]. destruct (registered w) as [[a r]|] eqn:Hr;
      [|intros [= <- <-]; split; [done|apply rooms_trans_refl]].
    destruct (rematch r sid cb rnd) as [[newGame|] o] eqn:Hrm;
      [|intros [= <- <-]; split; [done|apply rooms_trans_refl]].
    intros [= <- <-]. apply rematch_ok in Hrm as (H1 & H2 & _).
    split; [|apply rooms_trans_alloc]. by apply alloc_world_ok.
  - by apply flip_sound.
  - cbn [step]. unfold on_registered. destruct (registered w) as [[a r]|] eqn:Hr;
      [|intros [= <- <-]; split; [done|apply rooms_trans_refl]].
    pose proof Hr as [Hra Hl]%registered_Some.
    pose proof (askQuestion_ok r sid text cb) as (Hf & Hc & Htm & Hg & _).
    pose proof (rt_ask r sid text cb) as Htr.
    pose proof (Hreg a r Hr) as Hrreg.
    destruct (askQuestion r sid text cb) as [r' o]. intros [= <- <-]. cbn in *. unfold store.
    split; [|by eapply rooms_trans_insert].
    eapply (update_world_ok w a r r');
      [done|done|eapply room_trans_ok; [exact Htr|by eapply ho_rooms]|by left|].
    right. split; [done|]. intros _. unfold reg_ok in *. by rewrite Htm, Hg.
  - cbn [step]. unfold on_registered. destruct (registered w) as [[a r]|] eqn:Hr;
      [|intros [= <- <-]; split; [done|apply rooms_trans_refl]].
    pose proof Hr as [Hra Hl]%registered_Some.
    pose proof (answerQuestion_ok r sid text cb (ho_rooms w Hok a r Hl) (Hreg a r Hr))
      as (H1 & H2 & H3 & H4 & _).
    pose proof (rt_answer r sid text cb (Hreg a r Hr)) as Htr.
    destruct (answerQuestion r sid text cb) as [r' o]. intros [= <- <-]. cbn in *. unfold store.
    split; [|by eapply rooms_trans_insert].
    eapply update_world_ok; eauto.
  - cbn [step]. unfold on_registered. destruct (registered w) as [[a r]|] eqn:Hr;
      [|intros [= <- <-]; split; [done|apply rooms_trans_refl]].
    pose proof Hr as [Hra Hl]%registered_Some.
    pose proof (rt_disconnect r sid (Hreg a r Hr)) as Htr.
    destruct (disconnect r sid) as [[r' d] o] eqn:Hd. intros [= <- <-].
    apply disconnect_ok in Hd as (H1 & H2 & H3 & _);
      [|by eapply ho_rooms|by apply (Hreg a r)].
    split; [|by eapply rooms_trans_insert].
    eapply (update_world_ok w a r r'); [done|done|done|by left|].
    destruct d; eauto.
  - cbn. intros Ht. by apply tick_sound in Ht as (? & ? & _).
  - cbn. by apply fire_sound.
  - done.
Qed.

Lemma reachable_ok w : reachable w → world_ok w.
Proof.
  induction 1 as [|w i w' out _ IH Hstep]; [apply initial_ok|].
  by apply (step_sound w i w' out).
Qed.

(** ** What a step cannot undo *)

Lemma checkGameOver_frame r r' out :
  checkGameOver r = Done r' out →
  cards r' = cards r ∧ flipped r' = flipped r ∧ players r' = players r ∧
  log r' = log r ∧ currentPlayer r' = currentPlayer r ∧
  remaining (timer r') = remaining (timer r) ∧
  (gameOver r = true → r' = r ∧ out = []).
Proof.
  intros H. apply checkGameOver_Done in H.
  destruct H as [(-> & -> & _)|(Hg & p0 & p1 & _ & _ & Hc)]; [done|].
  destruct Hc as [(_ & -> & _)|(_ & _ & -> & _)]; cbn; split_and!; congruence.
Qed.

Lemma timer_stopped_id t : running t = false → mkTimer (remaining t) false = t.
Proof. destruct t; cbn. by intros ->. Qed.

Lemma room_trans_matched r r' (i : nat) c :
  room_trans r r' → room_ok r →
  cards r !! i = Some c → matched c = true → cards r' !! i = Some c.
Proof.
  intros Ht Hok Hi Hm.
  destruct Ht as [r|r sid n Hreg|r sid idx cb r' s out Hreg Hfl|r sid text cb
    |r sid text cb Hreg|r sid Hreg|r Hrun Hrem|r Hrun Hrem
    |r r' out Hrun Hrem Hck|r r' out Hck|r x y Hfl]; try done.
  - pose proof (connection_ok r sid n Hok Hreg) as Hc. cbn zeta in Hc.
    destruct Hc as (_ & _ & _ & ->). done.
  - by eapply flip_keeps_matched.
  - pose proof (askQuestion_ok r sid text cb) as Hc. cbn zeta in Hc.
    destruct Hc as (_ & -> & _). done.
  - pose proof (answerQuestion_ok r sid text cb Hok Hreg) as Hc. cbn zeta in Hc.
    destruct Hc as (_ & _ & _ & -> & _). done.
  - destruct (disconnect r sid) as [[r' d] o] eqn:Hd. cbn [fst].
    apply disconnect_ok in Hd as (_ & _ & _ & -> & _); done.
  - apply checkGameOver_frame in Hck as (-> & _). done.
  - apply checkGameOver_frame in Hck as (-> & _). done.
  - destruct Hok as (_ & _ & Hf). unfold flipBack. cbn.
    assert (x ≠ KIndex i ∧ y ≠ KIndex i) as [Hx Hy].
    { split; intros ->.
      - destruct (Hf i) as (c' & Hc' & Hm'); [rewrite Hfl; by left|congruence].
      - destruct (Hf i) as (c' & Hc' & Hm'); [rewrite Hfl; right; by left|congruence]. }
    by rewrite !alter_at_lookup_ne.
Qed.


Lemma flip_matched_rejected r sid (idx : nat) cb c :
  cards r !! idx = Some c → matched c = true →
  ∃ out, flip r sid idx cb = Done (r, None) out ∧
    (out = [] ∨ out = ack cb sid (AckError "Not your turn.")).
Proof.
  intros Hc Hm. unfold flip.
  destruct (gameOver r); [eauto|].
  destruct (findIndex sid (players r)) as [pi|]; [|eauto].
  destruct (negb _); [eauto|].
  cbn [card_at]. rewrite Hc. cbn. rewrite Hm, orb_true_r. cbn. eauto.
Qed.


Lemma flip_full_rejected r sid idx cb :
  (2 ≤ length (flipped r))%nat →
  ∃ out, flip r sid idx cb = Done (r, None) out ∧
    (out = [] ∨ out = ack cb sid (AckError "Not your turn.")).
Proof.
  intros Hlen. unfold flip.
  destruct (gameOver r); [eauto|].
  destruct (findIndex sid (players r)) as [pi|]; [|eauto].
  destruct (negb _); [eauto|].
  destruct (card_at (cards r) idx) as [c|]; [|eauto].
  apply Nat.leb_le in Hlen. rewrite Hlen, orb_true_r. eauto.
Qed.

Lemma run_reachable w inputs w' :
  reachable w → run w inputs = Some w' → reachable w'.
Proof.
  revert w. induction inputs as [|i rest IH]; intros w Hw; cbn.
  - by intros [= <-].
  - destruct (step w i) as [w1 o|o] eqn:Hs; [|done].
    apply IH. by eapply reachable_step.
Qed.

(** ** The sample runs *)

Lemma run_from_initial_reachable inputs w :
  run initial inputs = Some w → reachable (run_from_initial inputs).
Proof.
  intros H. unfold run_from_initial. rewrite H. cbn.
  eapply run_reachable; [constructor|exact H].
Qed.

Lemma world_two_reachable : reachable world_two.
Proof. apply (run_from_initial_reachable two_join world_two). by vm_compute. Qed.

Lemma world_one_up_reachable : reachable world_one_up.
Proof.
  apply (run_from_initial_reachable (two_join ++ [InFlip "A" 1 true]) world_one_up).
  by vm_compute.
Qed.

Lemma world_pair_reachable : reachable world_pair.
Proof.
  apply (run_from_initial_reachable
           (two_join ++ [InFlip "A" 1 true; InFlip "A" 2 true]) world_pair).
  by vm_compute.
Qed.

Lemma world_miss_reachable : reachable world_miss.
Proof.
  apply (run_from_initial_reachable
           (two_join ++ [InFlip "A" 1 true; InFlip "A" 3 true]) world_miss).
  by vm_compute.
Qed.


Lemma world_nineteen_reachable : reachable world_nineteen.
Proof.
  apply (run_from_initial_reachable (two_join ++ nineteen_flips "A") world_nineteen).
  by vm_compute.
Qed.

Lemma world_lone_reachable : reachable world_lone.
Proof.
  apply (run_from_initial_reachable lone_nineteen world_lone). by vm_compute.
Qed.

Lemma world_lone_clock_reachable : reachable world_lone_clock.
Proof.
  apply (run_from_initial_reachable lone_clock world_lone_clock). by vm_compute.
Qed.

Lemma world_asked5_reachable : reachable world_asked5.
Proof.
  apply (run_from_initial_reachable (two_join ++ five_questions) world_asked5).
  by vm_compute.
Qed.

(** ** The question/answer gate *)

Lemma askQuestion_not_player room sid text cb :
  find_player sid (players room) = None →
  askQuestion room sid text cb = (room, []).
Proof.
  unfold find_player, askQuestion.
  by destruct (list_find _ _) as [[i p]|].
Qed.

(** A player who asks: [asked] goes up by one, a question entry is put
    in front of the log, the ['questionForAnswer'] event goes to the
    opponent's socket only. The allowance is not looked at. *)
Lemma askQuestion_player room sid text cb i p :
  list_find (λ p, id p = sid) (players room) = Some (i, p) →
  let room' := (askQuestion room sid text cb).1 in
  players room' = <[i:=set_asked (asked p + 1) p]> (players room) ∧
  log room' = LogQ (name p) text :: log room ∧
  (askQuestion room sid text cb).2 =
    match find_opponent sid (players room') with
    | Some opponent => [ToSocket (id opponent) (EvQuestionForAnswer (name p) text)]
    | None => []
    end ++ broadcastState room' ++ ack cb sid AckOk.
Proof. intros H. unfold askQuestion. rewrite H. done. Qed.

(** The previous revision refuses a player without questions left and
    leaves the room as it is. *)
Lemma previous_askQuestion_guard room sid text cb i p :
  list_find (λ p, id p = sid) (players room) = Some (i, p) →
  questionsLeft p ≤ 0 →
  PreviousRevision.askQuestion room sid text cb =
    (room, ack cb sid (AckError "No questions left or invalid player.")).
Proof.
  intros H Hq. unfold PreviousRevision.askQuestion. rewrite H.
  apply Z.leb_le in Hq. by rewrite Hq.
Qed.

(** In the previous revision no call takes [questionsLeft] of a player
    below zero. *)
Lemma previous_askQuestion_keeps_allowance room sid text cb :
  Forall (λ p, 0 ≤ questionsLeft p) (players room) →
  Forall (λ p, 0 ≤ questionsLeft p)
    (players (PreviousRevision.askQuestion room sid text cb).1).
Proof.
  intros Hall. unfold PreviousRevision.askQuestion.
  destruct (list_find _ _) as [[i p]|] eqn:Hf; [|done].
  destruct (questionsLeft p <=? 0) eqn:Hq; [done|]. apply Z.leb_gt in Hq.
  cbn. apply Forall_insert; [done|]. unfold questionsLeft in *. cbn. lia.
Qed.

(** C1. Ann has asked her five questions ([questionsLeft] = 0) and asks
    a sixth: the call is served like the others, her [asked] counter goes
    to 6 and [questionsLeft] to -1; the question reaches Bob and the
    log. The state is one that the server reaches from its start. *)
Theorem askQuestion_ignores_allowance :
  reachable world_asked5 ∧
  registered world_asked5 = Some (0%nat, room_asked5) ∧
  (questionsLeft <$> players room_asked5) = [0; 5] ∧
  let '(room', out) := askQuestion room_asked5 "A" "q6" true in
  room' ≠ room_asked5 ∧
  (asked <$> players room') = [6; 0] ∧
  (questionsLeft <$> players room') = [-1; 5] ∧
  log room' = LogQ "Ann" "q6" :: log room_asked5 ∧
  out = [ToSocket "B" (EvQuestionForAnswer "Ann" "q6")]
          ++ broadcastState room' ++ [Ack "A" AckOk].
Proof.
  split; [apply world_asked5_reachable|].
  split; [reflexivity|]. split; [reflexivity|].
  vm_compute. split_and!; try reflexivity. discriminate.
Qed.

Lemma answerQuestion_eq room sid text cb :
  let by_name := from_option name "Unknown" (find_player sid (players room)) in
  let room' := (answerQuestion room sid text cb).1 in
  (answerQuestion room sid text cb).2 =
    [ToRoom (EvQuestionAnswered by_name text)] ++ broadcastState room'
      ++ ack cb sid AckOk ∧
  log room' = LogA by_name text :: log room ∧
  cards room' = cards room ∧ players room' = players room ∧
  flipped room' = flipped room ∧ currentPlayer room' = currentPlayer room ∧
  gameOver room' = gameOver room ∧
  remaining (timer room') = remaining (timer room) ∧
  (gameOver room = false → running (timer room') = true) ∧
  (gameOver room = true → timer room' = timer room).
Proof.
  unfold answerQuestion. cbn. destruct (gameOver room) eqn:Hg; cbn.
  - split_and!; done.
  - rewrite resumeTimer_eq. cbn. split_and!; done.
Qed.

Lemma step_answerQuestion w a room sid text cb :
  registered w = Some (a, room) →
  step w (InAnswerQuestion sid text cb) =
    Done (store a (answerQuestion room sid text cb).1 w)
      (answerQuestion room sid text cb).2.
Proof.
  intros Hreg. cbn [step]. unfold on_registered. rewrite Hreg.
  by destruct (answerQuestion room sid text cb).
Qed.

(** C9. A player answers: an answer entry is put in front of the log,
    ['questionAnswered'] and the state go to the whole room, and
    afterwards the timer runs if and only if the game is not over. *)
Theorem answerQuestion_by_player w a room sid text cb p :
  reachable w → registered w = Some (a, room) →
  find_player sid (players room) = Some p →
  ∃ room',
    step w (InAnswerQuestion sid text cb) =
      Done (store a room' w)
        ([ToRoom (EvQuestionAnswered (name p) text)] ++ broadcastState room'
           ++ ack cb sid AckOk) ∧
    log room' = LogA (name p) text :: log room ∧
    cards room' = cards room ∧ players room' = players room ∧
    flipped room' = flipped room ∧ currentPlayer room' = currentPlayer room ∧
    gameOver room' = gameOver room ∧
    remaining (timer room') = remaining (timer room) ∧
    (running (timer room') = true ↔ gameOver room = false).
Proof.
  intros Hw Hreg Hp. exists (answerQuestion room sid text cb).1.
  pose proof (answerQuestion_eq room sid text cb) as Heq. cbn zeta in Heq.
  rewrite Hp in Heq. cbn [from_option] in Heq.
  destruct Heq as (Hout & Hlog & Hc & Hpl & Hf & Hcp & Hg & Hrem & Hrun & Hstop).
  rewrite (step_answerQuestion w a room) by done. rewrite Hout.
  split_and!; try done.
  split; [|done]. intros Hr.
  destruct (gameOver room) eqn:Hgo; [|done].
  apply reachable_ok in Hw as [Hok _].
  apply registered_Some in Hreg as [_ Hl].
  destruct (ho_rooms w Hok a room Hl) as (_ & Hover & _).
  rewrite Hstop, Hover in Hr; done.
Qed.

Lemma answerQuestion_by_player_witness :
  ∃ room',
    heap (store 0 room' world_pair) !! 0%nat = Some room' ∧
    log room' = LogA "Bob" "yes" :: log room_pair ∧
    running (timer room_pair) = false ∧ running (timer room') = true.
Proof.
  destruct (answerQuestion_by_player world_pair 0 room_pair "B" "yes" true
              (mkPlayer "B" "Bob" 0 0 0 0))
    as (room' & Hstep & Hlog & _ & _ & _ & _ & _ & _ & Hrun).
  - exact world_pair_reachable.
  - reflexivity.
  - reflexivity.
  - exists room'. split; [|split; [exact Hlog|split; [reflexivity|]]].
    + injection Hstep as Hw _. rewrite <- Hw. reflexivity.
    + apply Hrun. reflexivity.
Defined.

(** C10. A session that is not a player answers: the call is served
    all the same, under the name 'Unknown'. The log grows, the event goes
    to the whole room, and the timer runs afterwards when the game is not
    over. *)
Theorem answerQuestion_by_outsider w a room sid text cb :
  registered w = Some (a, room) →
  find_player sid (players room) = None →
  ∃ room',
    step w (InAnswerQuestion sid text cb) =
      Done (store a room' w)
        ([ToRoom (EvQuestionAnswered "Unknown" text)] ++ broadcastState room'
           ++ ack cb sid AckOk) ∧
    log room' = LogA "Unknown" text :: log room ∧
    room' ≠ room ∧
    (gameOver room = false → running (timer room') = true).
Proof.
  intros Hreg Hp. exists (answerQuestion room sid text cb).1.
  pose proof (answerQuestion_eq room sid text cb) as Heq. cbn zeta in Heq.
  rewrite Hp in Heq. cbn [from_option] in Heq.
  destruct Heq as (Hout & Hlog & _ & _ & _ & _ & _ & _ & Hrun & _).
  rewrite (step_answerQuestion w a room) by done. rewrite Hout.
  split_and!; try done.
  intros Heq. rewrite Heq in Hlog.
  apply (f_equal length) in Hlog. cbn in Hlog. lia.
Qed.

Lemma answerQuestion_by_outsider_witness :
  find_player "Z" (players room_pair) = None ∧
  running (timer room_pair) = false ∧
  ∃ room',
    step world_pair (InAnswerQuestion "Z" "hello" false) =
      Done (store 0 room' world_pair)
        ([ToRoom (EvQuestionAnswered "Unknown" "hello")] ++ broadcastState room') ∧
    running (timer room') = true.
Proof.
  split; [reflexivity|]. split; [reflexivity|].
  destruct (answerQuestion_by_outsider world_pair 0 room_pair "Z" "hello" false)
    as (room' & Hstep & _ & _ & Hrun).
  - reflexivity.
  - reflexivity.
  - exists room'. split.
    + rewrite Hstep. cbn [ack]. by rewrite app_nil_r.
    + apply Hrun. reflexivity.
Defined.

(** ** Rematch *)

(** C6. A rematch request on a room that does not have exactly two
    players is refused and changes nothing. Otherwise a new room object
    takes the place of the old one in the registry: its deck is a fresh
    shuffled deck (20 cards, every pair twice, all face down and
    unmatched), its players are the old ones with their ids and names and
    all counters at 0, its timer runs from the full 180 seconds, nothing
    is flipped, the log is empty, the game is not over; the state of the
    new room and ['gameReset'] go to the whole room. *)
Theorem rematch_new_room w a room sid cb rnd :
  registered w = Some (a, room) →
  (length (players room) ≠ 2%nat →
     step w (InRematch sid cb rnd) =
       Done w (ack cb sid (AckError "Waiting for opponent."))) ∧
  (∀ p0 p1, players room = [p0; p1] →
     ∃ newGame,
       step w (InRematch sid cb rnd) =
         Done (mkWorld (heap w ++ [newGame]) (Some (length (heap w))) (timeouts w))
           (broadcastState newGame ++ [ToRoom EvGameReset] ++ ack cb sid AckOk) ∧
       deck_ok (cards newGame) ∧
       cards newGame = shuffle rnd (push_pairs 0 ANIMALS) ∧
       players newGame =
         [mkPlayer (id p0) (name p0) 0 0 0 0; mkPlayer (id p1) (name p1) 0 0 0 0] ∧
       timer newGame = mkTimer 180 true ∧
       flipped newGame = [] ∧ currentPlayer newGame = 0 ∧
       log newGame = [] ∧ gameOver newGame = false).
Proof.
  intros Hreg. split.
  - intros Hlen. cbn [step]. rewrite Hreg. unfold rematch.
    by rewrite bool_decide_true.
  - intros p0 p1 Hpl.
    exists (startTimer (set_players (reset_player <$> players room)
                          (createNewGameState rnd))).
    split.
    + cbn [step]. rewrite Hreg. unfold rematch.
      rewrite bool_decide_false; [done|]. rewrite Hpl. cbn. lia.
    + rewrite startTimer_eq, Hpl.
      split_and!; try done. apply new_deck_ok.
Qed.

Lemma rematch_new_room_witness :
  step world_left (InRematch "A" true rnd0) =
    Done world_left [Ack "A" (AckError "Waiting for opponent.")] ∧
  ∃ newGame,
    step world_pair (InRematch "B" false rnd0) =
      Done (mkWorld (heap world_pair ++ [newGame]) (Some 1%nat) (timeouts world_pair))
        (broadcastState newGame ++ [ToRoom EvGameReset]) ∧
    (matches <$> players room_pair) = [1; 0] ∧
    players newGame = [mkPlayer "A" "Ann" 0 0 0 0; mkPlayer "B" "Bob" 0 0 0 0] ∧
    timer newGame = mkTimer 180 true.
Proof.
  split.
  - apply (rematch_new_room world_left 0 room_left "A" true rnd0 eq_refl).
    intros H; discriminate H.
  - destruct (rematch_new_room world_pair 0 room_pair "B" false rnd0 eq_refl)
      as [_ Hnew].
    destruct (Hnew (mkPlayer "A" "Ann" 1 0 0 0) (mkPlayer "B" "Bob" 0 0 0 0) eq_refl)
      as (newGame & Hstep & _ & _ & Hpl & Htm & _).
    exists newGame. split; [exact Hstep|]. split; [reflexivity|].
    split; [exact Hpl|exact Htm].
Defined.

(** ** The end-of-game evaluator *)

Lemma stopped_id r : running (timer r) = false → stopped r = r.
Proof.
  destruct r as [? ? ? ? ? [rem run] ? ?]. cbn. intros ->. done.
Qed.

Lemma checkGameOver_two room p0 p1 :
  players room = [p0; p1] → gameOver room = false →
  (remaining (timer room) ≤ 0 → running (timer room) = false) →
  (game_is_over room p0 p1 →
     checkGameOver room =
       Done (set_gameOver true (stopped room))
         ((pauseTimer room).2 ++ [ToRoom (EvGameOver (winner_name p0 p1))])) ∧
  (¬ game_is_over room p0 p1 → checkGameOver room = Done room []).
Proof.
  intros Hpl Hg Hrun. unfold game_is_over, checkGameOver, winner_name.
  rewrite Hg, Hpl. cbn [lookup list_lookup matches_or0 from_option].
  destruct (matches p0 + matches p1 =? 10) eqn:Ht.
  - apply Z.eqb_eq in Ht. split; [intros _|intros []; by left].
    pose proof (pauseTimer_fst room) as Hf.
    destruct (pauseTimer room) as [r1 o1]. cbn [fst snd] in *. subst r1.
    do 2 f_equal. do 2 f_equal.
    destruct (matches p0 =? matches p1) eqn:He.
    + apply Z.eqb_eq in He.
      destruct (matches p0 >? matches p1) eqn:H1; [lia|].
      destruct (matches p1 >? matches p0) eqn:H2; [lia|done].
    + apply Z.eqb_neq in He.
      destruct (matches p0 >? matches p1) eqn:H1; [done|].
      destruct (matches p1 >? matches p0) eqn:H2; [done|lia].
  - apply Z.eqb_neq in Ht.
    destruct (remaining (timer room) <=? 0) eqn:Hr.
    + apply Z.leb_le in Hr. split; [intros _|intros []; by right].
      rewrite (stopped_id room (Hrun Hr)).
      unfold pauseTimer. rewrite (Hrun Hr). cbn [snd app].
      destruct (matches p0 =? matches p1) eqn:He.
      * apply Z.eqb_eq in He.
        destruct (matches p0 >? matches p1) eqn:H1; [lia|].
        destruct (matches p1 >? matches p0) eqn:H2; [lia|done].
      * apply Z.eqb_neq in He.
        destruct (matches p0 >? matches p1) eqn:H1; [done|].
        destruct (matches p1 >? matches p0) eqn:H2; [done|lia].
    + apply Z.leb_gt in Hr. split; [intros [?|?]; [done|lia]|done].
Qed.

Lemma registered_store w a r r' :
  registered w = Some (a, r) → registered (store a r' w) = Some (a, r').
Proof.
  intros [Hra Hl]%registered_Some. apply registered_Some. cbn.
  split; [done|]. rewrite list_lookup_insert_eq; [done|]. by eapply lookup_lt_Some.
Qed.

(** With both players in the room the evaluator, run by the last tick
    of the timer, declares the game over. *)
Lemma last_tick_declares w a room p0 p1 :
  reachable w → registered w = Some (a, room) →
  players room = [p0; p1] → gameOver room = false →
  running (timer room) = true → remaining (timer room) - 1 ≤ 0 →
  tick w a =
    Done (store a (set_gameOver true (expired room)) (store a (expired room) w))
      ([ToRoom (EvTimer (remaining (timer room) - 1)); ToRoom EvTimeUp]
         ++ broadcastState (expired room)
         ++ [ToRoom (EvGameOver (winner_name p0 p1))]).
Proof.
  intros Hw Hreg Hpl Hg Hrun Hle.
  pose proof Hreg as [Hra Hl]%registered_Some.
  unfold tick. rewrite Hl, Hrun. cbn [negb].
  apply Z.leb_le in Hle as Hle'. rewrite Hle'. fold (expired room).
  unfold checkGameOver_id, on_registered, broadcastState_id.
  rewrite (registered_store w a room (expired room) Hreg).
  destruct (checkGameOver_two (expired room) p0 p1) as [Hover' _]; try done.
  rewrite Hover'; [|right; cbn; lia].
  rewrite stopped_id by done. by rewrite pauseTimer_out.
Qed.

Lemma world_last_second_reachable : reachable world_last_second.
Proof.
  apply (run_from_initial_reachable (two_join ++ replicate 179 (InTick 0))
           world_last_second).
  by vm_compute.
Qed.

Lemma last_tick_declares_example :
  ∃ out,
    tick world_last_second 0 =
      Done (store 0 (set_gameOver true (expired room_last_second))
              (store 0 (expired room_last_second) world_last_second))
        (out ++ [ToRoom (EvGameOver "It's a tie!")]).
Proof.
  eexists.
  rewrite (last_tick_declares world_last_second 0 room_last_second
             (mkPlayer "A" "Ann" 0 0 0 0) (mkPlayer "B" "Bob" 0 0 0 0)
             world_last_second_reachable eq_refl eq_refl eq_refl eq_refl);
    [|by vm_compute].
  rewrite !app_assoc. reflexivity.
Qed.

(** C2. The evaluator does not declare every game that has ended: with
    a player missing it throws where it reads [players[1].matches]. Ann
    is alone in the room. Her answer has started the timer; when it runs
    out, the last tick sends the time, ['timeUp'] and the state, and the
    evaluator throws instead of declaring. And when she has found nine
    pairs and finds the tenth, the flip handler throws in the evaluator
    in the same way. No ['gameOver'] signal is sent either time. Both
    states are reached from the start of the server. *)
Theorem evaluator_throws_for_lone_player :
  reachable world_lone_clock ∧
  registered world_lone_clock = Some (0%nat, room_lone_clock) ∧
  players room_lone_clock = [mkPlayer "A" "Ann" 0 0 0 0] ∧
  gameOver room_lone_clock = false ∧
  timer room_lone_clock = mkTimer 1 true ∧
  step world_lone_clock (InTick 0) =
    Crash ([ToRoom (EvTimer 0); ToRoom EvTimeUp]
             ++ broadcastState (expired room_lone_clock)) ∧
  reachable world_lone ∧
  registered world_lone = Some (0%nat, room_lone) ∧
  players room_lone = [mkPlayer "A" "Ann" 9 0 0 0] ∧
  gameOver room_lone = false ∧
  ∃ out, step world_lone (InFlip "A" 18 true) = Crash out ∧ ¬ declares out.
Proof.
  split; [exact world_lone_clock_reachable|].
  do 4 (split; [reflexivity|]).
  split; [by vm_compute|].
  split; [exact world_lone_reachable|].
  do 3 (split; [reflexivity|]).
  eexists. split; [vm_compute; reflexivity|].
  intros [winnerName Hin].
  repeat (apply elem_of_cons in Hin as [Hin|Hin]; [discriminate Hin|]).
  by apply elem_of_nil in Hin.
Qed.

(** ** A flip that finds a pair *)

Lemma reveal_lookup r (idx : Key) (j : nat) c :
  cards r !! j = Some c →
  ∃ c', cards (reveal idx r) !! j = Some c' ∧
    pairId c' = pairId c ∧ animal c' = animal c ∧ matched c' = matched c ∧
    (idx = KIndex j → c' = set_revealed true c) ∧ (idx ≠ KIndex j → c' = c).
Proof.
  intros Hj. cbn [reveal cards set_flipped set_cards].
  destruct (decide (idx = KIndex j)) as [->|Hne].
  - exists (set_revealed true c). rewrite alter_at_lookup_eq, Hj. cbn.
    split_and!; congruence.
  - exists c. rewrite alter_at_lookup_ne by done. split_and!; congruence.
Qed.

Lemma checkGameOver_no_crash r p0 p1 :
  players r !! 0%nat = Some p0 → players r !! 1%nat = Some p1 →
  ∃ r' out, checkGameOver r = Done r' out.
Proof.
  intros H0 H1. unfold checkGameOver. rewrite H0, H1.
  destruct (gameOver r); [eauto|].
  destruct (_ =? 10); [destruct (pauseTimer r); eauto|].
  destruct (_ <=? 0); [|eauto].
  destruct (matches p0 =? matches p1), (matches p0 >? matches p1),
    (matches p1 >? matches p0); eauto.
Qed.

Lemma checkGameOver_prompts r r' out :
  checkGameOver r = Done r' out → List.filter is_prompt out = [].
Proof.
  intros H. apply checkGameOver_Done in H.
  destruct H as [(_ & -> & _)|(_ & p0 & p1 & _ & _ & Hc)]; [done|].
  destruct Hc as [(_ & _ & w & ->)|(_ & _ & _ & w & ->)]; [|done].
  rewrite pauseTimer_out. by destruct (running (timer r)).
Qed.

(** The second flip of a turn, by the player whose turn it is, of a
    card that is face down and unmatched. *)
Section SecondFlip.

Context (room : Room) (sid : string) (idx : nat) (cb : bool).
Context (playerIndex : nat) (player0 : Player) (card cardA : Card) (idxA : nat).

Hypothesis Hplaying : gameOver room = false.
Hypothesis Hplayer :
  list_find (λ p, id p = sid) (players room) = Some (playerIndex, player0).
Hypothesis Hturn : currentPlayer room = Z.of_nat playerIndex.
Hypothesis Hcard : cards room !! idx = Some card.
Hypothesis Hdown : revealed card = false.
Hypothesis Hfree : matched card = false.
Hypothesis Hfirst : flipped room = [KIndex idxA].
Hypothesis HcardA : cards room !! idxA = Some cardA.

(** The handler up to the comparison of the two pair ids. *)
Lemma flip_second_eq :
  ∃ cA cB,
    cards (reveal idx room) !! idxA = Some cA ∧
    cards (reveal idx room) !! idx = Some cB ∧
    pairId cA = pairId cardA ∧ animal cA = animal cardA ∧
    pairId cB = pairId card ∧
    flip room sid idx cb =
      if bool_decide (pairId cA = pairId cB) then
        let player := set_matches (matches player0 + 1) player0 in
        let room2 := award playerIndex idxA idx player0 cA (reveal idx room) in
        let '(room3, out3) := pauseTimer room2 in
        let out4 :=
          broadcastState (reveal idx room) ++ out3 ++ broadcastState room3
            ++ [ToSocket (id player) (EvAskQuestion (questionsLeft player))] in
        match checkGameOver room3 with
        | Done room5 out5 => Done (room5, None) (out4 ++ out5 ++ ack cb sid AckOk)
        | Crash out5 => Crash (out4 ++ out5)
        end
      else
        Done (reveal idx room, Some (KIndex idxA, KIndex idx))
          (broadcastState (reveal idx room) ++ ack cb sid AckOk).
Proof.
  pose proof Hplayer as (Hpl & _)%list_find_Some.
  destruct (reveal_lookup room idx idxA cardA HcardA) as (cA & HcA & HpA & HaA & _).
  destruct (reveal_lookup room idx idx card Hcard) as (cB & HcB & HpB & _).
  exists cA, cB. split_and!; try done.
  unfold flip, findIndex.
  rewrite Hplaying, Hplayer. cbn [fmap option_fmap option_map fst].
  rewrite Hturn, Z.eqb_refl. cbn [negb].
  cbn [card_at]. rewrite Hcard. cbn [fmap option_fmap option_map v_revealed v_matched].
  rewrite Hdown, Hfree.
  assert ((2 <=? length (flipped room))%nat = false) as -> by by rewrite Hfirst.
  cbn [orb]. fold (reveal idx room).
  change (flipped (reveal idx room)) with (flipped room ++ [KIndex idx]).
  rewrite Hfirst. cbn [app card_at]. rewrite HcA, HcB.
  cbn [fmap option_fmap option_map v_pairId v_animal].
  change (players (reveal idx room)) with (players room). rewrite Hpl.
  assert (bool_decide (Some (pairId cA) = Some (pairId cB))
          = bool_decide (pairId cA = pairId cB)) as ->; [|done].
  apply bool_decide_ext. split; congruence.
Qed.

Lemma flip_match_eq :
  pairId cardA = pairId card →
  let room2 := award playerIndex idxA idx player0 cardA (reveal idx room) in
  let out4 :=
    broadcastState (reveal idx room) ++ (pauseTimer room2).2
      ++ broadcastState (stopped room2)
      ++ [ToSocket sid (EvAskQuestion (questionsLeft player0))] in
  flip room sid idx cb =
    match checkGameOver (stopped room2) with
    | Done room5 out5 => Done (room5, None) (out4 ++ out5 ++ ack cb sid AckOk)
    | Crash out5 => Crash (out4 ++ out5)
    end.
Proof.
  intros Hpair.
  pose proof Hplayer as (_ & Hid & _)%list_find_Some.
  destruct flip_second_eq as (cA & cB & _ & _ & HpA & HaA & HpB & ->).
  rewrite bool_decide_true by congruence.
  cbn zeta. unfold award. cbn [v_animal]. rewrite HaA.
  match goal with |- context [pauseTimer ?X] =>
    pose proof (pauseTimer_fst X) as Hf; destruct (pauseTimer X) as [room3 out3]
  end.
  cbn [fst snd] in *. subst room3. rewrite <- Hid. cbn.
  destruct (checkGameOver _) as [room5 out5|out5];
    unfold broadcastState; cbn [app]; by rewrite <- ?app_assoc.
Qed.

Lemma flip_no_match_eq :
  pairId cardA ≠ pairId card →
  flip room sid idx cb =
    Done (reveal idx room, Some (KIndex idxA, KIndex idx))
      (broadcastState (reveal idx room) ++ ack cb sid AckOk).
Proof.
  intros Hpair.
  destruct flip_second_eq as (cA & cB & _ & _ & HpA & _ & HpB & ->).
  by rewrite bool_decide_false by congruence.
Qed.

End SecondFlip.

Lemma filter_prompt_app (l1 l2 : list Out) :
  List.filter is_prompt (l1 ++ l2) = List.filter is_prompt l1 ++ List.filter is_prompt l2.
Proof. apply List.filter_app. Qed.

Lemma pauseTimer_prompts r : List.filter is_prompt (pauseTimer r).2 = [].
Proof. rewrite pauseTimer_out. by destruct (running (timer r)). Qed.

Lemma ack_prompts cb sid a : List.filter is_prompt (ack cb sid a) = [].
Proof. by destruct cb. Qed.

Lemma checkGameOver_running r r' out :
  checkGameOver r = Done r' out → running (timer r) = false →
  running (timer r') = false.
Proof.
  intros H Hr. apply checkGameOver_Done in H.
  destruct H as [(-> & _)|(_ & p0 & p1 & _ & _ & [(_ & -> & _)|(_ & _ & -> & _)])];
    done.
Qed.

(** C3. A valid flip of a second card that has the pair id of the first:
    both cards are marked matched, the player's match count goes up by
    one, [flipped] is emptied, the timer is stopped, the state is
    broadcast, the ['askQuestion'] prompt with the player's remaining
    questions goes to the player's socket and nowhere else, and the
    handler then runs the end-of-game evaluator on that state. *)
Theorem flip_finds_pair room sid (idx : nat) cb playerIndex player0 card
    (idxA : nat) cardA :
  gameOver room = false →
  list_find (λ p, id p = sid) (players room) = Some (playerIndex, player0) →
  currentPlayer room = Z.of_nat playerIndex →
  cards room !! idx = Some card → revealed card = false → matched card = false →
  flipped room = [KIndex idxA] → cards room !! idxA = Some cardA →
  pairId cardA = pairId card →
  let player := set_matches (matches player0 + 1) player0 in
  let room2 := award playerIndex idxA idx player0 cardA (reveal idx room) in
  let room3 := stopped room2 in
  let out4 :=
    broadcastState (reveal idx room) ++ (pauseTimer room2).2
      ++ broadcastState room3
      ++ [ToSocket sid (EvAskQuestion (questionsLeft player0))] in
  (∃ cA cB, cards room3 !! idxA = Some cA ∧ cards room3 !! idx = Some cB ∧
     matched cA = true ∧ matched cB = true) ∧
  players room3 = <[playerIndex:=player]> (players room) ∧
  matches player = matches player0 + 1 ∧
  flipped room3 = [] ∧
  running (timer room3) = false ∧
  flip room sid idx cb =
    match checkGameOver room3 with
    | Done room5 out5 => Done (room5, None) (out4 ++ out5 ++ ack cb sid AckOk)
    | Crash out5 => Crash (out4 ++ out5)
    end ∧
  (∀ room5 s out, flip room sid idx cb = Done (room5, s) out →
     s = None ∧ cards room5 = cards room3 ∧ players room5 = players room3 ∧
     flipped room5 = [] ∧ running (timer room5) = false ∧
     List.filter is_prompt out = [ToSocket sid (EvAskQuestion (questionsLeft player0))]) ∧
  (length (players room) = 2%nat →
     ∃ room5 out, flip room sid idx cb = Done (room5, None) out).
Proof.
  intros Hg Hfind Hcp Hcard Hrev Hmat Hfl HA Hpair player room2 room3 out4.
  pose proof (flip_match_eq room sid idx cb playerIndex player0 card cardA idxA
                Hg Hfind Hcp Hcard Hrev Hmat Hfl HA Hpair) as Heq.
  cbn zeta in Heq. fold room2 room3 out4 in Heq.
  destruct (reveal_lookup room idx idxA cardA HA) as (cA & HcA & _).
  destruct (reveal_lookup room idx idx card Hcard) as (cB & HcB & _).
  split.
  { destruct (decide (idxA = idx)) as [->|Hne]; eexists _, _; cbn.
    - rewrite !list_lookup_alter_eq, Hcard. cbn. done.
    - rewrite list_lookup_alter_eq, !(list_lookup_alter_ne _ _ idx idxA) by done.
      rewrite (list_lookup_alter_ne _ _ idxA idx) by done.
      rewrite !list_lookup_alter_eq, HA, Hcard. cbn. done. }
  split_and!; try done.
  - intros room5 s out Hfl5. rewrite Heq in Hfl5.
    destruct (checkGameOver room3) as [r5 out5|out5] eqn:Hck; [|done].
    simplify_eq.
    pose proof (checkGameOver_frame _ _ _ Hck) as (Hc5 & Hf5 & Hp5 & _).
    split_and!; try done.
    + by eapply checkGameOver_running.
    + subst out4. unfold broadcastState.
      rewrite ?filter_prompt_app. cbn [List.filter is_prompt app].
      rewrite ?filter_prompt_app.
      rewrite pauseTimer_prompts, ack_prompts.
      by rewrite (checkGameOver_prompts _ _ _ Hck).
  - intros Hlen. rewrite Heq.
    assert (∃ p0 p1, players room3 !! 0%nat = Some p0 ∧ players room3 !! 1%nat = Some p1)
      as (p0 & p1 & H0 & H1).
    { assert (Hlen3 : length (players room3) = 2%nat)
        by (cbn; by rewrite length_insert).
      destruct (players room3) as [|p0 [|p1 [|? ?]]]; try done. by exists p0, p1. }
    destruct (checkGameOver_no_crash room3 p0 p1 H0 H1) as (r5 & o5 & ->). eauto.
Qed.

Lemma flip_finds_pair_witness :
  ∃ room5 out,
    flip room_one_up "A" 2 true = Done (room5, None) out ∧
    List.filter is_prompt out = [ToSocket "A" (EvAskQuestion 5)] ∧
    (matches <$> players room5) = [1; 0] ∧
    flipped room5 = [] ∧ running (timer room5) = false.
Proof.
  pose proof (flip_finds_pair room_one_up "A" 2 true 0 (mkPlayer "A" "Ann" 0 0 0 0)
                (mkCard 1 "elephant" "🐘" false false) 1
                (mkCard 1 "elephant" "🐘" true false)
                eq_refl eq_refl eq_refl eq_refl eq_refl eq_refl eq_refl eq_refl eq_refl)
    as (_ & _ & _ & _ & _ & _ & Hdone & Htwo).
  destruct (Htwo eq_refl) as (room5 & out & Hflip).
  destruct (Hdone room5 None out Hflip) as (_ & _ & Hpl & Hf & Hrun & Hprompt).
  exists room5, out. split; [exact Hflip|]. split; [exact Hprompt|].
  split; [rewrite Hpl; reflexivity|]. split; [exact Hf|exact Hrun].
Defined.

(** With both players in the room, the flip that finds the tenth pair
    ends the game: the evaluator, run at the end of the handler, sets
    [gameOver] and sends the name of the player who has more matches. *)
Lemma tenth_pair_declares room sid (idx : nat) cb playerIndex player0 card
    (idxA : nat) cardA p0 p1 :
  gameOver room = false →
  list_find (λ p, id p = sid) (players room) = Some (playerIndex, player0) →
  currentPlayer room = Z.of_nat playerIndex →
  cards room !! idx = Some card → revealed card = false → matched card = false →
  flipped room = [KIndex idxA] → cards room !! idxA = Some cardA →
  pairId cardA = pairId card →
  players room = [p0; p1] → matches p0 + matches p1 = 9 →
  let room2 := award playerIndex idxA idx player0 cardA (reveal idx room) in
  ∃ q0 q1,
    players room2 = [q0; q1] ∧ matches q0 + matches q1 = 10 ∧
    flip room sid idx cb =
      Done (set_gameOver true (stopped room2), None)
        (broadcastState (reveal idx room) ++ (pauseTimer room2).2
           ++ broadcastState (stopped room2)
           ++ [ToSocket sid (EvAskQuestion (questionsLeft player0))]
           ++ [ToRoom (EvGameOver (winner_name q0 q1))] ++ ack cb sid AckOk).
Proof.
  intros Hg Hfind Hcp Hcard Hrev Hmat Hfl HA Hpair Hpl H9 room2.
  pose proof Hfind as (Hlk & _)%list_find_Some.
  assert (∃ q0 q1, players room2 = [q0; q1] ∧ matches q0 + matches q1 = 10)
    as (q0 & q1 & Hq & H10).
  { subst room2. cbn [award players set_flipped log_unshift set_players].
    change (players (reveal idx room)) with (players room).
    rewrite Hpl in Hlk |- *.
    destruct playerIndex as [|[|]]; cbn in Hlk; simplify_eq;
      eexists _, _; (split; [reflexivity|cbn; lia]). }
  exists q0, q1. split; [done|]. split; [done|].
  rewrite (flip_match_eq room sid idx cb playerIndex player0 card cardA idxA) by done.
  cbn zeta. fold room2.
  destruct (checkGameOver_two (stopped room2) q0 q1) as [Hover _]; try done.
  rewrite Hover by by left.
  rewrite stopped_id by done. rewrite pauseTimer_out. cbn [stopped set_timer timer running].
  cbn [app]. by rewrite <- !app_assoc.
Qed.

Lemma tenth_pair_declares_example :
  ∃ room5 out,
    step world_nineteen (InFlip "A" 18 true) =
      Done (store 0 room5 world_nineteen) out ∧
    ToRoom (EvGameOver "Ann") ∈ out ∧
    gameOver room5 = true ∧ running (timer room5) = false ∧
    (matches <$> players room5) = [10; 0].
Proof.
  destruct (tenth_pair_declares room_nineteen "A" 18 true 0
              (mkPlayer "A" "Ann" 9 0 0 0) (mkCard 9 "bear" "🐻" false false) 17
              (mkCard 9 "bear" "🐻" true false)
              (mkPlayer "A" "Ann" 9 0 0 0) (mkPlayer "B" "Bob" 0 0 0 0)
              eq_refl eq_refl eq_refl eq_refl eq_refl eq_refl eq_refl eq_refl
              eq_refl eq_refl eq_refl)
    as (q0 & q1 & Hq & _ & Hflip).
  injection Hq as <- <-.
  eexists _, _. split; [|split].
  - cbn [step]. unfold on_registered.
    change (registered world_nineteen) with (Some (0%nat, room_nineteen)).
    cbv beta iota. rewrite Hflip. cbn [schedule]. unfold store.
    rewrite app_nil_r. reflexivity.
  - rewrite !elem_of_app. do 4 right. left. apply list_elem_of_here.
  - by vm_compute.
Qed.

(** ** A flip that does not find a pair *)

Lemma world_eta w : mkWorld (heap w) (registry w) (timeouts w) = w.
Proof. by destruct w. Qed.

Lemma flipBack_cards room (idxA idxB : nat) cA cB :
  cards room !! idxA = Some cA → cards room !! idxB = Some cB →
  ∃ cA' cB',
    cards (flipBack room idxA idxB) !! idxA = Some cA' ∧
    cards (flipBack room idxA idxB) !! idxB = Some cB' ∧
    revealed cA' = false ∧ revealed cB' = false.
Proof.
  intros HA HB. unfold flipBack. cbn.
  destruct (decide (idxA = idxB)) as [->|Hne]; eexists _, _.
  - rewrite !list_lookup_alter_eq, HB. cbn. done.
  - rewrite list_lookup_alter_eq, (list_lookup_alter_ne _ _ idxB idxA) by done.
    rewrite (list_lookup_alter_ne _ _ idxA idxB) by done.
    rewrite list_lookup_alter_eq, HA, HB. cbn. done.
Qed.

(** C4. A valid flip of a second card with another pair id schedules
    the flip-back and leaves the two cards in [flipped]. As long as the
    flip-back is pending, the room refuses every flip and stays as it is.
    When the flip-back runs, both cards are face down again, [flipped]
    is empty, [currentPlayer] is 1 - [currentPlayer], an info entry is
    put in front of the log, and the state is broadcast. *)
Theorem flip_misses_pair w a room sid (idx : nat) cb playerIndex card
    (idxA : nat) cardA :
  reachable w → registered w = Some (a, room) →
  gameOver room = false →
  findIndex sid (players room) = Some playerIndex →
  currentPlayer room = Z.of_nat playerIndex →
  cards room !! idx = Some card → revealed card = false → matched card = false →
  flipped room = [KIndex idxA] → cards room !! idxA = Some cardA →
  pairId cardA ≠ pairId card →
  let w1 :=
    mkWorld (<[a:=reveal idx room]> (heap w)) (registry w)
      (timeouts w ++ [mkPending a idxA idx]) in
  step w (InFlip sid idx cb) =
    Done w1 (broadcastState (reveal idx room) ++ ack cb sid AckOk) ∧
  ∀ inputs w2,
    run w1 inputs = Some w2 → mkPending a idxA idx ∈ timeouts w2 →
    ∃ room2,
      heap w2 !! a = Some room2 ∧ flipped room2 = [KIndex idxA; KIndex idx] ∧
      (∀ sid' (idx' : Key) cb', ∃ out,
         flip room2 sid' idx' cb' = Done (room2, None) out ∧
         (out = [] ∨ out = ack cb' sid' (AckError "Not your turn.")) ∧
         (registry w2 = Some a → step w2 (InFlip sid' idx' cb') = Done w2 out)) ∧
      (∀ k, timeouts w2 !! k = Some (mkPending a idxA idx) →
         let room3 := flipBack room2 idxA idx in
         let w3 :=
           mkWorld (<[a:=room3]> (heap w2)) (registry w2) (delete k (timeouts w2)) in
         step w2 (InTimeout k) = Done w3 (broadcastState_id w3) ∧
         (registry w2 = Some a → broadcastState_id w3 = broadcastState room3) ∧
         (∃ cA cB, cards room3 !! idxA = Some cA ∧ cards room3 !! idx = Some cB ∧
            revealed cA = false ∧ revealed cB = false) ∧
         flipped room3 = [] ∧
         currentPlayer room3 = 1 - currentPlayer room2 ∧
         ∃ text, log room3 = LogInfo text :: log room2).
Proof.
  intros Hw Hreg Hg Hfind Hcp Hcard Hrev Hmat Hfl HA Hpair w1.
  assert (Hstep : step w (InFlip sid idx cb) =
            Done w1 (broadcastState (reveal idx room) ++ ack cb sid AckOk)).
  { cbn [step]. unfold on_registered. rewrite Hreg.
    unfold findIndex in Hfind.
    destruct (list_find _ (players room)) as [[i player0]|] eqn:Hplayer; [|done].
    cbn in Hfind. simplify_eq.
    by rewrite (flip_no_match_eq room sid idx cb playerIndex player0 card cardA idxA). }
  split; [exact Hstep|].
  intros inputs w2 Hrun Hp.
  assert (Hw2 : reachable w2).
  { eapply run_reachable; [|exact Hrun]. by eapply reachable_step. }
  apply reachable_ok in Hw2 as [Hok2 _].
  destruct (ho_pending w2 Hok2 _ Hp) as (room2 & Hl2 & Hf2). cbn in Hl2, Hf2.
  exists room2. split; [done|]. split; [done|]. split.
  - intros sid' idx' cb'.
    destruct (flip_full_rejected room2 sid' idx' cb') as (out & Hflip & Hout);
      [rewrite Hf2; simpl; lia|].
    exists out. split; [done|]. split; [done|].
    intros Hra. cbn [step]. unfold on_registered.
    rewrite (proj2 (registered_Some w2 a room2) (conj Hra Hl2)), Hflip.
    cbn [schedule]. rewrite app_nil_r, list_insert_id by done.
    by rewrite world_eta.
  - intros k Hk room3 w3.
    destruct (ho_rooms w2 Hok2 a room2 Hl2) as (_ & _ & Hfok).
    destruct (Hfok idxA) as (cA & HcA & _); [rewrite Hf2; by left|].
    destruct (Hfok idx) as (cB & HcB & _); [rewrite Hf2; right; by left|].
    split_and!.
    + cbn [step]. unfold fire. rewrite Hk. cbn [pd_room pd_idxA pd_idxB].
      by rewrite Hl2.
    + intros Hra. unfold broadcastState_id.
      assert (registered w3 = Some (a, room3)) as ->; [|done].
      apply registered_Some. cbn. split; [done|].
      rewrite list_lookup_insert_eq; [done|]. by eapply lookup_lt_Some.
    + by apply (flipBack_cards room2 idxA idx cA cB).
    + done.
    + done.
    + by eexists.
Qed.

Lemma flip_misses_pair_witness :
  step world_one_up (InFlip "A" 3 true) =
    Done world_miss (broadcastState (reveal 3 room_one_up) ++ [Ack "A" AckOk]) ∧
  ∃ room2,
    heap world_miss !! 0%nat = Some room2 ∧
    flipped room2 = [KIndex 1; KIndex 3] ∧
    step world_miss (InFlip "A" 5 true) = Done world_miss [] ∧
    currentPlayer (flipBack room2 1 3) = 1 - currentPlayer room2.
Proof.
  destruct (flip_misses_pair world_one_up 0 room_one_up "A" 3 true 0
              (mkCard 2 "fox" "🦊" false false) 1
              (mkCard 1 "elephant" "🐘" true false)
              world_one_up_reachable eq_refl eq_refl eq_refl eq_refl eq_refl
              eq_refl eq_refl eq_refl eq_refl)
    as [Hstep Hwindow].
  - intros H; discriminate H.
  - split; [exact Hstep|].
    destruct (Hwindow [] world_miss eq_refl) as (room2 & Hl & Hf & Hflips & Hback).
    + apply list_elem_of_here.
    + exists room2. split; [exact Hl|]. split; [exact Hf|].
      destruct (Hflips "A" 5%nat true) as (out & Hflip & _ & Hsame).
      destruct (Hback 0%nat eq_refl) as (_ & _ & _ & _ & Hcp & _).
      split; [|exact Hcp].
      rewrite (Hsame eq_refl). f_equal.
      injection Hl as <-. injection Hflip as <-. reflexivity.
Defined.

(** ** Game over *)















(** ** Matched cards *)

Lemma run_matched inputs w w' a room (i : nat) c :
  world_ok w → run w inputs = Some w' →
  heap w !! a = Some room → cards room !! i = Some c → matched c = true →
  ∃ room', heap w' !! a = Some room' ∧ cards room' !! i = Some c.
Proof.
  revert w room. induction inputs as [|inp rest IH]; intros w room Hw; cbn.
  - intros [= <-] Hl Hc Hm. by exists room.
  - destruct (step w inp) as [w1 o|o] eqn:Hs; [|done]. intros Hrun Hl Hc Hm.
    destruct (step_sound w inp w1 o Hw Hs) as [Hw1 Htr].
    destruct (Htr a room Hl) as (r1 & Hl1 & Ht).
    apply (IH w1 r1); try done.
    eapply room_trans_matched; [done| |done|done].
    by eapply (ho_rooms w), Hl; apply Hw.
Qed.

(** C7. A card that is matched stays as it is, with [matched] set and
    [revealed] untouched, whatever the server does next: the room refuses
    every flip of that card and is not changed by it, and no pending
    flip-back of the room refers to the card. *)
Theorem matched_card_is_final w a room (i : nat) c :
  reachable w → heap w !! a = Some room →
  cards room !! i = Some c → matched c = true →
  (∀ sid cb, ∃ out,
     flip room sid i cb = Done (room, None) out ∧
     (out = [] ∨ out = ack cb sid (AckError "Not your turn.")) ∧
     (registry w = Some a → step w (InFlip sid i cb) = Done w out)) ∧
  (∀ p, p ∈ timeouts w → pd_room p = a → pd_idxA p ≠ i ∧ pd_idxB p ≠ i) ∧
  (∀ inputs w', run w inputs = Some w' →
     ∃ room', heap w' !! a = Some room' ∧ cards room' !! i = Some c).
Proof.
  intros Hw Hl Hc Hm. apply reachable_ok in Hw. pose proof Hw as [Hok Hreg].
  split; [|split].
  - intros sid cb.
    destruct (flip_matched_rejected room sid i cb c Hc Hm) as (out & Hflip & Hout).
    exists out. split; [done|]. split; [done|].
    intros Hra. cbn [step]. unfold on_registered.
    rewrite (proj2 (registered_Some w a room) (conj Hra Hl)), Hflip.
    cbn [schedule]. rewrite app_nil_r, list_insert_id by done.
    by rewrite world_eta.
  - intros p Hp Hpa. subst a.
    pose proof (pending_room_flipped w p room Hok Hp Hl) as Hf.
    destruct (ho_rooms w Hok _ room Hl) as (_ & _ & Hfok).
    split; intros Heq.
    + destruct (Hfok i) as (c' & Hc' & Hm'); [rewrite Hf, Heq; by left|].
      congruence.
    + destruct (Hfok i) as (c' & Hc' & Hm'); [rewrite Hf, Heq; right; by left|].
      congruence.
  - intros inputs w' Hrun. by eapply run_matched.
Qed.

Lemma matched_card_is_final_witness :
  step world_pair (InFlip "A" 1 true) = Done world_pair [] ∧
  ∃ room',
    heap (default world_pair
            (run world_pair
               [InAnswerQuestion "B" "yes" true; InFlip "A" 1 true;
                InRematch "B" true rnd0; InTick 0]))
      !! 0%nat = Some room' ∧
    cards room' !! 1%nat = Some (mkCard 1 "elephant" "🐘" true true).
Proof.
  destruct (matched_card_is_final world_pair 0 room_pair 1
              (mkCard 1 "elephant" "🐘" true true)
              world_pair_reachable eq_refl eq_refl eq_refl)
    as (Hflip & _ & Hrun).
  split.
  - destruct (Hflip "A" true) as (out & Hf & _ & Hsame).
    rewrite (Hsame eq_refl). f_equal. injection Hf as <-. reflexivity.
  - exact (Hrun [InAnswerQuestion "B" "yes" true; InFlip "A" 1 true;
                 InRematch "B" true rnd0; InTick 0] _ eq_refl).
Defined.

(** * Further properties of the server *)

(** ** What the handlers change, field by field *)

Lemma connection_fields r sid pn :
  let r' := (connection r sid pn).1 in
  cards r' = cards r ∧ flipped r' = flipped r ∧
  currentPlayer r' = currentPlayer r ∧ gameOver r' = gameOver r ∧
  remaining (timer r') = remaining (timer r) ∧
  ((players r' = players r ∧ log r' = log r ∧
    ((2 ≤ length (players r))%nat ∨ find_player sid (players r) ≠ None)) ∨
   ((length (players r) < 2)%nat ∧ find_player sid (players r) = None ∧
    players r' = players r ++ [mkPlayer sid pn 0 0 0 0] ∧
    log r' = LogInfo (pn +:+ " has joined.") :: log r)) ∧
  (running (timer r') = true ↔
     running (timer r) = true ∨
     (length (players r') = 2%nat ∧ gameOver r = false)).
Proof.
  unfold connection. cbn [fst].
  set (r1 := if _ && _ then _ else r).
  assert (Hr1 : cards r1 = cards r ∧ flipped r1 = flipped r ∧
                currentPlayer r1 = currentPlayer r ∧ gameOver r1 = gameOver r ∧
                timer r1 = timer r ∧
                ((players r1 = players r ∧ log r1 = log r ∧
                  ((2 ≤ length (players r))%nat ∨ find_player sid (players r) ≠ None)) ∨
                 ((length (players r) < 2)%nat ∧ find_player sid (players r) = None ∧
                  players r1 = players r ++ [mkPlayer sid pn 0 0 0 0] ∧
                  log r1 = LogInfo (pn +:+ " has joined.") :: log r))).
  { subst r1. destruct (bool_decide (length (players r) < 2)%nat) eqn:H1.
    - apply bool_decide_eq_true in H1.
      destruct (bool_decide (find_player sid (players r) = None)) eqn:H2; cbn.
      + apply bool_decide_eq_true in H2. split_and!; try done. right. done.
      + apply bool_decide_eq_false in H2. split_and!; try done. left. eauto.
    - apply bool_decide_eq_false in H1. cbn. split_and!; try done.
      left. split_and!; try done. left. lia. }
  destruct Hr1 as (Hc & Hf & Hcp & Hg & Ht & Hpl).
  destruct (bool_decide (length (players r1) = 2%nat)) eqn:H2;
    [apply bool_decide_eq_true in H2|apply bool_decide_eq_false in H2];
    destruct (running (timer r1)) eqn:Hrun; destruct (gameOver r1) eqn:Hgo;
    cbn [andb negb]; rewrite ?startTimer_eq; cbn;
    rewrite ?Hrun; rewrite <- ?Ht, <- ?Hg, ?Hrun;
    split_and!; try done; try congruence; intuition (try congruence).
Qed.

Lemma askQuestion_fields r sid text cb :
  let r' := (askQuestion r sid text cb).1 in
  cards r' = cards r ∧ flipped r' = flipped r ∧
  currentPlayer r' = currentPlayer r ∧ gameOver r' = gameOver r ∧
  timer r' = timer r ∧
  ((r' = r ∧ find_player sid (players r) = None) ∨
   ∃ i p, list_find (λ p, id p = sid) (players r) = Some (i, p) ∧
     players r' = <[i:=set_asked (asked p + 1) p]> (players r) ∧
     log r' = LogQ (name p) text :: log r).
Proof.
  unfold askQuestion, find_player.
  destruct (list_find _ _) as [[i p]|] eqn:Hf; cbn; split_and!; try done.
  - right. by exists i, p.
  - by left.
Qed.

Lemma disconnect_fields r sid :
  let r' := (disconnect r sid).1.1 in
  cards r' = cards r ∧ flipped r' = flipped r ∧
  currentPlayer r' = currentPlayer r ∧
  remaining (timer r') = remaining (timer r) ∧
  ((disconnect r sid = (r, false, []) ∧ find_player sid (players r) = None) ∨
   ∃ i p, list_find (λ p, id p = sid) (players r) = Some (i, p) ∧
     players r' = delete i (players r) ∧
     log r' = LogInfo (name p +:+ " has disconnected.") :: log r ∧
     running (timer r') = false ∧
     gameOver r' = (gameOver r || bool_decide (length (players r') < 2)%nat) ∧
     (disconnect r sid).1.2 = bool_decide (length (players r') = 0%nat) ∧
     (disconnect r sid).2 =
       (if running (timer r) then [ToRoom EvTimerPaused] else [])
         ++ broadcastState r').
Proof.
  unfold disconnect, find_player.
  destruct (list_find _ _) as [[i p]|] eqn:Hf; [|cbn; split_and!; try done; by left].
  match goal with |- context [pauseTimer ?X] =>
    pose proof (pauseTimer_fst X) as Hp; pose proof (pauseTimer_out X) as Ho;
    destruct (pauseTimer X) as [r2 o2]
  end.
  cbn [fst snd] in *. subst r2 o2.
  case_bool_decide as Hlen; cbn in Hlen |- *; split_and!; try done; right;
    exists i, p; split_and!; try done.
  - by rewrite bool_decide_true, orb_true_r.
  - by rewrite bool_decide_false, orb_false_r.
Qed.

(** A step keeps the heap, or adds one new room object at its end. *)
Lemma step_heap w i w' out :
  step w i = Done w' out →
  length (heap w') = length (heap w) ∨
  ∃ g, heap w' = heap w ++ [g] ∧ fresh_room w g.
Proof.
  destruct i as [sid pn rnd|sid cb rnd|sid idx cb|sid text cb|sid text cb|sid|a|k|sid ev];
    cbn [step]; unfold on_registered.
  - destruct (registered w) as [[a r]|] eqn:Hr.
    + destruct (connection r sid pn) as [r' o]. intros [= <- <-]. left.
      cbn. by rewrite length_insert.
    + destruct (connection (createNewGameState rnd) sid pn) as [r' o] eqn:Hc.
      intros [= <- <-]. right. exists r'. split; [done|]. left.
      exists rnd, sid, pn. by rewrite Hc.
  - destruct (registered w) as [[a r]|] eqn:Hr; [|intros [= <- <-]; by left].
    destruct (rematch r sid cb rnd) as [[g|] o] eqn:Hrm; intros [= <- <-];
      [|by left].
    right. exists g. split; [done|]. right.
    apply registered_Some in Hr as [_ Hl]. by exists a, r, sid, cb, rnd, o.
  - destruct (registered w) as [[a r]|]; [|intros [= <- <-]; by left].
    destruct (flip r sid idx cb) as [[r' s] o|o]; [|done].
    intros [= <- <-]. left. cbn. by rewrite length_insert.
  - destruct (registered w) as [[a r]|]; [|intros [= <- <-]; by left].
    destruct (askQuestion r sid text cb) as [r' o]. intros [= <- <-]. left.
    cbn. by rewrite length_insert.
  - destruct (registered w) as [[a r]|]; [|intros [= <- <-]; by left].
    destruct (answerQuestion r sid text cb) as [r' o]. intros [= <- <-]. left.
    cbn. by rewrite length_insert.
  - destruct (registered w) as [[a r]|]; [|intros [= <- <-]; by left].
    destruct (disconnect r sid) as [[r' d] o]. intros [= <- <-]. left.
    cbn. by rewrite length_insert.
  - unfold tick. destruct (heap w !! a) as [r|]; [|intros [= <- <-]; by left].
    destruct (negb _); [intros [= <- <-]; by left|].
    destruct (_ <=? 0); [|intros [= <- <-]; left; cbn; by rewrite length_insert].
    unfold checkGameOver_id, on_registered.
    destruct (registered _) as [[a1 r1]|].
    + destruct (checkGameOver r1) as [r1' o1|o1]; [|done].
      intros [= <- <-]. left. cbn. by rewrite !length_insert.
    + intros [= <- <-]. left. cbn. by rewrite length_insert.
  - unfold fire. destruct (timeouts w !! k) as [p|]; [|intros [= <- <-]; by left].
    destruct (heap w !! pd_room p) as [r|]; [|intros [= <- <-]; by left].
    intros [= <- <-]. left. cbn. by rewrite length_insert.
  - done.
Qed.

(** ** The further invariants are kept *)

Lemma ids_insert (l : list Player) i p p' :
  l !! i = Some p → id p' = id p → id <$> <[i:=p']> l = id <$> l.
Proof.
  intros Hl Hid. rewrite list_fmap_insert, Hid.
  apply list_insert_id. by rewrite list_lookup_fmap, Hl.
Qed.

Lemma face_down_alter f k (l : list Card) :
  (∀ c, face_down (f c) = face_down c) →
  face_down <$> alter_at f k l = face_down <$> l.
Proof.
  intros Hf. destruct k as [i|n]; [|done]. cbn [alter_at]. revert i.
  induction l as [|c l IH]; intros [|i]; cbn; try done.
  - by rewrite Hf.
  - by rewrite IH.
Qed.

Lemma find_player_None sid (ps : list Player) :
  find_player sid ps = None → sid ∉ id <$> ps.
Proof.
  unfold find_player. destruct (list_find _ _) as [[i p]|] eqn:Hf; [done|].
  intros _ (p & Hid & Hp)%list_elem_of_fmap.
  apply list_find_None in Hf. rewrite Forall_forall in Hf.
  by apply (Hf p Hp).
Qed.

Lemma wf_frame r r' :
  players r' = players r → currentPlayer r' = currentPlayer r →
  flipped r' = flipped r → cards r' = cards r →
  remaining (timer r') = remaining (timer r) →
  room_wf r → room_wf r'.
Proof.
  intros Hp Hcp Hf Hc Ht [H1 H2 H3 H4 H5 H6].
  split; rewrite ?Hp, ?Hcp, ?Hf, ?Hc, ?Ht; done.
Qed.

Lemma wf_checkGameOver r r' out :
  checkGameOver r = Done r' out → room_wf r → room_wf r'.
Proof.
  intros (Hc & Hf & Hp & _ & Hcp & Ht & _)%checkGameOver_frame.
  by apply wf_frame.
Qed.

Lemma wf_new rnd : room_wf (createNewGameState rnd).
Proof.
  split; unfold createNewGameState;
    cbn [players currentPlayer flipped cards timer remaining].
  - split; [cbn; lia|constructor].
  - by left.
  - split; [cbn; lia|]. split; [constructor|].
    intros i Hi. by apply elem_of_nil in Hi.
  - intros i c Hc Hm.
    assert (Hin : c ∈ shuffle rnd (push_pairs 0 ANIMALS))
      by by eapply list_elem_of_lookup_2.
    destruct (new_deck_ok rnd) as (_ & _ & Hall).
    destruct (Hall c Hin) as (_ & _ & Hm'). congruence.
  - rewrite shuffle_Permutation.
    assert (face_down <$> push_pairs 0 ANIMALS = push_pairs 0 ANIMALS) as ->
      by by vm_compute.
    done.
  - lia.
Qed.

Lemma wf_connection r sid pn :
  room_wf r → room_wf (connection r sid pn).1.
Proof.
  intros [[Hlen Hnd] H2 H3 H4 H5 H6].
  pose proof (connection_fields r sid pn) as Hf. cbn zeta in Hf.
  destruct Hf as (Hc & Hfl & Hcp & _ & Ht & Hpl & _).
  split; rewrite ?Hc, ?Hfl, ?Hcp, ?Ht; try done.
  destruct Hpl as [(-> & _)|(Hlt & Hnone & -> & _)]; [done|].
  split; [rewrite length_app; cbn; lia|].
  rewrite fmap_app. apply NoDup_app. split; [done|]. split.
  - intros x Hx [->|[]%elem_of_nil]%elem_of_cons.
    by apply find_player_None in Hnone.
  - apply NoDup_singleton.
Qed.

Lemma wf_rematch r sid cb rnd g out :
  rematch r sid cb rnd = (Some g, out) → room_wf r → room_wf g.
Proof.
  unfold rematch. case_bool_decide as Hlen; [done|]. intros [= <- _] Hwf.
  rewrite startTimer_eq.
  destruct (wf_new rnd) as [G1 G2 G3 G4 G5 G6]. split; try done.
  cbn. rewrite length_fmap. split; [by apply Hwf|].
  rewrite <- list_fmap_compose.
  change (id ∘ reset_player) with (id : Player → string). by apply Hwf.
Qed.

(** The room after the first lines of an accepted flip, when the key
    is not in [flipped] already (a key that is no index can be). *)
Lemma wf_reveal r idx card :
  room_wf r → card_at (cards r) idx = Some card →
  v_revealed card = false → v_matched card = false →
  (length (flipped r) < 2)%nat → idx ∉ flipped r → room_wf (reveal idx r).
Proof.
  intros [H1 H2 (Hlen & Hnd & Hfl) H4 H5 H6] Hc Hrev Hm Hlt Hnew.
  split; try done; cbn [reveal players currentPlayer flipped cards timer
                         set_flipped set_cards].
  - split; [rewrite length_app; cbn; lia|]. split.
    + apply NoDup_app. split; [done|]. split; [|apply NoDup_singleton].
      by intros k Hk [->|[]%elem_of_nil]%elem_of_cons.
    + intros i [Hi|Hi%list_elem_of_singleton]%elem_of_app.
      * destruct (Hfl i Hi) as (c & Hc' & Hr' & Hm').
        destruct (alter_at_revealed true idx (cards r) i c Hc')
          as (c' & Hl' & _ & _ & _ & Hmc & Hreq & Hrne).
        exists c'. split; [done|]. split; [|congruence].
        destruct (decide (idx = KIndex i)) as [Heq|Hne];
          [by apply Hreq|by rewrite Hrne].
      * subst idx. apply card_at_index in Hc as (c & Hc' & ->).
        exists (set_revealed true c). by rewrite alter_at_lookup_eq, Hc'.
  - intros i c Hi Hmc. destruct (decide (idx = KIndex i)) as [->|Hne].
    + apply card_at_index in Hc as (c0 & Hc0 & ->).
      rewrite alter_at_lookup_eq, Hc0 in Hi. cbn in Hi, Hm. by simplify_eq.
    + rewrite alter_at_lookup_ne in Hi by done. by eapply H4.
  - by rewrite face_down_alter.
Qed.

(** A key that the card guard lets through is not in [flipped] when
    it is the index of a card. *)
Lemma fresh_index r (i : nat) card :
  room_wf r → card_at (cards r) i = Some card → v_revealed card = false →
  KIndex i ∉ flipped r.
Proof.
  intros Hwf Hc Hrev Hin.
  destruct (wf_flipped r Hwf) as (_ & _ & Hfl).
  destruct (Hfl i Hin) as (c & Hc' & Hr' & _).
  apply card_at_index in Hc as (c0 & Hc0 & ->). cbn in Hrev. congruence.
Qed.

Lemma wf_award playerIndex (idxA idx : Key) player0 cardA card r :
  room_wf r → flipped r = [idxA] →
  card_at (cards r) idx = Some card → v_revealed card = false →
  players r !! playerIndex = Some player0 →
  room_wf (award playerIndex idxA idx player0 cardA (reveal idx r)).
Proof.
  intros [[Hlen Hnd] H2 (_ & _ & Hfl) H4 H5 H6] Hf Hc Hrev Hpl.
  split; try done;
    cbn [award reveal players currentPlayer flipped cards timer set_flipped
         log_unshift set_players set_cards].
  - split; [by rewrite length_insert|]. by rewrite (ids_insert _ _ player0).
  - split; [cbn; lia|]. split; [constructor|].
    intros i Hi. by apply elem_of_nil in Hi.
  - intros i c Hi Hmc.
    destruct (decide (idx = KIndex i)) as [->|Hne].
    + apply card_at_index in Hc as (c0 & Hc0 & ->).
      destruct (decide (idxA = KIndex i)) as [->|HneA].
      * rewrite !alter_at_lookup_eq, Hc0 in Hi. cbn in Hi. by simplify_eq.
      * rewrite (alter_at_lookup_ne _ idxA) in Hi by done.
        rewrite !alter_at_lookup_eq, Hc0 in Hi. cbn in Hi. by simplify_eq.
    + destruct (decide (idxA = KIndex i)) as [->|HneA].
      * destruct (Hfl i) as (cA & HcA & HrA & _); [rewrite Hf; by left|].
        rewrite alter_at_lookup_eq, !(alter_at_lookup_ne _ idx), HcA in Hi by done.
        cbn in Hi. by simplify_eq.
      * rewrite (alter_at_lookup_ne _ idxA) in Hi by done.
        rewrite !(alter_at_lookup_ne _ idx) in Hi by done. by eapply H4.
  - by rewrite !face_down_alter.
Qed.

Lemma wf_flip r sid idx cb r' s out :
  flip r sid idx cb = Done (r', s) out → room_wf r → room_wf r'.
Proof.
  intros H Hwf. apply flip_Done in H.
  destruct H as [(-> & _)|(Hg & pi & card & Hfi & _ & Hc & Hrev & Hm & Hcase)];
    [done|].
  destruct Hcase as [(Hf & -> & _)|(idxA & cardA & cardB & Hf & HA & HB & Hcase)].
  - eapply wf_reveal; eauto; rewrite Hf; [cbn; lia|apply not_elem_of_nil].
  - destruct Hcase as [(Hne & -> & _)|(_ & p0 & out5 & Hpl & Hck & _)].
    + destruct (flip_second_keys r idx idxA cardA cardB HA HB Hne) as [Hk _].
      eapply wf_reveal; eauto; rewrite Hf; [cbn; lia|].
      by intros [->|[]%elem_of_nil]%elem_of_cons.
    + cbn zeta in Hck. eapply wf_checkGameOver; [exact Hck|].
      eapply wf_frame; [..|by eapply (wf_award pi idxA idx p0 cardA card r)];
        done.
Qed.

Lemma wf_flipBack r idxA idxB :
  room_wf r → flipped r = [idxA; idxB] → room_wf (flipBack r idxA idxB).
Proof.
  intros [H1 H2 (_ & _ & Hfl) H4 H5 H6] Hf.
  split; try done;
    cbn [flipBack players currentPlayer flipped cards timer set_flipped
         log_unshift set_currentPlayer set_cards].
  - destruct H2 as [-> | ->]; [by right|by left].
  - split; [cbn; lia|]. split; [constructor|].
    intros i Hi. by apply elem_of_nil in Hi.
  - intros i c Hi Hmc.
    assert (Hup : ∀ k, k ∈ flipped r → k = KIndex i →
              ∃ c0, cards r !! i = Some c0 ∧ matched c0 = false).
    { intros k Hk ->. destruct (Hfl i Hk) as (c0 & Hc0 & _ & Hm0). eauto. }
    destruct (decide (idxA = KIndex i)) as [HeqA|HneA].
    + destruct (Hup idxA) as (c0 & Hc0 & Hm0); [rewrite Hf; by left|done|].
      destruct (alter_at_revealed false idxB (cards r) i c0 Hc0)
        as (c1 & Hc1 & _ & _ & _ & Hm1 & _).
      destruct (alter_at_revealed false idxA _ i c1 Hc1)
        as (c2 & Hc2 & _ & _ & _ & Hm2 & _).
      rewrite Hc2 in Hi. simplify_eq. congruence.
    + rewrite (alter_at_lookup_ne _ idxA) in Hi by done.
      destruct (decide (idxB = KIndex i)) as [HeqB|HneB].
      * destruct (Hup idxB) as (c0 & Hc0 & Hm0); [rewrite Hf; right; by left|done|].
        destruct (alter_at_revealed false idxB (cards r) i c0 Hc0)
          as (c1 & Hc1 & _ & _ & _ & Hm1 & _).
        rewrite Hc1 in Hi. simplify_eq. congruence.
      * rewrite alter_at_lookup_ne in Hi by done. by eapply H4.
  - by rewrite !face_down_alter.
Qed.

Lemma room_trans_wf r r' :
  room_trans r r' → room_ok r → room_wf r → room_wf r'.
Proof.
  intros Ht Hok Hwf.
  destruct Ht as [r|r sid n Hreg|r sid idx cb r' s out Hreg Hfl|r sid text cb
    |r sid text cb Hreg|r sid Hreg|r Hrun Hrem|r Hrun Hrem
    |r r' out Hrun Hrem Hck|r r' out Hck|r x y Hfl].
  - done.
  - by apply wf_connection.
  - by eapply wf_flip.
  - pose proof (askQuestion_fields r sid text cb) as Hf. cbn zeta in Hf.
    destruct Hf as (Hc & Hfl & Hcp & _ & Ht & Hpl).
    destruct Hpl as [[-> _]|(i & p & Hfind & Hpl & _)]; [done|].
    apply list_find_Some in Hfind as (Hl & _).
    destruct Hwf as [[Hlen Hnd] H2 H3 H4 H5 H6].
    split; rewrite ?Hc, ?Hfl, ?Hcp, ?Ht, ?Hpl; try done.
    split; [by rewrite length_insert|]. by rewrite (ids_insert _ _ p).
  - pose proof (answerQuestion_eq r sid text cb) as Hf. cbn zeta in Hf.
    destruct Hf as (_ & _ & Hc & Hpl & Hfl & Hcp & _ & Ht & _).
    by apply (wf_frame r).
  - pose proof (disconnect_fields r sid) as Hf. cbn zeta in Hf.
    destruct Hf as (Hc & Hfl & Hcp & Ht & Hpl).
    destruct Hpl as [[-> _]|(i & p & Hfind & Hpl & _)]; [done|].
    destruct Hwf as [[Hlen Hnd] H2 H3 H4 H5 H6].
    split; rewrite ?Hc, ?Hfl, ?Hcp, ?Ht, ?Hpl; try done.
    split.
    + pose proof (sublist_length _ _ (sublist_delete (players r) i)). lia.
    + eapply sublist_NoDup; [exact Hnd|].
      apply fmap_sublist, sublist_delete.
  - destruct Hok as (Hpos & _). specialize (Hpos Hrun).
    destruct Hwf as [H1 H2 H3 H4 H5 H6]. split; try done. cbn. lia.
  - destruct Hok as (Hpos & _). specialize (Hpos Hrun).
    destruct Hwf as [H1 H2 H3 H4 H5 H6]. split; try done. cbn. lia.
  - eapply wf_checkGameOver; [exact Hck|].
    destruct Hok as (Hpos & _). specialize (Hpos Hrun).
    destruct Hwf as [H1 H2 H3 H4 H5 H6]. split; try done. cbn. lia.
  - by eapply wf_checkGameOver.
  - by apply wf_flipBack.
Qed.

Lemma wf_fresh w g :
  (∀ a r, heap w !! a = Some r → room_wf r) → fresh_room w g → room_wf g.
Proof.
  intros Hall [(rnd & sid & pn & ->)|(a & r & sid & cb & rnd & out & Hl & Hrm)].
  - apply wf_connection, wf_new.
  - eapply wf_rematch; eauto.
Qed.

Lemma reachable_wf w a r : reachable w → heap w !! a = Some r → room_wf r.
Proof.
  intros Hw. revert a r.
  induction Hw as [|w i w' out Hw IH Hstep]; intros a r Hl; [done|].
  pose proof (reachable_ok w Hw) as Hok.
  destruct (step_sound w i w' out Hok Hstep) as [_ Htr].
  destruct (heap w !! a) as [r0|] eqn:Hl0.
  - destruct (Htr a r0 Hl0) as (r1 & Hl1 & Ht). simplify_eq.
    eapply room_trans_wf; [done| |by eapply IH].
    by eapply (ho_rooms w), Hl0; apply Hok.
  - destruct (step_heap w i w' out Hstep) as [Hlen|(g & Hh & Hfresh)].
    + apply lookup_ge_None in Hl0. apply lookup_lt_Some in Hl. lia.
    + rewrite Hh in Hl. apply lookup_app_Some in Hl as [Hl|[_ Hl]]; [congruence|].
      apply list_lookup_singleton_Some in Hl as [_ <-].
      by eapply wf_fresh.
Qed.

(** ** What a step never undoes *)

Lemma room_grows_refl r : room_grows r r.
Proof. split; [done|]. split; [done|lia]. Qed.

Lemma room_grows_trans r1 r2 r3 :
  room_grows r1 r2 → room_grows r2 r3 → room_grows r1 r3.
Proof.
  intros (H1 & H2 & H3) (G1 & G2 & G3). split; [congruence|].
  split; [by etrans|lia].
Qed.

Lemma room_grows_frame r r' :
  cards r' = cards r → remaining (timer r') = remaining (timer r) →
  (log r' = log r ∨ ∃ e, log r' = e :: log r) → room_grows r r'.
Proof.
  intros Hc Ht Hl. split; [by rewrite Hc|]. split; [|lia].
  destruct Hl as [->|[e ->]]; [done|]. by apply suffix_cons_r.
Qed.

Lemma checkGameOver_grows r r' out : checkGameOver r = Done r' out → room_grows r r'.
Proof.
  intros (Hc & _ & _ & Hl & _ & Ht & _)%checkGameOver_frame.
  apply room_grows_frame; eauto.
Qed.

(** No flip changes whose turn it is, the time left, who the players
    are or what they have asked; cards only change their flags. *)
Lemma flip_fields r sid idx cb r' s out :
  flip r sid idx cb = Done (r', s) out →
  currentPlayer r' = currentPlayer r ∧
  remaining (timer r') = remaining (timer r) ∧
  allowance <$> players r' = allowance <$> players r ∧
  room_grows r r'.
Proof.
  intros H. apply flip_Done in H.
  destruct H as [(-> & _)|(Hg & pi & card & Hfi & _ & Hc & Hrev & Hm & Hcase)].
  { split_and!; try done; apply room_grows_refl. }
  assert (Hrev1 : room_grows r (reveal idx r)).
  { split; [cbn; by rewrite face_down_alter|]. split; [done|cbn; lia]. }
  destruct Hcase as [(Hf & -> & _)|(idxA & cardA & cardB & Hf & _ & _ & Hcase)];
    [done|].
  destruct Hcase as [(_ & -> & _)|(_ & p0 & out5 & Hpl & Hck & _)]; [done|].
  cbn zeta in Hck.
  pose proof (checkGameOver_grows _ _ _ Hck) as Hgr.
  apply checkGameOver_frame in Hck as (_ & _ & Hp5 & _ & Hcp5 & Ht5 & _).
  split_and!; try done.
  - rewrite Hp5. cbn. rewrite list_fmap_insert. apply list_insert_id.
    by rewrite list_lookup_fmap, Hpl.
  - eapply room_grows_trans; [|exact Hgr]. split; [|split].
    + cbn. by rewrite !face_down_alter.
    + cbn. by apply suffix_cons_r.
    + cbn. lia.
Qed.

Lemma room_trans_grows r r' : room_trans r r' → room_ok r → room_grows r r'.
Proof.
  intros Ht Hok.
  destruct Ht as [r|r sid n Hreg|r sid idx cb r' s out Hreg Hfl|r sid text cb
    |r sid text cb Hreg|r sid Hreg|r Hrun Hrem|r Hrun Hrem
    |r r' out Hrun Hrem Hck|r r' out Hck|r x y Hfl].
  - apply room_grows_refl.
  - pose proof (connection_fields r sid n) as Hf. cbn zeta in Hf.
    destruct Hf as (Hc & _ & _ & _ & Ht & Hpl & _).
    apply room_grows_frame; try done.
    destruct Hpl as [(_ & -> & _)|(_ & _ & _ & ->)]; eauto.
  - by eapply flip_fields.
  - pose proof (askQuestion_fields r sid text cb) as Hf. cbn zeta in Hf.
    destruct Hf as (Hc & _ & _ & _ & Ht & Hpl).
    apply room_grows_frame; try done; [by rewrite Ht|].
    destruct Hpl as [[-> _]|(i & p & _ & _ & ->)]; eauto.
  - pose proof (answerQuestion_eq r sid text cb) as Hf. cbn zeta in Hf.
    destruct Hf as (_ & Hl & Hc & _ & _ & _ & _ & Ht & _).
    apply room_grows_frame; eauto.
  - pose proof (disconnect_fields r sid) as Hf. cbn zeta in Hf.
    destruct Hf as (Hc & _ & _ & Ht & Hpl).
    apply room_grows_frame; try done.
    destruct Hpl as [[-> _]|(i & p & _ & _ & -> & _)]; eauto.
  - split; [done|]. split; [done|cbn; lia].
  - split; [done|]. split; [cbn; by apply suffix_cons_r|cbn; lia].
  - eapply room_grows_trans; [|by eapply checkGameOver_grows].
    split; [done|]. split; [cbn; by apply suffix_cons_r|cbn; lia].
  - by eapply checkGameOver_grows.
  - split; [unfold flipBack; cbn; by rewrite !face_down_alter|].
    split; [cbn; by apply suffix_cons_r|cbn; lia].
Qed.

Lemma run_grows inputs w w' a r :
  world_ok w → run w inputs = Some w' → heap w !! a = Some r →
  ∃ r', heap w' !! a = Some r' ∧ room_grows r r'.
Proof.
  revert w r. induction inputs as [|i rest IH]; intros w r Hw; cbn.
  - intros [= <-] Hl. exists r. split; [done|apply room_grows_refl].
  - destruct (step w i) as [w1 o|o] eqn:Hs; [|done]. intros Hrun Hl.
    destruct (step_sound w i w1 o Hw Hs) as [Hw1 Htr].
    destruct (Htr a r Hl) as (r1 & Hl1 & Ht).
    destruct (IH w1 r1 Hw1 Hrun Hl1) as (r' & Hl' & Hgr).
    exists r'. split; [done|].
    eapply room_grows_trans; [|exact Hgr].
    eapply room_trans_grows; [done|]. by eapply (ho_rooms w), Hl; apply Hw.
Qed.

(** ** Invariants of every room object of a reachable world *)

(** X1. A room never has more than two players, and no two players of
    a room have the same socket id. *)
Theorem room_has_at_most_two_players w a r :
  reachable w → heap w !! a = Some r →
  (length (players r) ≤ 2)%nat ∧ NoDup (id <$> players r).
Proof. intros Hw Hl. by apply (reachable_wf w a r). Qed.

Lemma room_has_at_most_two_players_witness :
  (length (players room_two) ≤ 2)%nat ∧ NoDup (id <$> players room_two).
Proof.
  exact (room_has_at_most_two_players world_two 0 room_two
           world_two_reachable eq_refl).
Defined.

(** X2. [currentPlayer] is 0 or 1 in every room. *)
Theorem turn_is_zero_or_one w a r :
  reachable w → heap w !! a = Some r →
  currentPlayer r = 0 ∨ currentPlayer r = 1.
Proof. intros Hw Hl. by apply (reachable_wf w a r). Qed.

Lemma turn_is_zero_or_one_witness :
  currentPlayer room_pair = 0 ∨ currentPlayer room_pair = 1.
Proof.
  exact (turn_is_zero_or_one world_pair 0 room_pair world_pair_reachable eq_refl).
Defined.

(** X3. [flipped] holds at most two keys and no key twice, and every
    index of a card in it is the index of a card that is face up and not
    matched. (A key in [flipped] need not be an index: the handler takes
    ['length'] for a card.) *)
Theorem flipped_cards_are_face_up w a r :
  reachable w → heap w !! a = Some r →
  (length (flipped r) ≤ 2)%nat ∧ NoDup (flipped r) ∧
  ∀ i : nat, KIndex i ∈ flipped r →
    ∃ c, cards r !! i = Some c ∧ revealed c = true ∧ matched c = false.
Proof. intros Hw Hl. by apply (reachable_wf w a r). Qed.

Lemma flipped_cards_are_face_up_witness :
  ∃ r, heap world_miss !! 0%nat = Some r ∧
       flipped r = [KIndex 1; KIndex 3] ∧
       NoDup (flipped r) ∧
       ∃ c, cards r !! 3%nat = Some c ∧ revealed c = true ∧ matched c = false.
Proof.
  eexists. split; [reflexivity|]. split; [reflexivity|].
  destruct (flipped_cards_are_face_up world_miss 0 _ world_miss_reachable eq_refl)
    as (_ & Hnd & Hall).
  split; [exact Hnd|]. apply Hall. right. left.
Defined.

(** X4. A matched card is face up. *)
Theorem matched_cards_stay_face_up w a r i c :
  reachable w → heap w !! a = Some r →
  cards r !! i = Some c → matched c = true → revealed c = true.
Proof. intros Hw Hl. by apply (reachable_wf w a r). Qed.

Lemma matched_cards_stay_face_up_witness :
  revealed (mkCard 1 "elephant" "🐘" true true) = true.
Proof.
  exact (matched_cards_stay_face_up world_pair 0 room_pair 1
           (mkCard 1 "elephant" "🐘" true true)
           world_pair_reachable eq_refl eq_refl eq_refl).
Defined.

Lemma count_pair_face_down p (l : list Card) :
  count_pair p (face_down <$> l) = count_pair p l.
Proof.
  unfold count_pair. induction l as [|c l IH]; [done|].
  rewrite fmap_cons, !filter_cons. cbn [pairId face_down].
  destruct (decide (pairId c = p)); cbn; by rewrite IH.
Qed.

(** X5. The deck of every room is, up to the two flags of each card,
    a rearrangement of the 20 generated cards: 20 cards, every pair id of
    0..9 twice. Over any run the cards of a room object stay at their
    places; only their flags change. *)
Theorem deck_keeps_its_pairs w a r :
  reachable w → heap w !! a = Some r →
  face_down <$> cards r ≡ₚ push_pairs 0 ANIMALS ∧
  length (cards r) = 20%nat ∧
  (∀ p, (p < 10)%nat → count_pair p (cards r) = 2%nat) ∧
  (∀ inputs w', run w inputs = Some w' →
     ∃ r', heap w' !! a = Some r' ∧
       face_down <$> cards r' = face_down <$> cards r).
Proof.
  intros Hw Hl. pose proof (wf_deck r (reachable_wf w a r Hw Hl)) as Hdeck.
  destruct fresh_deck_ok as (Hlen & Hcnt & _).
  split; [done|]. split; [|split].
  - rewrite <- Hlen, <- Hdeck. by rewrite length_fmap.
  - intros p Hp. rewrite <- count_pair_face_down. unfold count_pair.
    rewrite Hdeck. by apply Hcnt.
  - intros inputs w' Hrun.
    destruct (run_grows inputs w w' a r (reachable_ok w Hw) Hrun Hl)
      as (r' & Hl' & Hgr & _).
    by exists r'.
Qed.

Lemma deck_keeps_its_pairs_witness :
  count_pair 1 (cards room_pair) = 2%nat ∧
  ∃ r', heap (default world_pair (run world_pair [InFlip "A" 0 true])) !! 0%nat
          = Some r' ∧
        face_down <$> cards r' = face_down <$> cards room_pair.
Proof.
  destruct (deck_keeps_its_pairs world_pair 0 room_pair
              world_pair_reachable eq_refl) as (_ & _ & Hcnt & Hrun).
  split.
  - apply Hcnt. apply Nat.ltb_lt. reflexivity.
  - exact (Hrun [InFlip "A" 0%nat true] _ eq_refl).
Defined.

(** X6. The time left of a room is between 0 and 180; while the timer
    runs it is at least 1 and the game is not over; over any run it never
    goes up. *)
Theorem remaining_time_in_bounds w a r :
  reachable w → heap w !! a = Some r →
  0 ≤ remaining (timer r) ≤ 180 ∧
  (running (timer r) = true → 1 ≤ remaining (timer r) ∧ gameOver r = false) ∧
  (∀ inputs w', run w inputs = Some w' →
     ∃ r', heap w' !! a = Some r' ∧ remaining (timer r') ≤ remaining (timer r)).
Proof.
  intros Hw Hl. pose proof (reachable_ok w Hw) as Hok.
  destruct (ho_rooms w (proj1 Hok) a r Hl) as (Hpos & Hstop & _).
  split; [by apply (reachable_wf w a r)|]. split.
  - intros Hrun. split; [specialize (Hpos Hrun); lia|].
    destruct (gameOver r); [|done]. specialize (Hstop eq_refl). congruence.
  - intros inputs w' Hrun.
    destruct (run_grows inputs w w' a r Hok Hrun Hl) as (r' & Hl' & _ & _ & Hle).
    by exists r'.
Qed.

Lemma remaining_time_in_bounds_witness :
  0 ≤ remaining (timer room_last_second) ≤ 180 ∧
  ∃ r', heap (default world_last_second (run world_last_second [InTick 0]))
          !! 0%nat = Some r' ∧
        remaining (timer r') ≤ remaining (timer room_last_second) ∧
        remaining (timer r') = 0.
Proof.
  destruct (remaining_time_in_bounds world_last_second 0 room_last_second
              world_last_second_reachable eq_refl) as (Hb & _ & Hrun).
  split; [exact Hb|].
  destruct (Hrun [InTick 0%nat] _ eq_refl) as (r' & Hl & Hle).
  exists r'. split; [exact Hl|]. split; [exact Hle|].
  injection Hl as <-. reflexivity.
Defined.

(** X7. The log of a room only grows at its front: over any run the
    old log is the tail of the new one. *)
Theorem log_only_grows w a r inputs w' :
  reachable w → heap w !! a = Some r → run w inputs = Some w' →
  ∃ r', heap w' !! a = Some r' ∧ log r `suffix_of` log r'.
Proof.
  intros Hw Hl Hrun.
  destruct (run_grows inputs w w' a r (reachable_ok w Hw) Hrun Hl)
    as (r' & Hl' & _ & Hsuf & _).
  by exists r'.
Qed.

Lemma log_only_grows_witness :
  ∃ r', heap (default world_two
                (run world_two [InAskQuestion "A" "why" true; InDisconnect "B"]))
          !! 0%nat = Some r' ∧
        log room_two `suffix_of` log r'.
Proof.
  exact (log_only_grows world_two 0 room_two
           [InAskQuestion "A" "why" true; InDisconnect "B"] _
           world_two_reachable eq_refl eq_refl).
Defined.

(** ** The timer switches *)

(** X8. Pausing twice is pausing once, and the second pause emits
    nothing; starting twice is starting once; resuming is starting;
    pausing a started timer stops it and emits ['timerPaused']; none of
    them changes the time left. *)
Theorem timer_switches_compose r :
  pauseTimer (pauseTimer r).1 = ((pauseTimer r).1, []) ∧
  startTimer (startTimer r) = startTimer r ∧
  resumeTimer r = startTimer r ∧
  pauseTimer (startTimer r) = (stopped r, [ToRoom EvTimerPaused]) ∧
  startTimer (pauseTimer r).1 = startTimer r ∧
  remaining (timer (startTimer r)) = remaining (timer r) ∧
  remaining (timer (pauseTimer r).1) = remaining (timer r).
Proof.
  rewrite resumeTimer_eq, pauseTimer_fst, !startTimer_eq.
  unfold pauseTimer, stopped, started. cbn. split_and!; done.
Qed.

(** ** Disconnect *)

(** X9. A disconnect of a socket that is not a player of the registered
    room (or when there is no room) changes nothing and sends nothing. *)
Theorem disconnect_by_stranger w sid :
  (∀ a room, registered w = Some (a, room) →
     find_player sid (players room) = None) →
  step w (InDisconnect sid) = Done w [].
Proof.
  intros Hnone. cbn [step]. unfold on_registered.
  destruct (registered w) as [[a room]|] eqn:Hreg; [|done].
  pose proof (disconnect_fields room sid) as Hf. cbn zeta in Hf.
  destruct Hf as (_ & _ & _ & _ & [[-> _]|(i & p & Hfind & _)]).
  - apply registered_Some in Hreg as [_ Hl].
    unfold store. cbn. by rewrite list_insert_id, world_eta.
  - specialize (Hnone a room eq_refl). unfold find_player in Hnone.
    by rewrite Hfind in Hnone.
Qed.

Lemma disconnect_by_stranger_witness :
  step world_two (InDisconnect "Z") = Done world_two [] ∧
  step initial (InDisconnect "A") = Done initial [].
Proof.
  split.
  - apply disconnect_by_stranger. intros a room H.
    vm_compute in H. injection H as _ <-. reflexivity.
  - apply disconnect_by_stranger. intros a room H. discriminate H.
Defined.

(** X10. When a player disconnects, that player is taken out of the
    list, the timer is stopped and, as a room has at most two players,
    the game is over; the room leaves the registry exactly when the
    player was alone. Cards, [flipped] and the turn stay as they are. *)
Theorem disconnect_ends_the_game w a room sid i p :
  reachable w → registered w = Some (a, room) →
  list_find (λ p, id p = sid) (players room) = Some (i, p) →
  ∃ room',
    step w (InDisconnect sid) =
      Done (mkWorld (<[a:=room']> (heap w))
              (if bool_decide (length (players room) = 1%nat) then None else Some a)
              (timeouts w))
        ((if running (timer room) then [ToRoom EvTimerPaused] else [])
           ++ broadcastState room') ∧
    players room' = delete i (players room) ∧
    (length (players room') < 2)%nat ∧
    gameOver room' = true ∧ running (timer room') = false ∧
    log room' = LogInfo (name p +:+ " has disconnected.") :: log room ∧
    cards room' = cards room ∧ flipped room' = flipped room ∧
    currentPlayer room' = currentPlayer room.
Proof.
  intros Hw Hreg Hfind.
  pose proof Hreg as [Hra Hl]%registered_Some.
  destruct (wf_players room (reachable_wf w a room Hw Hl)) as [Hlen _].
  pose proof Hfind as (Hi & _)%list_find_Some.
  assert (Hdel : length (delete i (players room)) = (length (players room) - 1)%nat)
    by (apply length_delete; eauto).
  pose proof (lookup_lt_Some _ _ _ Hi) as Hlt.
  pose proof (disconnect_fields room sid) as Hf. cbn zeta in Hf.
  destruct Hf as (Hc & Hfl & Hcp & _ & [[Heq Hnone]|Hf]).
  { unfold find_player in Hnone. by rewrite Hfind in Hnone. }
  destruct Hf as (i' & p' & Hfind' & Hpl & Hlog & Hrun & Hg & Hd & Hout).
  rewrite Hfind in Hfind'. simplify_eq.
  exists (disconnect room sid).1.1. split_and!; try done.
  - cbn [step]. unfold on_registered. rewrite Hreg.
    destruct (disconnect room sid) as [[r' d] o]. cbn [fst snd] in *.
    subst d o. rewrite Hra. do 2 f_equal.
    rewrite Hpl, Hdel. repeat case_bool_decide; try done; lia.
  - rewrite Hpl. lia.
  - rewrite Hg, bool_decide_true, orb_true_r; [done|]. rewrite Hpl. lia.
Qed.

Lemma disconnect_ends_the_game_witness :
  ∃ room',
    step world_two (InDisconnect "B") =
      Done (mkWorld (<[0%nat:=room']> (heap world_two)) (Some 0%nat) [])
        ([ToRoom EvTimerPaused] ++ broadcastState room') ∧
    (name <$> players room') = ["Ann"] ∧ gameOver room' = true.
Proof.
  destruct (disconnect_ends_the_game world_two 0 room_two "B" 1
              (mkPlayer "B" "Bob" 0 0 0 0) world_two_reachable eq_refl eq_refl)
    as (room' & Hstep & Hpl & _ & Hg & _).
  exists room'. split; [exact Hstep|]. split; [|exact Hg].
  rewrite Hpl. reflexivity.
Defined.

(** ** Connection *)

(** X11. A connection to an existing room: the socket becomes a player,
    with all counters at 0, exactly when the room has fewer than two
    players and the socket is not one of them; otherwise players and log
    stay as they are. Cards, [flipped], turn, [gameOver] and the time left
    are never touched. Afterwards the timer runs if and only if it ran
    before or the room now has two players and the game is not over. The
    socket is told its room and the state goes to the whole room. *)
Theorem connection_joins_or_watches w a room sid pn rnd :
  registered w = Some (a, room) →
  ∃ room',
    step w (InConnection sid pn rnd) =
      Done (store a room' w)
        ([ToSocket sid (EvRoomAssigned "default")] ++ broadcastState room') ∧
    cards room' = cards room ∧ flipped room' = flipped room ∧
    currentPlayer room' = currentPlayer room ∧ gameOver room' = gameOver room ∧
    remaining (timer room') = remaining (timer room) ∧
    ((2 ≤ length (players room))%nat ∨ find_player sid (players room) ≠ None →
       players room' = players room ∧ log room' = log room) ∧
    ((length (players room) < 2)%nat → find_player sid (players room) = None →
       players room' = players room ++ [mkPlayer sid pn 0 0 0 0] ∧
       log room' = LogInfo (pn +:+ " has joined.") :: log room) ∧
    (running (timer room') = true ↔
       running (timer room) = true ∨
       (length (players room') = 2%nat ∧ gameOver room = false)).
Proof.
  intros Hreg. exists (connection room sid pn).1.
  pose proof (connection_fields room sid pn) as Hf. cbn zeta in Hf.
  destruct Hf as (Hc & Hfl & Hcp & Hg & Ht & Hpl & Hrun).
  split_and!; try done.
  - cbn [step]. rewrite Hreg. unfold connection. done.
  - intros Hfull. destruct Hpl as [(? & ? & _)|(Hlt & Hnone & _)]; [done|].
    destruct Hfull; [lia|done].
  - intros Hlt Hnone. destruct Hpl as [(_ & _ & [?|?])|(_ & _ & ? & ?)];
      [lia|done|done].
Qed.

Lemma connection_joins_or_watches_witness :
  ∃ room',
    step world_two (InConnection "C" "Cy" rnd0) =
      Done (store 0 room' world_two)
        ([ToSocket "C" (EvRoomAssigned "default")] ++ broadcastState room') ∧
    players room' = players room_two.
Proof.
  destruct (connection_joins_or_watches world_two 0 room_two "C" "Cy" rnd0 eq_refl)
    as (room' & Hstep & _ & _ & _ & _ & _ & Hfull & _).
  exists room'. split; [exact Hstep|]. apply Hfull. left. apply Nat.leb_le. reflexivity.
Defined.

(** X12. A connection when no room is registered creates the room: a
    fresh shuffled deck, the socket as its only player, nothing flipped,
    player 0 to move, 180 seconds on a timer that does not run yet, the
    game not over. *)
Theorem first_connection_creates_room w sid pn rnd :
  registry w = None →
  ∃ g,
    step w (InConnection sid pn rnd) =
      Done (mkWorld (heap w ++ [g]) (Some (length (heap w))) (timeouts w))
        ([ToSocket sid (EvRoomAssigned "default")] ++ broadcastState g) ∧
    players g = [mkPlayer sid pn 0 0 0 0] ∧
    cards g = shuffle rnd (push_pairs 0 ANIMALS) ∧ deck_ok (cards g) ∧
    timer g = mkTimer 180 false ∧ gameOver g = false ∧
    flipped g = [] ∧ currentPlayer g = 0 ∧
    log g = [LogInfo (pn +:+ " has joined.")].
Proof.
  intros Hnone. exists (connection (createNewGameState rnd) sid pn).1.
  assert (Hreg : registered w = None) by (unfold registered; by rewrite Hnone).
  split.
  - cbn [step]. rewrite Hreg. unfold connection. done.
  - unfold connection, createNewGameState. cbn. split_and!; try done.
    apply (new_deck_ok rnd).
Qed.

Lemma first_connection_creates_room_witness :
  ∃ g,
    step initial (InConnection "A" "Ann" rnd0) =
      Done (mkWorld [g] (Some 0%nat) [])
        ([ToSocket "A" (EvRoomAssigned "default")] ++ broadcastState g) ∧
    (name <$> players g) = ["Ann"] ∧ timer g = mkTimer 180 false.
Proof.
  destruct (first_connection_creates_room initial "A" "Ann" rnd0 eq_refl)
    as (g & Hstep & Hpl & _ & _ & Ht & _).
  exists g. split; [exact Hstep|]. split; [|exact Ht].
  rewrite Hpl. reflexivity.
Defined.

(** ** Flips *)

(** X13. While the game is not over: a flip from a socket that is not
    the player to move is answered with 'Not your turn.' and changes
    nothing; a flip of the player to move at an index past the deck, at a
    card that is face up or matched, or with two cards already up, is
    dropped without an answer and changes nothing. *)
Theorem flip_refusals room sid (idx : nat) cb :
  gameOver room = false →
  ((∀ i, findIndex sid (players room) = Some i → currentPlayer room ≠ Z.of_nat i) →
     flip room sid idx cb =
       Done (room, None) (ack cb sid (AckError "Not your turn."))) ∧
  (∀ i, findIndex sid (players room) = Some i →
     currentPlayer room = Z.of_nat i →
     (length (cards room) ≤ idx)%nat ∨
     (∃ c, cards room !! idx = Some c ∧ (revealed c = true ∨ matched c = true)) ∨
     (2 ≤ length (flipped room))%nat →
     flip room sid idx cb = Done (room, None) []).
Proof.
  intros Hg. split.
  - intros Hturn. unfold flip. rewrite Hg.
    destruct (findIndex sid (players room)) as [i|]; [|done].
    specialize (Hturn i eq_refl). apply Z.eqb_neq in Hturn. by rewrite Hturn.
  - intros i Hfi Hcp Hcase. unfold flip.
    rewrite Hg, Hfi, Hcp, Z.eqb_refl. cbn [negb card_at].
    destruct Hcase as [Hlen|[(c & Hc & Hup)|Hfull]].
    + apply lookup_ge_None in Hlen. by rewrite Hlen.
    + rewrite Hc. cbn [fmap option_fmap option_map v_revealed v_matched].
      destruct Hup as [-> | ->]; by rewrite ?orb_true_r.
    + destruct (cards room !! idx) as [c|]; [|done].
      cbn [fmap option_fmap option_map].
      apply Nat.leb_le in Hfull. by rewrite Hfull, orb_true_r.
Qed.

Lemma flip_refusals_witness :
  flip room_one_up "B" 5 true =
    Done (room_one_up, None) [Ack "B" (AckError "Not your turn.")] ∧
  flip room_one_up "A" 20 true = Done (room_one_up, None) [] ∧
  flip room_one_up "A" 1 true = Done (room_one_up, None) [].
Proof.
  destruct (flip_refusals room_one_up "B" 5 true eq_refl) as [Hturn _].
  destruct (flip_refusals room_one_up "A" 20 true eq_refl) as [_ Hpast].
  destruct (flip_refusals room_one_up "A" 1 true eq_refl) as [_ Hup].
  split; [|split].
  - apply Hturn. intros i H. injection H as <-. intros H; discriminate H.
  - apply (Hpast 0%nat eq_refl eq_refl). left. apply Nat.leb_le. reflexivity.
  - apply (Hup 0%nat eq_refl eq_refl). right. left.
    exists (mkCard 1 "elephant" "🐘" true false). split; [reflexivity|].
    left. reflexivity.
Defined.

(** X14. The first valid flip of a turn turns that card face up, puts
    its index into [flipped], sends the state and the acknowledgement,
    and does nothing else. *)
Theorem first_flip_reveals room sid (idx : nat) cb i card :
  gameOver room = false →
  findIndex sid (players room) = Some i → currentPlayer room = Z.of_nat i →
  cards room !! idx = Some card → revealed card = false → matched card = false →
  flipped room = [] →
  ∃ room',
    flip room sid idx cb =
      Done (room', None) (broadcastState room' ++ ack cb sid AckOk) ∧
    cards room' = <[idx:=set_revealed true card]> (cards room) ∧
    flipped room' = [KIndex idx] ∧
    players room' = players room ∧ currentPlayer room' = currentPlayer room ∧
    timer room' = timer room ∧ log room' = log room ∧ gameOver room' = false.
Proof.
  intros Hg Hfi Hcp Hc Hrev Hm Hf. exists (reveal idx room).
  split.
  - unfold flip. rewrite Hg, Hfi, Hcp, Z.eqb_refl. cbn [negb].
    cbn [card_at]. rewrite Hc. cbn [fmap option_fmap option_map v_revealed v_matched].
    rewrite Hrev, Hm.
    assert ((2 <=? length (flipped room))%nat = false) as -> by by rewrite Hf.
    cbn [orb]. fold (reveal idx room).
    change (flipped (reveal idx room)) with (flipped room ++ [KIndex idx]).
    by rewrite Hf.
  - unfold reveal. cbn. rewrite Hf. split_and!; try done.
    apply list_eq. intros j. destruct (decide (idx = j)) as [->|Hne].
    + rewrite list_lookup_alter_eq, Hc.
      rewrite list_lookup_insert_eq; [done|]. by eapply lookup_lt_Some.
    + by rewrite list_lookup_alter_ne, list_lookup_insert_ne.
Qed.

Lemma first_flip_reveals_witness :
  ∃ room',
    flip room_two "A" 1 true =
      Done (room', None) (broadcastState room' ++ [Ack "A" AckOk]) ∧
    flipped room' = [KIndex 1].
Proof.
  destruct (first_flip_reveals room_two "A" 1 true 0
              (mkCard 1 "elephant" "🐘" false false)
              eq_refl eq_refl eq_refl eq_refl eq_refl eq_refl eq_refl)
    as (room' & Hflip & _ & Hf & _).
  exists room'. split; [exact Hflip|exact Hf].
Defined.

(** X15. No flip, accepted or not, changes whose turn it is (after a
    pair the same player moves again), the time left, the players' ids,
    names, [asked] and [extra], or the place, pair id, animal and emoji of
    any card; and it takes nothing from the log. *)
Theorem flip_keeps_turn room sid idx cb room' s out :
  flip room sid idx cb = Done (room', s) out →
  currentPlayer room' = currentPlayer room ∧
  remaining (timer room') = remaining (timer room) ∧
  allowance <$> players room' = allowance <$> players room ∧
  face_down <$> cards room' = face_down <$> cards room ∧
  log room `suffix_of` log room'.
Proof.
  intros H. destruct (flip_fields _ _ _ _ _ _ _ H) as (Hcp & Ht & Hal & Hc & Hl & _).
  done.
Qed.

Lemma flip_keeps_turn_witness :
  ∃ room' out,
    flip room_one_up "A" 2 true = Done (room', None) out ∧
    currentPlayer room' = currentPlayer room_one_up.
Proof.
  eexists _, _. split; [vm_compute; reflexivity|].
  refine (proj1 (flip_keeps_turn room_one_up "A" 2 true _ None _ _)).
  vm_compute. reflexivity.
Defined.

(** ** The evaluator with a player missing *)

Lemma checkGameOver_Crash room :
  (∃ out, checkGameOver room = Crash out) ↔
  gameOver room = false ∧
  (matches_or0 (players room !! 0%nat) + matches_or0 (players room !! 1%nat) = 10
   ∨ remaining (timer room) ≤ 0) ∧
  (players room !! 0%nat = None ∨ players room !! 1%nat = None).
Proof.
  unfold checkGameOver.
  destruct (gameOver room) eqn:Hg.
  { split; [by intros [out [=]]|by intros [[=] _]]. }
  destruct (_ =? 10) eqn:Ht; [apply Z.eqb_eq in Ht|apply Z.eqb_neq in Ht].
  - destruct (pauseTimer room) as [r1 o1].
    destruct (players room !! 0%nat) as [p0|], (players room !! 1%nat) as [p1|].
    + split; [by intros [out [=]]|by intros (_ & _ & [[=]|[=]])].
    + split; [intros _; split_and!; [done|by left|by right]|intros _; eauto].
    + split; [intros _; split_and!; [done|by left|by left]|intros _; eauto].
    + split; [intros _; split_and!; [done|by left|by left]|intros _; eauto].
  - destruct (remaining (timer room) <=? 0) eqn:Hr;
      [apply Z.leb_le in Hr|apply Z.leb_gt in Hr].
    + destruct (players room !! 0%nat) as [p0|], (players room !! 1%nat) as [p1|].
      * split; [|by intros (_ & _ & [[=]|[=]])].
        destruct (matches p0 =? matches p1), (matches p0 >? matches p1),
          (matches p1 >? matches p0); by intros [out [=]].
      * split; [intros _; split_and!; [done|by right|by right]|intros _; eauto].
      * split; [intros _; split_and!; [done|by right|by left]|intros _; eauto].
      * split; [intros _; split_and!; [done|by right|by left]|intros _; eauto].
    + split; [by intros [out [=]]|]. intros (_ & [?|?] & _); [done|lia].
Qed.

(** X16. The end-of-game evaluator throws exactly when the game is not
    yet marked over, the match counts add up to 10 or no time is left,
    and one of the two players is missing. *)
Theorem evaluator_throws_iff room :
  (∃ out, checkGameOver room = Crash out) ↔
  gameOver room = false ∧
  (matches_or0 (players room !! 0%nat) + matches_or0 (players room !! 1%nat) = 10
   ∨ remaining (timer room) ≤ 0) ∧
  (players room !! 0%nat = None ∨ players room !! 1%nat = None).
Proof. apply checkGameOver_Crash. Qed.

(** X17. A player who is alone in the room is served flips. When such
    a player has nine pairs and turns the second card of the tenth, the
    flip handler throws in the evaluator: the server dies. *)
Theorem lone_player_finishing_crashes w a room sid (idx : nat) cb p0 card
    (idxA : nat) cardA :
  registered w = Some (a, room) → gameOver room = false →
  players room = [p0] → id p0 = sid → matches p0 = 9 →
  currentPlayer room = 0 →
  cards room !! idx = Some card → revealed card = false → matched card = false →
  flipped room = [KIndex idxA] → cards room !! idxA = Some cardA →
  pairId cardA = pairId card →
  ∃ out, step w (InFlip sid idx cb) = Crash out.
Proof.
  intros Hreg Hg Hpl Hid Hm9 Hcp Hc Hrev Hm Hf HA Hpair.
  assert (Hfind : list_find (λ p, id p = sid) (players room) = Some (0%nat, p0)).
  { rewrite Hpl. cbn. by rewrite decide_True. }
  cbn [step]. unfold on_registered. rewrite Hreg.
  rewrite (flip_match_eq room sid idx cb 0 p0 card cardA idxA) by done.
  cbn zeta.
  destruct (proj2 (checkGameOver_Crash
                     (stopped (award 0 idxA idx p0 cardA (reveal idx room)))))
    as [out5 ->]; [|eauto].
  cbn. rewrite Hpl. cbn. split_and!; [done|left; lia|by right].
Qed.

Lemma lone_player_finishing_crashes_witness :
  reachable world_lone ∧
  ∃ out, step world_lone (InFlip "A" 18 true) = Crash out.
Proof.
  split; [exact world_lone_reachable|].
  apply (lone_player_finishing_crashes world_lone 0 room_lone "A" 18 true
           (mkPlayer "A" "Ann" 9 0 0 0)
           (mkCard 9 "bear" "🐻" false false) 17
           (mkCard 9 "bear" "🐻" true false));
    reflexivity.
Defined.

(** ** Closures of a room that is no longer registered *)

(** X18. The rematch handler does not stop the timer of the room it
    replaces: if that timer was running, its interval goes on, and every
    tick still sends the old countdown to the room. *)
Theorem rematch_leaves_old_clock_ticking w a room sid cb rnd p0 p1 :
  registered w = Some (a, room) → players room = [p0; p1] →
  running (timer room) = true → 1 < remaining (timer room) →
  ∃ w1 out,
    step w (InRematch sid cb rnd) = Done w1 out ∧
    registry w1 = Some (length (heap w)) ∧ a ≠ length (heap w) ∧
    heap w1 !! a = Some room ∧
    step w1 (InTick a) =
      Done (store a (ticked room) w1)
        [ToRoom (EvTimer (remaining (timer room) - 1))].
Proof.
  intros Hreg Hpl Hrun Hrem.
  pose proof Hreg as [Hra Hl]%registered_Some.
  pose proof (lookup_lt_Some _ _ _ Hl) as Hlt.
  destruct (rematch room sid cb rnd) as [[g|] o] eqn:Hrm.
  2:{ unfold rematch in Hrm. rewrite Hpl in Hrm. by cbn in Hrm. }
  eexists _, o. split; [cbn [step]; by rewrite Hreg, Hrm|].
  cbn [registry heap]. split; [done|]. split; [lia|].
  assert (Hl1 : (heap w ++ [g]) !! a = Some room) by by apply lookup_app_l_Some.
  split; [done|].
  cbn [step]. unfold tick. cbn [heap]. rewrite Hl1, Hrun. cbn [negb].
  destruct (remaining (timer room) - 1 <=? 0) eqn:Hle; [apply Z.leb_le in Hle; lia|].
  done.
Qed.

Lemma rematch_leaves_old_clock_ticking_witness :
  ∃ w1 out,
    step world_two (InRematch "A" true rnd0) = Done w1 out ∧
    registry w1 = Some 1%nat ∧
    step w1 (InTick 0) = Done (store 0 (ticked room_two) w1) [ToRoom (EvTimer 179)].
Proof.
  destruct (rematch_leaves_old_clock_ticking world_two 0 room_two "A" true rnd0
              (mkPlayer "A" "Ann" 0 0 0 0) (mkPlayer "B" "Bob" 0 0 0 0)
              eq_refl eq_refl eq_refl eq_refl)
    as (w1 & out & Hstep & Hreg & _ & _ & Htick).
  exists w1, out. split; [exact Hstep|]. split; [exact Hreg|exact Htick].
Defined.

(** X19. A flip-back that was scheduled in a room which is no longer
    the registered one turns the cards of its own room object back and
    leaves the registered room as it is; what it broadcasts is the state
    of the registered room. *)
Theorem stale_flip_back_spares_new_room w k p a room :
  reachable w → timeouts w !! k = Some p →
  registered w = Some (a, room) → pd_room p ≠ a →
  ∃ old,
    heap w !! pd_room p = Some old ∧
    step w (InTimeout k) =
      Done (mkWorld (<[pd_room p:=flipBack old (pd_idxA p) (pd_idxB p)]> (heap w))
              (Some a) (delete k (timeouts w)))
        (broadcastState room) ∧
    <[pd_room p:=flipBack old (pd_idxA p) (pd_idxB p)]> (heap w) !! a = Some room.
Proof.
  intros Hw Hk Hreg Hne.
  pose proof Hreg as [Hra Hl]%registered_Some.
  destruct (reachable_ok w Hw) as [Hok _].
  destruct (ho_pending w Hok p) as (old & Hold & _); [by eapply list_elem_of_lookup_2|].
  exists old. split; [done|].
  assert (Hl' : <[pd_room p:=flipBack old (pd_idxA p) (pd_idxB p)]> (heap w) !! a
                = Some room) by by rewrite list_lookup_insert_ne.
  split; [|done].
  cbn [step]. unfold fire. rewrite Hk, Hold. rewrite Hra.
  unfold broadcastState_id, registered. cbn [registry heap]. by rewrite Hl'.
Qed.

Lemma world_miss_rematch_reachable : reachable world_miss_rematch.
Proof.
  apply (run_reachable world_miss [InRematch "B" true rnd0]);
    [exact world_miss_reachable|by vm_compute].
Qed.

Lemma stale_flip_back_spares_new_room_witness :
  ∃ old room w',
    heap world_miss_rematch !! 0%nat = Some old ∧
    registered world_miss_rematch = Some (1%nat, room) ∧
    step world_miss_rematch (InTimeout 0) = Done w' (broadcastState room) ∧
    heap w' !! 1%nat = Some room ∧ timeouts w' = [].
Proof.
  assert (Hreg : registered world_miss_rematch = Some (1%nat, room_miss_rematch))
    by (vm_compute; reflexivity).
  assert (Hk : timeouts world_miss_rematch !! 0%nat = Some (mkPending 0 1 3))
    by (vm_compute; reflexivity).
  assert (Hne : pd_room (mkPending 0 1 3) ≠ 1%nat) by (intros H; discriminate H).
  destruct (stale_flip_back_spares_new_room world_miss_rematch 0
              (mkPending 0 1 3) 1 room_miss_rematch
              world_miss_rematch_reachable Hk Hreg Hne)
    as (old & Hold & Hstep & Hl).
  eexists old, room_miss_rematch, _. split; [exact Hold|]. split; [exact Hreg|].
  split; [exact Hstep|]. split; [exact Hl|reflexivity].
Defined.

(** ** Questions *)

(** X20. A served question costs the asker exactly one question and
    changes nothing else about any player. *)
Theorem askQuestion_costs_one room sid text cb i p :
  list_find (λ p, id p = sid) (players room) = Some (i, p) →
  ∃ p',
    players (askQuestion room sid text cb).1 !! i = Some p' ∧
    questionsLeft p' = questionsLeft p - 1 ∧
    id p' = id p ∧ name p' = name p ∧ matches p' = matches p ∧
    extra p' = extra p ∧
    ∀ j, j ≠ i →
      players (askQuestion room sid text cb).1 !! j = players room !! j.
Proof.
  intros Hfind. pose proof Hfind as (Hl & _)%list_find_Some.
  exists (set_asked (asked p + 1) p).
  unfold askQuestion. rewrite Hfind. cbn. split_and!; try done.
  - rewrite list_lookup_insert_eq; [done|]. by eapply lookup_lt_Some.
  - unfold questionsLeft. cbn. lia.
  - intros j Hj. by rewrite list_lookup_insert_ne.
Qed.

Lemma askQuestion_costs_one_witness :
  ∃ p',
    players (askQuestion room_two "B" "why" true).1 !! 1%nat = Some p' ∧
    questionsLeft p' = 4.
Proof.
  destruct (askQuestion_costs_one room_two "B" "why" true 1
              (mkPlayer "B" "Bob" 0 0 0 0) eq_refl)
    as (p' & Hl & Hq & _).
  exists p'. split; [exact Hl|]. rewrite Hq. reflexivity.
Defined.

(** X21. In a room with two players the ['questionForAnswer'] event of
    a player's question goes to the socket of the other player, whoever
    asks; a player who is alone gets the question logged and
    acknowledged, and nobody is sent the event. *)
Theorem question_goes_to_the_other w a room text cb :
  reachable w → heap w !! a = Some room →
  (∀ p0 p1, players room = [p0; p1] →
     (askQuestion room (id p0) text cb).2 =
       [ToSocket (id p1) (EvQuestionForAnswer (name p0) text)]
         ++ broadcastState (askQuestion room (id p0) text cb).1
         ++ ack cb (id p0) AckOk ∧
     (askQuestion room (id p1) text cb).2 =
       [ToSocket (id p0) (EvQuestionForAnswer (name p1) text)]
         ++ broadcastState (askQuestion room (id p1) text cb).1
         ++ ack cb (id p1) AckOk) ∧
  (∀ p0, players room = [p0] →
     (askQuestion room (id p0) text cb).2 =
       broadcastState (askQuestion room (id p0) text cb).1
         ++ ack cb (id p0) AckOk).
Proof.
  intros Hw Hl. split.
  - intros p0 p1 Hpl.
    destruct (wf_players room (reachable_wf w a room Hw Hl)) as [_ Hnd].
    rewrite Hpl in Hnd. cbn in Hnd.
    apply NoDup_cons in Hnd as [Hne _].
    assert (Hne' : id p0 ≠ id p1) by (intros Heq; apply Hne; rewrite Heq; by left).
    unfold askQuestion, find_opponent. rewrite Hpl. cbn.
    rewrite decide_True by done. cbn.
    rewrite (decide_False (P := id p0 = id p1)) by done.
    rewrite (decide_True (P := id p1 = id p1)) by done. cbn.
    rewrite (decide_False (P := id p0 ≠ id p0)) by (intros H; by apply H).
    rewrite (decide_True (P := id p1 ≠ id p0)) by done.
    rewrite (decide_True (P := id p0 ≠ id p1)) by done. done.
  - intros p0 Hpl. unfold askQuestion, find_opponent. rewrite Hpl. cbn.
    rewrite decide_True by done. cbn.
    rewrite (decide_False (P := id p0 ≠ id p0)) by (intros H; by apply H). done.
Qed.

Lemma question_goes_to_the_other_witness :
  (askQuestion room_two "B" "why" false).2 =
    [ToSocket "A" (EvQuestionForAnswer "Bob" "why")]
      ++ broadcastState (askQuestion room_two "B" "why" false).1.
Proof.
  destruct (question_goes_to_the_other world_two 0 room_two "why" false
              world_two_reachable eq_refl) as [Htwo _].
  destruct (Htwo (mkPlayer "A" "Ann" 0 0 0 0) (mkPlayer "B" "Bob" 0 0 0 0) eq_refl)
    as [_ Hb].
  cbn [id name] in Hb. rewrite Hb. cbn [ack]. rewrite app_nil_r. reflexivity.
Defined.

(** X22. The question of a player is in the chat log of the state that
    the handler then sends to the whole room, at its front. *)
Theorem question_reaches_the_room_state room sid text cb i p :
  list_find (λ p, id p = sid) (players room) = Some (i, p) →
  let room' := (askQuestion room sid text cb).1 in
  ToRoom (EvState (snapshot room')) ∈ (askQuestion room sid text cb).2 ∧
  sv_chatLog (snapshot room') = LogQ (name p) text :: sv_chatLog (snapshot room).
Proof.
  intros Hfind. cbn zeta.
  destruct (askQuestion_player room sid text cb i p Hfind) as (_ & Hlog & ->).
  split.
  - apply elem_of_app. right. apply elem_of_app. left. by left.
  - unfold snapshot. cbn [sv_chatLog]. by rewrite Hlog.
Qed.

Lemma question_reaches_the_room_state_witness :
  sv_chatLog (snapshot (askQuestion room_two "A" "why" true).1) =
    [LogQ "Ann" "why"].
Proof.
  destruct (question_reaches_the_room_state room_two "A" "why" true 0
              (mkPlayer "A" "Ann" 0 0 0 0) eq_refl) as [_ Hlog].
  rewrite Hlog. reflexivity.
Defined.

(** ** The clock of a room that is short of a player *)

(** X23. The timer can run in a room with fewer than two players (an
    answer starts it). When it then runs out, the last tick sends the
    time, ['timeUp'] and the state, and throws in the evaluator: the
    server dies. *)
Theorem clock_runs_out_on_lone_player w a room :
  reachable w → registered w = Some (a, room) →
  (length (players room) < 2)%nat →
  running (timer room) = true → remaining (timer room) ≤ 1 →
  step w (InTick a) =
    Crash ([ToRoom (EvTimer (remaining (timer room) - 1)); ToRoom EvTimeUp]
             ++ broadcastState (expired room)).
Proof.
  intros Hw Hreg Hlen Hrun Hrem.
  pose proof (reachable_ok w Hw) as [Hok _].
  pose proof Hreg as [Hra Hl]%registered_Some.
  destruct (ho_rooms w Hok a room Hl) as (_ & Hgo & _).
  assert (Hg : gameOver room = false).
  { destruct (gameOver room); [|done]. specialize (Hgo eq_refl). congruence. }
  assert (H1 : players room !! 1%nat = None) by (apply lookup_ge_None; lia).
  cbn [step]. unfold tick. rewrite Hl, Hrun. cbn [negb].
  assert ((remaining (timer room) - 1 <=? 0) = true) as -> by (apply Z.leb_le; lia).
  fold (expired room).
  unfold checkGameOver_id, on_registered, broadcastState_id.
  rewrite (registered_store w a room (expired room) Hreg).
  unfold checkGameOver.
  change (gameOver (expired room)) with (gameOver room).
  change (players (expired room)) with (players room).
  rewrite Hg, H1.
  destruct (_ =? 10).
  - cbn. by destruct (players room !! 0%nat).
  - assert ((remaining (timer (expired room)) <=? 0) = true) as ->
      by (apply Z.leb_le; cbn; lia).
    destruct (players room !! 0%nat); by rewrite app_nil_r.
Qed.

Lemma clock_runs_out_on_lone_player_witness :
  step world_lone_clock (InTick 0) =
    Crash ([ToRoom (EvTimer 0); ToRoom EvTimeUp]
             ++ broadcastState (expired room_lone_clock)).
Proof.
  apply (clock_runs_out_on_lone_player world_lone_clock 0 room_lone_clock
           world_lone_clock_reachable eq_refl).
  - vm_compute. reflexivity.
  - reflexivity.
  - vm_compute. intros H; discriminate H.
Defined.

(** ** The score and the table *)

Lemma matched_count_nonneg l : 0 ≤ matched_count l ≤ Z.of_nat (length l).
Proof.
  unfold matched_count. split; [lia|].
  apply inj_le. induction l as [|c l IH]; cbn; [lia|].
  destruct (matched c); cbn; lia.
Qed.

Lemma matched_count_alter_revealed b k l :
  matched_count (alter_at (set_revealed b) k l) = matched_count l.
Proof.
  destruct k as [i|n]; [|done]. cbn [alter_at].
  unfold matched_count. f_equal. revert i.
  induction l as [|c l IH]; intros [|i]; cbn; try done.
  - by destruct (matched c).
  - destruct (matched c); cbn; by rewrite IH.
Qed.

(** [card.matched = true] adds at most one to the matched cards. *)
Lemma matched_count_alter_matched k l :
  matched_count (alter_at (set_matched true) k l) ≤ matched_count l + 1.
Proof.
  destruct k as [i|n]; [|cbn [alter_at]; lia]. cbn [alter_at].
  unfold matched_count. revert i.
  induction l as [|c0 l IH]; intros [|i]; cbn; try lia.
  - destruct (matched c0); cbn; lia.
  - specialize (IH i). destruct (matched c0); cbn; lia.
Qed.

Lemma matched_count_fresh l :
  (∀ c, c ∈ l → matched c = false) → matched_count l = 0.
Proof.
  unfold matched_count. induction l as [|c l IH]; intros Hall; cbn; [done|].
  rewrite (Hall c) by by left. apply IH. intros c' Hc'. apply Hall. by right.
Qed.

Lemma matched_count_full l :
  Z.of_nat (length l) ≤ matched_count l → ∀ c, c ∈ l → matched c = true.
Proof.
  induction l as [|c0 l IH]; intros Hle c Hc; [by apply elem_of_nil in Hc|].
  pose proof (matched_count_nonneg l) as Hl.
  unfold matched_count in *. cbn in Hle.
  destruct (matched c0) eqn:Hm; cbn in Hle; [|lia].
  apply elem_of_cons in Hc as [->|Hc]; [done|]. apply IH; [lia|done].
Qed.

Lemma matched_count_all l :
  (∀ c, c ∈ l → matched c = true) → matched_count l = Z.of_nat (length l).
Proof.
  unfold matched_count. induction l as [|c l IH]; intros Hall; [done|].
  cbn. rewrite (Hall c) by by left. cbn.
  specialize (IH ltac:(intros c' Hc'; apply Hall; by right)). lia.
Qed.

Lemma totalMatches_fmap r r' :
  matches <$> players r' = matches <$> players r →
  totalMatches r' = totalMatches r.
Proof.
  intros Heq. unfold totalMatches, matches_or0.
  assert (H : ∀ (l : list Player) i,
             from_option matches 0 (l !! i) = default 0 ((matches <$> l) !! i)).
  { intros l i. rewrite list_lookup_fmap. by destruct (l !! i). }
  by rewrite !H, Heq.
Qed.

Lemma score_frame r r' :
  matches <$> players r' = matches <$> players r →
  matched_count (cards r') = matched_count (cards r) →
  (gameOver r' = false → gameOver r = false) →
  room_score r → room_score r'.
Proof.
  intros Hp Hc Hg [H1 H2 H3].
  split; rewrite ?(totalMatches_fmap r r') by done; rewrite ?Hc; try done.
  - intros p Hp'.
    assert (Hin : matches p ∈ matches <$> players r)
      by (rewrite <- Hp; by apply list_elem_of_fmap_2).
    apply list_elem_of_fmap in Hin as (q & -> & Hq). by apply H1.
  - intros Hg'. by apply H3, Hg.
Qed.

Lemma score_checkGameOver r r' out :
  checkGameOver r = Done r' out →
  (∀ p, p ∈ players r → 0 ≤ matches p) →
  totalMatches r ≤ 10 →
  (gameOver r = false → matched_count (cards r) ≤ 2 * totalMatches r) →
  room_score r'.
Proof.
  intros Hck H1 H2 H3.
  pose proof (checkGameOver_frame _ _ _ Hck) as (Hc & _ & Hp & _).
  assert (Ht : totalMatches r' = totalMatches r) by (apply totalMatches_fmap; by rewrite Hp).
  split; rewrite ?Ht, ?Hc, ?Hp; try done.
  apply checkGameOver_Done in Hck.
  destruct Hck as [(-> & _ & [Hg|(Hne & _)])|(Hg & p0 & p1 & _ & _ & Hcase)].
  - congruence.
  - intros Hg. split; [by apply H3|]. unfold totalMatches in *. lia.
  - by destruct Hcase as [(_ & -> & _)|(_ & _ & -> & _)].
Qed.

Lemma score_new rnd : room_score (createNewGameState rnd).
Proof.
  assert (Hc : matched_count (cards (createNewGameState rnd)) = 0).
  { apply matched_count_fresh. intros c Hc.
    destruct (new_deck_ok rnd) as (_ & _ & Hall). by apply Hall. }
  split; rewrite ?Hc; unfold totalMatches, createNewGameState;
    cbn [players gameOver]; cbn; try done.
  intros p Hp. by apply elem_of_nil in Hp.
Qed.

Lemma score_connection r sid pn :
  room_score r → room_score (connection r sid pn).1.
Proof.
  intros Hsc.
  pose proof (connection_fields r sid pn) as Hf. cbn zeta in Hf.
  destruct Hf as (Hc & _ & _ & Hg & _ & Hpl & _).
  destruct Hpl as [(Hp & _)|(Hlt & _ & Hp & _)].
  - apply (score_frame r); [by rewrite Hp|by rewrite Hc|by rewrite Hg|done].
  - destruct Hsc as [H1 H2 H3].
    assert (Ht : totalMatches (connection r sid pn).1 = totalMatches r).
    { unfold totalMatches. rewrite Hp.
      destruct (players r) as [|p0 [|p1 l]]; cbn in *; [done|lia|lia]. }
    split; rewrite ?Ht, ?Hc, ?Hg; try done.
    intros p. rewrite Hp.
    intros [Hin|[->|[]%elem_of_nil]%elem_of_cons]%elem_of_app; [by apply H1|done].
Qed.

Lemma score_rematch r sid cb rnd g out :
  rematch r sid cb rnd = (Some g, out) → room_score g.
Proof.
  unfold rematch. case_bool_decide as Hlen; [done|]. intros [= <- _].
  rewrite startTimer_eq.
  assert (Hc : matched_count (cards (createNewGameState rnd)) = 0).
  { apply matched_count_fresh. intros c Hc.
    destruct (new_deck_ok rnd) as (_ & _ & Hall). by apply Hall. }
  assert (Ht : totalMatches
                 (started (set_players (reset_player <$> players r)
                             (createNewGameState rnd))) = 0).
  { unfold totalMatches. cbn [players started set_timer set_players].
    rewrite !list_lookup_fmap.
    by destruct (players r !! 0%nat), (players r !! 1%nat). }
  split; rewrite ?Ht.
  - cbn. intros p (q & -> & _)%list_elem_of_fmap. done.
  - lia.
  - intros _. change (cards (started _)) with (cards (createNewGameState rnd)).
    rewrite Hc. lia.
Qed.

Lemma totalMatches_award r playerIndex idxA idxB player0 cardA :
  (length (players r) ≤ 2)%nat → players r !! playerIndex = Some player0 →
  totalMatches (award playerIndex idxA idxB player0 cardA r) = totalMatches r + 1.
Proof.
  intros Hlen Hpl. unfold totalMatches. cbn [award players set_flipped log_unshift set_players].
  destruct (players r) as [|p0 [|p1 [|]]] eqn:Hp; cbn in Hlen; try lia;
    destruct playerIndex as [|[|]]; cbn in Hpl |- *; simplify_eq; cbn; lia.
Qed.

Lemma score_flip r sid idx cb r' s out :
  flip r sid idx cb = Done (r', s) out →
  room_wf r → room_score r → room_score r'.
Proof.
  intros H Hwf Hsc. apply flip_Done in H.
  destruct H as [(-> & _)|(Hg & pi & card & Hfi & _ & Hc & Hrev & Hm & Hcase)];
    [done|].
  assert (Hsc1 : room_score (reveal idx r)).
  { apply (score_frame r); try done. cbn [reveal cards set_flipped set_cards].
    apply matched_count_alter_revealed. }
  destruct Hcase as [(Hf & -> & _)|(idxA & cardA & cardB & Hf & HA & HB & Hcase)];
    [done|].
  destruct Hcase as [(_ & -> & _)|(_ & p0 & out5 & Hpl & Hck & _)]; [done|].
  cbn zeta in Hck.
  destruct Hwf as [[Hlen _] _ _ _ _ _].
  destruct Hsc as [H1 H2 H3]. destruct (H3 Hg) as [Hle Hlt].
  set (r2 := award pi idxA idx p0 cardA (reveal idx r)) in *.
  assert (Ht : totalMatches r2 = totalMatches r + 1).
  { subst r2. by rewrite totalMatches_award. }
  assert (Hcnt : matched_count (cards r2) ≤ matched_count (cards r) + 2).
  { subst r2. cbn [award reveal cards set_flipped log_unshift set_players set_cards].
    etrans; [apply matched_count_alter_matched|].
    pose proof (matched_count_alter_matched idx
                  (alter_at (set_revealed true) idx (cards r))) as Hm1.
    rewrite matched_count_alter_revealed in Hm1. lia. }
  eapply score_checkGameOver; [exact Hck|..].
  - change (players (stopped r2)) with (players r2). subst r2. cbn.
    intros p (j & Hj)%list_elem_of_lookup.
    destruct (decide (pi = j)) as [->|Hnj].
    + rewrite list_lookup_insert_eq in Hj by by eapply lookup_lt_Some.
      simplify_eq. cbn.
      assert (0 ≤ matches p0) by by eapply H1, list_elem_of_lookup_2.
      lia.
    + rewrite list_lookup_insert_ne in Hj by done.
      by eapply H1, list_elem_of_lookup_2.
  - change (totalMatches (stopped r2)) with (totalMatches r2). lia.
  - intros _. change (totalMatches (stopped r2)) with (totalMatches r2).
    change (cards (stopped r2)) with (cards r2). lia.
Qed.

Lemma score_disconnect r sid :
  room_wf r → room_score r → room_score (disconnect r sid).1.1.
Proof.
  intros Hwf Hsc.
  pose proof (disconnect_fields r sid) as Hf. cbn zeta in Hf.
  destruct Hf as (Hc & _ & _ & _ & Hpl).
  destruct Hpl as [[-> _]|(i & p & Hfind & Hpl & _ & _ & Hg & _)]; [done|].
  apply list_find_Some in Hfind as (Hl & _).
  destruct Hwf as [[Hlen _] _ _ _ _ _]. destruct Hsc as [H1 H2 H3].
  assert (Hlt : (length (players (disconnect r sid).1.1) < 2)%nat).
  { rewrite Hpl. pose proof (lookup_lt_Some _ _ _ Hl).
    rewrite length_delete by done. lia. }
  rewrite bool_decide_true, orb_true_r in Hg by done.
  assert (Hin : ∀ q, q ∈ players (disconnect r sid).1.1 → q ∈ players r).
  { intros q. rewrite Hpl. apply list_elem_of_delete_inv. }
  split; [by eauto| |congruence].
  etrans; [|exact H2]. unfold totalMatches. rewrite Hpl.
  destruct (players r) as [|q0 [|q1 [|]]] eqn:Hp; cbn in Hlen; try lia;
    destruct i as [|[|]]; cbn in Hl |- *; simplify_eq; cbn.
  - assert (0 ≤ matches p) by (apply H1; by left). lia.
  - assert (0 ≤ matches p) by (apply H1; by left). lia.
  - assert (0 ≤ matches p) by (apply H1; right; by left). lia.
Qed.

Lemma room_trans_score r r' :
  room_trans r r' → room_wf r → room_score r → room_score r'.
Proof.
  intros Ht Hwf Hsc.
  destruct Ht as [r|r sid n Hreg|r sid idx cb r' s out Hreg Hfl|r sid text cb
    |r sid text cb Hreg|r sid Hreg|r Hrun Hrem|r Hrun Hrem
    |r r' out Hrun Hrem Hck|r r' out Hck|r x y Hfl].
  - done.
  - by apply score_connection.
  - by eapply score_flip.
  - pose proof (askQuestion_fields r sid text cb) as Hf. cbn zeta in Hf.
    destruct Hf as (Hc & _ & _ & Hg & _ & Hpl).
    destruct Hpl as [[-> _]|(i & p & Hfind & Hpl & _)]; [done|].
    apply list_find_Some in Hfind as (Hl & _).
    apply (score_frame r); [|by rewrite Hc|by rewrite Hg|done].
    rewrite Hpl, list_fmap_insert. apply list_insert_id.
    by rewrite list_lookup_fmap, Hl.
  - pose proof (answerQuestion_eq r sid text cb) as Hf. cbn zeta in Hf.
    destruct Hf as (_ & _ & Hc & Hpl & _ & _ & Hg & _).
    apply (score_frame r); [by rewrite Hpl|by rewrite Hc|by rewrite Hg|done].
  - by apply score_disconnect.
  - by apply (score_frame r).
  - by apply (score_frame r).
  - destruct Hsc as [H1 H2 H3].
    eapply score_checkGameOver; [exact Hck|done|done|].
    intros Hg. by apply H3.
  - destruct Hsc as [H1 H2 H3].
    eapply score_checkGameOver; [exact Hck|done|done|].
    intros Hg. by apply H3.
  - apply (score_frame r); try done. unfold flipBack.
    cbn [cards log_unshift set_currentPlayer set_flipped set_cards].
    by rewrite !matched_count_alter_revealed.
Qed.

Lemma score_fresh w g : fresh_room w g → room_score g.
Proof.
  intros [(rnd & sid & pn & ->)|(a & r & sid & cb & rnd & out & Hl & Hrm)].
  - apply score_connection, score_new.
  - by eapply score_rematch.
Qed.

Lemma reachable_score w a r : reachable w → heap w !! a = Some r → room_score r.
Proof.
  intros Hw. revert a r.
  induction Hw as [|w i w' out Hw IH Hstep]; intros a r Hl; [done|].
  pose proof (reachable_ok w Hw) as Hok.
  destruct (step_sound w i w' out Hok Hstep) as [_ Htr].
  destruct (heap w !! a) as [r0|] eqn:Hl0.
  - destruct (Htr a r0 Hl0) as (r1 & Hl1 & Ht). simplify_eq.
    eapply room_trans_score; [done| |by eapply IH].
    by eapply reachable_wf.
  - destruct (step_heap w i w' out Hstep) as [Hlen|(g & Hh & Hfresh)].
    + apply lookup_ge_None in Hl0. apply lookup_lt_Some in Hl. lia.
    + rewrite Hh in Hl. apply lookup_app_Some in Hl as [Hl|[_ Hl]]; [congruence|].
      apply list_lookup_singleton_Some in Hl as [_ <-].
      by eapply score_fresh.
Qed.

(** X24. No player has a negative match count. The evaluator's
    [totalMatches] is at most 10, and below 10 while the game is not
    over. While the game is not over, every pair of matched cards has
    been counted for a player of the room: the matched cards are at most
    twice [totalMatches]; so a room whose cards are all matched is over.
    (The counts can be ahead of the cards: the handler also counts a pair
    for two keys that are no cards.) *)
Theorem match_counts_are_bounded w a r :
  reachable w → heap w !! a = Some r →
  (∀ p, p ∈ players r → 0 ≤ matches p) ∧
  totalMatches r ≤ 10 ∧
  (gameOver r = false → totalMatches r < 10) ∧
  (gameOver r = false → matched_count (cards r) ≤ 2 * totalMatches r) ∧
  ((∀ c, c ∈ cards r → matched c = true) → gameOver r = true).
Proof.
  intros Hw Hl.
  destruct (reachable_score w a r Hw Hl) as [H1 H2 H3].
  pose proof (reachable_wf w a r Hw Hl) as Hwf.
  assert (Hlen : length (cards r) = 20%nat).
  { rewrite <- (length_fmap face_down), (wf_deck r Hwf). done. }
  split_and!; try done.
  - intros Hg. by apply H3.
  - intros Hg. by apply H3.
  - intros Hall. apply matched_count_all in Hall. rewrite Hlen in Hall.
    destruct (gameOver r) eqn:Hg; [done|]. destruct (H3 eq_refl). lia.
Qed.

Lemma match_counts_are_bounded_witness :
  matched_count (cards room_pair) ≤ 2 * totalMatches room_pair ∧
  totalMatches room_pair < 10.
Proof.
  destruct (match_counts_are_bounded world_pair 0 room_pair
              world_pair_reachable eq_refl)
    as (_ & _ & Hlt & Hle & _).
  split; [apply Hle; reflexivity|apply Hlt; reflexivity].
Defined.

(** ** What the clients last saw *)

Lemma last_state_broadcast out r out' :
  omap is_state out' = [] →
  last_state (out ++ broadcastState r ++ out') = Some (snapshot r).
Proof.
  intros Hq. unfold last_state. rewrite !omap_app, Hq, app_nil_r.
  cbn. apply last_snoc.
Qed.

Lemma last_state_broadcast0 r out' :
  omap is_state out' = [] →
  last_state (broadcastState r ++ out') = Some (snapshot r).
Proof. apply (last_state_broadcast []). Qed.

Lemma last_state_quiet out : omap is_state out = [] → last_state out = None.
Proof. intros Hq. unfold last_state. by rewrite Hq. Qed.

Lemma ack_no_state cb sid p : omap is_state (ack cb sid p) = [].
Proof. by destruct cb. Qed.

Lemma pauseTimer_no_state r : omap is_state (pauseTimer r).2 = [].
Proof. unfold pauseTimer. by destruct (running (timer r)). Qed.

Lemma checkGameOver_no_state r r' out :
  checkGameOver r = Done r' out → omap is_state out = [].
Proof.
  intros H. apply checkGameOver_Done in H.
  destruct H as [(_ & -> & _)|(_ & p0 & p1 & _ & _ & Hc)]; [done|].
  destruct Hc as [(_ & _ & w & ->)|(_ & _ & _ & w & ->)]; [|done].
  rewrite omap_app, pauseTimer_no_state. done.
Qed.

(** The evaluator changes nothing that the ['state'] payload shows,
    unless it has to stop the timer. *)
Lemma snapshot_checkGameOver r r' out :
  checkGameOver r = Done r' out →
  (gameOver r = false → totalMatches r = 10 → running (timer r) = false) →
  snapshot r' = snapshot r.
Proof.
  intros H Hrun. apply checkGameOver_Done in H.
  destruct H as [(-> & _)|(Hg & p0 & p1 & H0 & H1 & Hc)]; [done|].
  destruct Hc as [(Ht & -> & _)|(_ & _ & -> & _)]; [|done].
  rewrite stopped_id; [done|]. apply Hrun; [done|].
  unfold totalMatches. by rewrite H0, H1.
Qed.

Lemma registered_insert w a r r' tm :
  registered w = Some (a, r) →
  registered (mkWorld (<[a:=r']> (heap w)) (registry w) tm) = Some (a, r').
Proof.
  intros [Hra Hl]%registered_Some. apply registered_Some. cbn.
  split; [done|]. rewrite list_lookup_insert_eq; [done|]. by eapply lookup_lt_Some.
Qed.

Lemma registered_alloc w g tm :
  registered (mkWorld (heap w ++ [g]) (Some (length (heap w))) tm)
  = Some (length (heap w), g).
Proof.
  apply registered_Some. cbn. split; [done|].
  rewrite lookup_app_r by lia. by rewrite Nat.sub_diag.
Qed.

Lemma last_state_broadcast_id out w a room :
  registered w = Some (a, room) →
  last_state (out ++ broadcastState_id w) = Some (snapshot room).
Proof.
  intros Hreg. unfold broadcastState_id. rewrite Hreg.
  rewrite <- (app_nil_r (broadcastState room)). by apply last_state_broadcast.
Qed.

Lemma connection_out r sid pn :
  (connection r sid pn).2 =
    [ToSocket sid (EvRoomAssigned "default")]
      ++ broadcastState (connection r sid pn).1 ++ [].
Proof. unfold connection. cbn [fst snd]. by rewrite app_nil_r. Qed.

Ltac done_inv H :=
  match type of H with
  | Done ?w ?o = Done ?w' ?o' =>
      assert (w' = w) as -> by congruence;
      assert (o' = o) as -> by congruence;
      clear H
  end.

(** X25. Whenever a step sends ['state'], the last state it sends is
    the state of the registered room as the step leaves it: what the
    handler does after its last broadcast does not show in the payload. *)
Theorem last_state_is_current w i w' out s a room :
  reachable w → step w i = Done w' out →
  last_state out = Some s → registered w' = Some (a, room) →
  s = snapshot room.
Proof.
  intros Hw Hstep Hlast Hreg'.
  destruct i as [sid pn rnd|sid cb rnd|sid idx cb|sid text cb|sid text cb|sid|b|k|sid ev];
    cbn [step] in Hstep; unfold on_registered in Hstep.
  - (* connection *)
    destruct (registered w) as [[a0 r]|] eqn:Hreg.
    + pose proof (connection_out r sid pn) as Ho.
      destruct (connection r sid pn) as [r' o]. cbn [fst snd] in Ho. subst o.
      done_inv Hstep.
      rewrite (registered_store w a0 r _ Hreg) in Hreg'. injection Hreg' as <- <-.
      rewrite last_state_broadcast in Hlast by done. congruence.
    + pose proof (connection_out (createNewGameState rnd) sid pn) as Ho.
      destruct (connection _ sid pn) as [r' o]. cbn [fst snd] in Ho. subst o.
      done_inv Hstep.
      rewrite registered_alloc in Hreg'. injection Hreg' as <- <-.
      rewrite last_state_broadcast in Hlast by done. congruence.
  - (* rematch *)
    destruct (registered w) as [[a0 r]|] eqn:Hreg.
    2:{ done_inv Hstep. by rewrite last_state_quiet in Hlast
          by apply ack_no_state. }
    unfold rematch in Hstep. case_bool_decide as Hlen; cbv beta iota zeta in Hstep.
    { done_inv Hstep. by rewrite last_state_quiet in Hlast
        by apply ack_no_state. }
    done_inv Hstep.
    rewrite registered_alloc in Hreg'. injection Hreg' as <- <-.
    rewrite last_state_broadcast0 in Hlast; [congruence|].
    cbn. apply ack_no_state.
  - (* flip *)
    destruct (registered w) as [[a0 r]|] eqn:Hreg;
      [|done_inv Hstep; by rewrite last_state_quiet in Hlast].
    destruct (flip r sid idx cb) as [[r' sch] o|o] eqn:Hflip; [|done].
    done_inv Hstep.
    rewrite (registered_insert w a0 r r' _ Hreg) in Hreg'. injection Hreg' as <- <-.
    apply flip_Done in Hflip.
    destruct Hflip as [(-> & _ & [->| ->])|(Hg & pi & card & _ & _ & _ & _ & _ & Hcase)].
    { by rewrite last_state_quiet in Hlast. }
    { by rewrite last_state_quiet in Hlast by apply ack_no_state. }
    destruct Hcase as [(_ & -> & _ & ->)|(idxA & cardA & cardB & _ & _ & _ & Hcase)].
    { rewrite last_state_broadcast0 in Hlast by apply ack_no_state. congruence. }
    destruct Hcase as [(_ & -> & _ & ->)|(_ & p0 & out5 & _ & Hck & _ & ->)].
    { rewrite last_state_broadcast0 in Hlast by apply ack_no_state. congruence. }
    cbn zeta in Hck.
    rewrite <- !app_assoc in Hlast.
    rewrite (app_assoc (broadcastState (reveal idx r))) in Hlast.
    rewrite last_state_broadcast in Hlast.
    + rewrite (snapshot_checkGameOver _ _ _ Hck); [congruence|done].
    + by rewrite !omap_app, (checkGameOver_no_state _ _ _ Hck), ack_no_state.
  - (* askQuestion *)
    destruct (registered w) as [[a0 r]|] eqn:Hreg;
      [|done_inv Hstep; by rewrite last_state_quiet in Hlast].
    destruct (list_find (λ p, id p = sid) (players r)) as [[j p]|] eqn:Hfind.
    + pose proof (askQuestion_player r sid text cb j p Hfind) as Ho.
      cbn zeta in Ho. destruct Ho as (_ & _ & Ho).
      destruct (askQuestion r sid text cb) as [r' o]. cbn [fst snd] in Ho. subst o.
      done_inv Hstep.
      rewrite (registered_store w a0 r _ Hreg) in Hreg'. injection Hreg' as <- <-.
      rewrite last_state_broadcast in Hlast by apply ack_no_state. congruence.
    + rewrite askQuestion_not_player in Hstep by (unfold find_player; by rewrite Hfind).
      done_inv Hstep. by rewrite last_state_quiet in Hlast.
  - (* answerQuestion *)
    destruct (registered w) as [[a0 r]|] eqn:Hreg;
      [|done_inv Hstep; by rewrite last_state_quiet in Hlast].
    pose proof (answerQuestion_eq r sid text cb) as Ho. cbn zeta in Ho.
    destruct Ho as (Ho & _).
    destruct (answerQuestion r sid text cb) as [r' o]. cbn [fst snd] in Ho. subst o.
    done_inv Hstep.
    rewrite (registered_store w a0 r _ Hreg) in Hreg'. injection Hreg' as <- <-.
    rewrite last_state_broadcast in Hlast by apply ack_no_state. congruence.
  - (* disconnect *)
    destruct (registered w) as [[a0 r]|] eqn:Hreg;
      [|done_inv Hstep; by rewrite last_state_quiet in Hlast].
    destruct (disconnect r sid) as [[r' d] o] eqn:Hd.
    done_inv Hstep.
    pose proof (disconnect_fields r sid) as Hf. cbn zeta in Hf.
    rewrite Hd in Hf. cbn [fst snd] in Hf.
    destruct Hf as (_ & _ & _ & _ & [[[= -> -> ->] _]|(j & p & _ & _ & _ & _ & _ & _ & Hout)]).
    { by rewrite last_state_quiet in Hlast. }
    destruct d.
    { unfold registered in Hreg'. by cbn in Hreg'. }
    rewrite (registered_insert w a0 r r' _ Hreg) in Hreg'. injection Hreg' as <- <-.
    rewrite Hout in Hlast. rewrite <- (app_nil_r (broadcastState r')) in Hlast.
    rewrite last_state_broadcast in Hlast by done. congruence.
  - (* a timer tick *)
    unfold tick in Hstep.
    destruct (heap w !! b) as [r|] eqn:Hl;
      [|done_inv Hstep; by rewrite last_state_quiet in Hlast].
    destruct (running (timer r)) eqn:Hrun; cbn [negb] in Hstep;
      [|done_inv Hstep; by rewrite last_state_quiet in Hlast].
    destruct (remaining (timer r) - 1 <=? 0);
      [|done_inv Hstep; by rewrite last_state_quiet in Hlast].
    fold (expired r) in Hstep.
    unfold checkGameOver_id, on_registered in Hstep.
    destruct (registered (store b (expired r) w)) as [[a1 r1]|] eqn:Hreg1.
    2:{ done_inv Hstep. congruence. }
    destruct (checkGameOver r1) as [r1' out3|out3] eqn:Hck; [|done].
    done_inv Hstep.
    rewrite (registered_store _ a1 r1 r1' Hreg1) in Hreg'. injection Hreg' as <- <-.
    unfold broadcastState_id in Hlast. rewrite Hreg1 in Hlast.
    rewrite <- !app_assoc in Hlast.
    rewrite (app_assoc [_] [_]) in Hlast.
    rewrite last_state_broadcast in Hlast by by eapply checkGameOver_no_state.
    rewrite (snapshot_checkGameOver _ _ _ Hck); [congruence|].
    intros Hg1 Ht1.
    apply registered_Some in Hreg1 as [_ Hl1]. cbn in Hl1.
    destruct (decide (a1 = b)) as [->|Hne].
    + rewrite list_lookup_insert_eq in Hl1 by by eapply lookup_lt_Some.
      by injection Hl1 as <-.
    + rewrite list_lookup_insert_ne in Hl1 by done.
      destruct (sc_play r1 (reachable_score w a1 r1 Hw Hl1) Hg1) as [_ Hlt10].
      lia.
  - (* a flip-back *)
    unfold fire in Hstep.
    destruct (timeouts w !! k) as [p|];
      [|done_inv Hstep; by rewrite last_state_quiet in Hlast].
    destruct (heap w !! pd_room p) as [r|];
      [|done_inv Hstep; by rewrite last_state_quiet in Hlast].
    injection Hstep as Hw' <-. rewrite Hw' in Hlast.
    change (broadcastState_id w') with ([] ++ broadcastState_id w') in Hlast.
    rewrite (last_state_broadcast_id [] w' a room Hreg') in Hlast. congruence.
  - done.
Qed.

Lemma last_state_is_current_witness :
  ∃ out s,
    step world_one_up (InFlip "A" 2 true) = Done world_pair out ∧
    last_state out = Some s ∧ s = snapshot room_pair.
Proof.
  eexists _, _. split; [vm_compute; reflexivity|]. split; [vm_compute; reflexivity|].
  eapply (last_state_is_current world_one_up (InFlip "A" 2 true) world_pair _ _ 0);
    [exact world_one_up_reachable|vm_compute; reflexivity..].
Defined.

(** ** Pending flip-backs *)

Lemma card_at_face_down cs cs' k v' :
  face_down <$> cs' = face_down <$> cs → card_at cs' k = Some v' →
  ∃ v, card_at cs k = Some v ∧ v_pairId v = v_pairId v'.
Proof.
  intros Heq Hv. destruct k as [i|n].
  - apply card_at_index in Hv as (c' & Hc' & ->).
    assert (Hl : (face_down <$> cs) !! i = Some (face_down c'))
      by by rewrite <- Heq, list_lookup_fmap, Hc'.
    apply list_lookup_fmap_Some in Hl as (c & Hfd & Hc).
    exists (VCard c). split; [by apply card_at_index; exists c|].
    apply (f_equal pairId) in Hfd. cbn in Hfd |- *. by f_equal.
  - apply card_at_name in Hv as ->. by exists VOther.
Qed.

Lemma miss_frame r r' :
  face_down <$> cards r' = face_down <$> cards r →
  flipped r' = flipped r ∨ length (flipped r') ≠ 2%nat →
  miss_ok r → miss_ok r'.
Proof.
  intros Hc [Hf|Hf] Hok kA kB vA' vB' Hfl HA HB; [|by rewrite Hfl in Hf].
  destruct (card_at_face_down _ _ _ _ Hc HA) as (vA & HvA & <-).
  destruct (card_at_face_down _ _ _ _ Hc HB) as (vB & HvB & <-).
  eapply Hok; [by rewrite <- Hf|done|done].
Qed.

Lemma room_trans_miss r r' :
  room_trans r r' → room_ok r → miss_ok r → miss_ok r'.
Proof.
  intros Ht Hok Hmiss.
  pose proof (room_trans_grows r r' Ht Hok) as (Hc & _).
  destruct Ht as [r|r sid n Hreg|r sid idx cb r' s out Hreg Hfl|r sid text cb
    |r sid text cb Hreg|r sid Hreg|r Hrun Hrem|r Hrun Hrem
    |r r' out Hrun Hrem Hck|r r' out Hck|r x y Hfl].
  - done.
  - pose proof (connection_fields r sid n) as Hf. cbn zeta in Hf.
    destruct Hf as (_ & Hf & _). apply (miss_frame r); eauto.
  - apply flip_Done in Hfl.
    destruct Hfl as [(-> & _)|(Hg & pi & card & _ & _ & _ & _ & _ & Hcase)];
      [done|].
    destruct Hcase as [(Hf & -> & _)|(idxA & cardA & cardB & Hf & HA & HB & Hcase)].
    { apply (miss_frame r); [done| |done]. right. cbn. rewrite Hf. done. }
    destruct Hcase as [(Hne & -> & _)|(_ & p0 & out5 & _ & Hck & _)].
    + intros kA kB vA vB Hfl' HvA HvB.
      cbn [reveal flipped set_flipped set_cards] in Hfl'. rewrite Hf in Hfl'.
      cbn in Hfl'. injection Hfl' as <- <-. congruence.
    + cbn zeta in Hck. apply checkGameOver_frame in Hck as (_ & Hf5 & _).
      apply (miss_frame r); [done| |done]. right. by rewrite Hf5.
  - pose proof (askQuestion_fields r sid text cb) as Hf. cbn zeta in Hf.
    destruct Hf as (_ & Hf & _). apply (miss_frame r); eauto.
  - pose proof (answerQuestion_eq r sid text cb) as Hf. cbn zeta in Hf.
    destruct Hf as (_ & _ & _ & _ & Hf & _). apply (miss_frame r); eauto.
  - pose proof (disconnect_fields r sid) as Hf. cbn zeta in Hf.
    destruct Hf as (_ & Hf & _). apply (miss_frame r); eauto.
  - apply (miss_frame r); eauto.
  - apply (miss_frame r); eauto.
  - apply checkGameOver_frame in Hck as (_ & Hf & _).
    apply (miss_frame r); eauto.
  - apply checkGameOver_frame in Hck as (_ & Hf & _).
    apply (miss_frame r); eauto.
  - apply (miss_frame r); [done| |done]. by right.
Qed.

Lemma miss_empty r : flipped r = [] → miss_ok r.
Proof. intros Hf kA kB vA vB Hfl. by rewrite Hf in Hfl. Qed.

Lemma reachable_miss w a r : reachable w → heap w !! a = Some r → miss_ok r.
Proof.
  intros Hw. revert a r.
  induction Hw as [|w i w' out Hw IH Hstep]; intros a r Hl; [done|].
  pose proof (reachable_ok w Hw) as Hok.
  destruct (step_sound w i w' out Hok Hstep) as [_ Htr].
  destruct (heap w !! a) as [r0|] eqn:Hl0.
  - destruct (Htr a r0 Hl0) as (r1 & Hl1 & Ht).
    rewrite Hl in Hl1. injection Hl1 as <-.
    eapply room_trans_miss; [done| |by eapply IH].
    by eapply (ho_rooms w), Hl0; apply Hok.
  - destruct (step_heap w i w' out Hstep) as [Hlen|(g & Hh & Hfresh)].
    + apply lookup_ge_None in Hl0. apply lookup_lt_Some in Hl. lia.
    + rewrite Hh in Hl. apply lookup_app_Some in Hl as [Hl|[_ Hl]]; [congruence|].
      apply list_lookup_singleton_Some in Hl as [_ <-].
      apply miss_empty.
      destruct Hfresh as [(rnd & sid & pn & ->)|(a0 & r0 & sid & cb & rnd & o & _ & Hrm)].
      * pose proof (connection_fields (createNewGameState rnd) sid pn) as Hf.
        cbn zeta in Hf. by destruct Hf as (_ & -> & _).
      * unfold rematch in Hrm. case_bool_decide; [done|].
        injection Hrm as <- _. by rewrite startTimer_eq.
Qed.

(** X26. A room object never has two flip-backs pending. While one is
    pending, [flipped] of its room is exactly its two keys. The two are
    different, what the handler finds at them has different pair ids (so
    one of them at least is the index of a card), and each of them that
    is the index of a card names a card that is face up and not
    matched. *)
Theorem pending_flip_back_is_alone w k p :
  reachable w → timeouts w !! k = Some p →
  (∀ k' p', timeouts w !! k' = Some p' → pd_room p' = pd_room p → k' = k) ∧
  ∃ r vA vB,
    heap w !! pd_room p = Some r ∧
    flipped r = [pd_idxA p; pd_idxB p] ∧ pd_idxA p ≠ pd_idxB p ∧
    card_at (cards r) (pd_idxA p) = Some vA ∧
    card_at (cards r) (pd_idxB p) = Some vB ∧
    v_pairId vA ≠ v_pairId vB ∧
    ((∃ i : nat, pd_idxA p = KIndex i) ∨ (∃ i : nat, pd_idxB p = KIndex i)) ∧
    ∀ i : nat, pd_idxA p = KIndex i ∨ pd_idxB p = KIndex i →
      ∃ c, cards r !! i = Some c ∧ revealed c = true ∧ matched c = false.
Proof.
  intros Hw Hk. destruct (reachable_ok w Hw) as [Hok _]. split.
  - intros k' p' Hk' Heq.
    eapply (NoDup_lookup (pd_room <$> timeouts w)); [apply Hok|..].
    + by rewrite list_lookup_fmap, Hk'.
    + by rewrite list_lookup_fmap, Hk, Heq.
  - destruct (ho_pending w Hok p) as (r & Hl & Hf); [by eapply list_elem_of_lookup_2|].
    destruct (wf_flipped r (reachable_wf w _ r Hw Hl)) as (_ & Hnd & Hfl).
    pose proof (reachable_miss w _ r Hw Hl) as Hmiss.
    assert (Hat : ∀ key, key ∈ flipped r → ∃ v, card_at (cards r) key = Some v).
    { intros [i|n] Hin; [|by exists VOther].
      destruct (Hfl i Hin) as (c & Hc & _). exists (VCard c).
      apply card_at_index. by exists c. }
    destruct (Hat (pd_idxA p)) as (vA & HvA); [rewrite Hf; by left|].
    destruct (Hat (pd_idxB p)) as (vB & HvB); [rewrite Hf; right; by left|].
    pose proof (Hmiss _ _ _ _ Hf HvA HvB) as Hne.
    exists r, vA, vB. split_and!; try done.
    + rewrite Hf in Hnd. apply NoDup_cons in Hnd as [Hni _].
      intros Heq. apply Hni. rewrite Heq. by left.
    + destruct (pd_idxA p) as [i|n]; [left; by exists i|].
      destruct (pd_idxB p) as [j|m]; [right; by exists j|].
      cbn in HvA, HvB. by simplify_eq.
    + intros i [Hi|Hi]; apply Hfl; rewrite Hf, <- Hi; [by left|right; by left].
Qed.

Lemma pending_flip_back_is_alone_witness :
  ∃ r,
    heap world_miss !! 0%nat = Some r ∧ flipped r = [KIndex 1; KIndex 3].
Proof.
  destruct (pending_flip_back_is_alone world_miss 0 (mkPending 0 1 3)
              world_miss_reachable eq_refl)
    as (_ & r & vA & vB & Hl & Hf & _).
  exists r. split; [exact Hl|exact Hf].
Defined.

(** ** The counters of a player *)

Lemma player_step_refl p : player_step p p.
Proof. unfold player_step. split_and!; (done || lia). Qed.

Lemma room_trans_players r r' p' :
  room_trans r r' → p' ∈ players r' →
  (∃ sid pn, p' = mkPlayer sid pn 0 0 0 0) ∨
  ∃ p, p ∈ players r ∧ player_step p p'.
Proof.
  intros Ht Hp'.
  assert (Hsame : players r' = players r →
                  ∃ p, p ∈ players r ∧ player_step p p').
  { intros Heq. exists p'. rewrite <- Heq. split; [done|apply player_step_refl]. }
  assert (Hins : ∀ i p0 q, players r !! i = Some p0 → player_step p0 q →
                   players r' = <[i:=q]> (players r) →
                   ∃ p, p ∈ players r ∧ player_step p p').
  { intros i p0 q Hl Hq Heq. rewrite Heq in Hp'.
    apply list_elem_of_lookup in Hp' as (j & Hj).
    destruct (decide (i = j)) as [->|Hne].
    - rewrite list_lookup_insert_eq in Hj by by eapply lookup_lt_Some.
      injection Hj as <-. exists p0. split; [by eapply list_elem_of_lookup_2|done].
    - rewrite list_lookup_insert_ne in Hj by done.
      exists p'. split; [by eapply list_elem_of_lookup_2|apply player_step_refl]. }
  destruct Ht as [r|r sid n Hreg|r sid idx cb r' s out Hreg Hfl|r sid text cb
    |r sid text cb Hreg|r sid Hreg|r Hrun Hrem|r Hrun Hrem
    |r r' out Hrun Hrem Hck|r r' out Hck|r x y Hfl].
  - right. by apply Hsame.
  - pose proof (connection_fields r sid n) as Hf. cbn zeta in Hf.
    destruct Hf as (_ & _ & _ & _ & _ & Hpl & _).
    destruct Hpl as [(Hp & _)|(_ & _ & Hp & _)]; [right; by apply Hsame|].
    rewrite Hp in Hp'.
    apply elem_of_app in Hp' as [Hin|[->|[]%elem_of_nil]%elem_of_cons].
    + right. exists p'. split; [done|apply player_step_refl].
    + left. by exists sid, n.
  - right. apply flip_Done in Hfl.
    destruct Hfl as [(-> & _)|(Hg & pi & card & _ & _ & _ & _ & _ & Hcase)];
      [by apply Hsame|].
    destruct Hcase as [(_ & -> & _)|(idxA & cardA & cardB & _ & _ & _ & Hcase)];
      [by apply Hsame|].
    destruct Hcase as [(_ & -> & _)|(_ & p0 & out5 & Hpl & Hck & _)];
      [by apply Hsame|].
    cbn zeta in Hck.
    apply checkGameOver_frame in Hck as (_ & _ & Hp5 & _).
    apply (Hins pi p0 (set_matches (matches p0 + 1) p0)); [done| |by rewrite Hp5].
    unfold player_step. cbn. split_and!; (done || lia).
  - right. pose proof (askQuestion_fields r sid text cb) as Hf. cbn zeta in Hf.
    destruct Hf as (_ & _ & _ & _ & _ & Hpl).
    destruct Hpl as [[Heq _]|(i & p & Hfind & Hpl & _)];
      [apply Hsame; by rewrite Heq|].
    apply list_find_Some in Hfind as (Hl & _).
    apply (Hins i p (set_asked (asked p + 1) p)); [done| |done].
    unfold player_step. cbn. split_and!; (done || lia).
  - right. pose proof (answerQuestion_eq r sid text cb) as Hf. cbn zeta in Hf.
    destruct Hf as (_ & _ & _ & Hpl & _). by apply Hsame.
  - right. pose proof (disconnect_fields r sid) as Hf. cbn zeta in Hf.
    destruct Hf as (_ & _ & _ & _ & Hpl).
    destruct Hpl as [[Heq _]|(i & p & _ & Hpl & _)].
    + apply Hsame. by rewrite Heq.
    + rewrite Hpl in Hp'. apply list_elem_of_delete_inv in Hp'.
      exists p'. split; [done|apply player_step_refl].
  - right. by apply Hsame.
  - right. by apply Hsame.
  - right. apply checkGameOver_frame in Hck as (_ & _ & Hp & _). by apply Hsame.
  - right. apply checkGameOver_frame in Hck as (_ & _ & Hp & _). by apply Hsame.
  - right. by apply Hsame.
Qed.

Lemma player_step_ok p p' : player_step p p' → player_ok p → player_ok p'.
Proof.
  intros (_ & _ & He & Hm & Ha & _) (H1 & H2 & H3).
  unfold player_ok. split_and!; (congruence || lia).
Qed.

Lemma reachable_players w a r p :
  reachable w → heap w !! a = Some r → p ∈ players r → player_ok p.
Proof.
  intros Hw. revert a r p.
  induction Hw as [|w i w' out Hw IH Hstep]; intros a r p Hl Hp; [done|].
  pose proof (reachable_ok w Hw) as Hok.
  destruct (step_sound w i w' out Hok Hstep) as [_ Htr].
  destruct (heap w !! a) as [r0|] eqn:Hl0.
  - destruct (Htr a r0 Hl0) as (r1 & Hl1 & Ht).
    rewrite Hl in Hl1. injection Hl1 as <-.
    destruct (room_trans_players r0 r p Ht Hp) as [(sid & pn & ->)|(q & Hq & Hqp)].
    + unfold player_ok. cbn. split_and!; (done || lia).
    + eapply player_step_ok; [exact Hqp|]. by eapply IH.
  - destruct (step_heap w i w' out Hstep) as [Hlen|(g & Hh & Hfresh)].
    + apply lookup_ge_None in Hl0. apply lookup_lt_Some in Hl. lia.
    + rewrite Hh in Hl. apply lookup_app_Some in Hl as [Hl|[_ Hl]]; [congruence|].
      apply list_lookup_singleton_Some in Hl as [_ <-].
      destruct Hfresh as [(rnd & sid & pn & ->)|(a0 & r0 & sid & cb & rnd & o & _ & Hrm)].
      * pose proof (connection_fields (createNewGameState rnd) sid pn) as Hf.
        cbn zeta in Hf. destruct Hf as (_ & _ & _ & _ & _ & Hpl & _).
        destruct Hpl as [(Hpl & _)|(_ & _ & Hpl & _)]; rewrite Hpl in Hp.
        -- by apply elem_of_nil in Hp.
        -- apply elem_of_app in Hp as [[]%elem_of_nil|[->|[]%elem_of_nil]%elem_of_cons].
           unfold player_ok. cbn. split_and!; (done || lia).
      * unfold rematch in Hrm. case_bool_decide; [done|].
        injection Hrm as <- _. rewrite startTimer_eq in Hp. cbn in Hp.
        apply list_elem_of_fmap in Hp as (q & -> & _).
        unfold player_ok. cbn. split_and!; (done || lia).
Qed.

(** X27. No handler of this revision grants a bonus question: every
    player has [extra] and [prevMatches] 0 and has asked 0 or more
    questions, so [questionsLeft] is 5 minus the questions asked, and the
    number the clients are shown is never above 5. *)
Theorem no_bonus_questions w a r p :
  reachable w → heap w !! a = Some r → p ∈ players r →
  extra p = 0 ∧ prevMatches p = 0 ∧ 0 ≤ asked p ∧
  questionsLeft p = 5 - asked p ∧ questionsLeft p ≤ 5.
Proof.
  intros Hw Hl Hp.
  destruct (reachable_players w a r p Hw Hl Hp) as (He & Hm & Ha).
  unfold questionsLeft. split_and!; (done || lia).
Qed.

Lemma no_bonus_questions_witness :
  questionsLeft (mkPlayer "A" "Ann" 0 5 0 0) = 0.
Proof.
  destruct (no_bonus_questions world_asked5 0 room_asked5
              (mkPlayer "A" "Ann" 0 5 0 0) world_asked5_reachable eq_refl)
    as (_ & _ & _ & Hq & _).
  - vm_compute. left.
  - rewrite Hq. reflexivity.
Defined.

(** ** Flips of keys that are no cards *)

(** X28. The handler asks of [room.cards[idx]] only that it is truthy
    and that its [revealed] and [matched] read falsy, which ['length']
    (the number 20) always meets. The player to move can flip such a key
    like a first card: the deck stays as it is and the key is in
    [flipped]. A second flip of such a key finds [undefined] equal to
    [undefined]: the player is awarded a pair (the match count goes up by
    one, the log says a pair of 'undefined' was found, the prompt is
    sent, the evaluator is run) and no card of the deck has changed. *)
Theorem flips_without_cards_score room sid (n m : string) cb playerIndex player0 :
  gameOver room = false →
  list_find (λ p, id p = sid) (players room) = Some (playerIndex, player0) →
  currentPlayer room = Z.of_nat playerIndex →
  flipped room = [] →
  let room1 := reveal (KName n) room in
  let player := set_matches (matches player0 + 1) player0 in
  let room2 :=
    award playerIndex (KName n) (KName m) player0 VOther (reveal (KName m) room1) in
  let out4 :=
    broadcastState (reveal (KName m) room1) ++ (pauseTimer room2).2
      ++ broadcastState (stopped room2)
      ++ [ToSocket sid (EvAskQuestion (questionsLeft player0))] in
  flip room sid (KName n) cb =
    Done (room1, None) (broadcastState room1 ++ ack cb sid AckOk) ∧
  cards room1 = cards room ∧ flipped room1 = [KName n] ∧
  players room1 = players room ∧
  flip room1 sid (KName m) cb =
    match checkGameOver (stopped room2) with
    | Done room5 out5 => Done (room5, None) (out4 ++ out5 ++ ack cb sid AckOk)
    | Crash out5 => Crash (out4 ++ out5)
    end ∧
  cards room2 = cards room ∧
  players room2 = <[playerIndex:=player]> (players room) ∧
  flipped room2 = [] ∧
  log room2 = LogInfo (name player0 +:+ " found a pair (undefined).") :: log room.
Proof.
  intros Hg Hfind Hcp Hf room1 player room2 out4.
  pose proof Hfind as (Hpl & Hid & _)%list_find_Some.
  split_and!; try done.
  - unfold flip, findIndex. rewrite Hg, Hfind.
    cbn [fmap option_fmap option_map fst]. rewrite Hcp, Z.eqb_refl.
    cbn [negb card_at v_revealed v_matched orb].
    assert ((2 <=? length (flipped room))%nat = false) as -> by by rewrite Hf.
    fold (reveal (KName n) room). fold room1.
    change (flipped room1) with (flipped room ++ [KName n]). by rewrite Hf.
  - subst room1. cbn. by rewrite Hf.
  - unfold flip, findIndex.
    change (gameOver room1) with (gameOver room).
    change (players room1) with (players room).
    change (currentPlayer room1) with (currentPlayer room).
    rewrite Hg, Hfind.
    cbn [fmap option_fmap option_map fst]. rewrite Hcp, Z.eqb_refl.
    cbn [negb card_at v_revealed v_matched orb].
    assert ((2 <=? length (flipped room1))%nat = false) as ->
      by (subst room1; cbn; by rewrite Hf).
    fold (reveal (KName m) room1).
    change (flipped (reveal (KName m) room1))
      with ((flipped room ++ [KName n]) ++ [KName m]).
    rewrite Hf. cbn [app card_at v_pairId]. rewrite bool_decide_true by done.
    change (players (reveal (KName m) room1)) with (players room). rewrite Hpl.
    fold player.
    match goal with |- context [pauseTimer ?X] => change X with room2 end.
    pose proof (pauseTimer_fst room2) as Hp.
    destruct (pauseTimer room2) as [room3 out3]. cbn [fst snd] in *. subst room3.
    subst out4. subst player. cbn [id set_matches questionsLeft extra asked].
    rewrite Hid.
    destruct (checkGameOver (stopped room2)) as [room5 out5|out5];
      by rewrite <- !app_assoc.
Qed.

Lemma flips_without_cards_score_witness :
  ∃ room1 room5 out,
    flip room_two "A" (KName "length") true =
      Done (room1, None) (broadcastState room1 ++ [Ack "A" AckOk]) ∧
    flip room1 "A" (KName "length") true = Done (room5, None) out ∧
    cards room5 = cards room_two ∧
    (matches <$> players room5) = [1; 0].
Proof.
  destruct (flips_without_cards_score room_two "A" "length" "length" true 0
              (mkPlayer "A" "Ann" 0 0 0 0) eq_refl eq_refl eq_refl eq_refl)
    as (Hfirst & _ & _ & _ & Hsecond & _).
  eexists _, _, _. split; [exact Hfirst|]. split; [exact Hsecond|].
  split; reflexivity.
Defined.
